(** * random-data-provider-client: the protocol client of [lib/client.js]
      and the command helper of [lib/commands.js], embedded in Rocq.

    Numbers are IEEE-754 binary64 values ([spec_float] of the Standard
    Library at precision 53 and maximal exponent 1024), the request table
    [_events] is a finite map from request identifiers to event identifiers,
    and the handlers are written in a small monad that threads the client
    object, records the observable effects (log lines, frames handed to the
    socket, timer and process calls) and carries abrupt completions. *)

From Stdlib Require Import ZArith Lia.
From Stdlib Require Import Floats.SpecFloat.
From stdpp Require Import gmap strings list fin_maps pretty.

#[local] Set Warnings "-register-all".
Local Open Scope Z_scope.

(** ** JavaScript numbers *)

Module Number.

Definition prec : Z := 53.
Definition emax : Z := 1024.

Definition NaN : spec_float := S754_nan.
Definition zero : spec_float := S754_zero false.

(** The Number value of an integer literal (round to nearest, ties to
    even; exact below 2^53). *)
Definition of_Z (z : Z) : spec_float := binary_normalize prec emax z 0 false.

(** [x / y] and [x < y] on Numbers. *)
Definition div (x y : spec_float) : spec_float := SFdiv prec emax x y.
Definition lt (x y : spec_float) : bool := SFltb x y.

(** The Number value of the decimal text with digits [n] and decimal
    exponent [k], that is of [n * 10^k] (sign [neg]): the nearest
    binary64, ties to even. *)
Definition of_decimal (neg : bool) (n : Z) (k : Z) : spec_float :=
  match n with
  | Zpos p =>
      if 0 <=? k
      then binary_normalize prec emax ((if neg then -1 else 1) * (n * 10 ^ k)) 0 false
      else SFdiv prec emax (S754_finite neg p 0)
                           (S754_finite false (Z.to_pos (10 ^ (- k))) 0)
  | _ => S754_zero neg
  end.

(** Number of decimal digits of a positive integer; [fuel] is halved at
    every division by ten, so starting from [z] itself it never runs out. *)
Fixpoint digits10_aux (fuel : positive) (z : Z) : Z :=
  if z <? 10 then 1
  else match fuel with
       | xH => 1
       | xO p | xI p => 1 + digits10_aux p (z / 10)
       end.

Definition digits10 (z : Z) : Z := digits10_aux (Z.to_pos z) z.

(** The decimal exponent [e] of the positive rational [N / D]:
    [10^e <= N / D < 10^(e+1)]. *)
Definition exponent10 (N D : Z) : Z :=
  if D <=? N then digits10 (N / D) - 1 else - digits10 ((D - 1) / N).

(** [N / D] scaled by [10^(2-e)], as a fraction of integers. *)
Definition scaled_num (N e : Z) : Z := N * 10 ^ Z.max 0 (2 - e).
Definition scaled_den (D e : Z) : Z := D * 10 ^ Z.max 0 (e - 2).

(** Number.prototype.toPrecision, steps 10.a-10.b at precision 3: the
    integers [n] and [e] with [100 <= n < 1000] for which
    [n * 10^(e-2)] is closest to [N / D], the larger [n] on a tie. *)
Definition sig3 (N D : Z) : Z * Z :=
  let e := exponent10 N D in
  let n := (2 * scaled_num N e + scaled_den D e) / (2 * scaled_den D e) in
  if n =? 1000 then (100, e + 1) else (n, e).

(** The text produced by [toPrecision(3)], kept as its content: ["NaN"],
    ["Infinity"] or ["-Infinity"], or the three digits [n] with the decimal
    exponent [e] of the first of them (the text shows [n * 10^(e-2)] in
    fixed or exponential notation, with a leading minus when [neg]). *)
Inductive numeral : Type :=
  | TextNaN
  | TextInfinity (neg : bool)
  | TextDigits (neg : bool) (n : Z) (e : Z).

Definition toPrecision3 (x : spec_float) : numeral :=
  match x with
  | S754_nan => TextNaN
  | S754_infinity s => TextInfinity s
  | S754_zero _ => TextDigits false 0 0
  | S754_finite s m e =>
      let '(n, e10) :=
        if 0 <=? e then sig3 (Zpos m * 2 ^ e) 1 else sig3 (Zpos m) (2 ^ (- e)) in
      TextDigits s n e10
  end.

(** [parseFloat] of such a text. *)
Definition parseFloat_text (t : numeral) : spec_float :=
  match t with
  | TextNaN => S754_nan
  | TextInfinity s => S754_infinity s
  | TextDigits s n e => of_decimal s n (e - 2)
  end.

(** [parseFloat] applied to a Number: the argument is first converted to
    its shortest round-tripping text, so the Number comes back unchanged,
    except that the text of [-0] is ["0"]. *)
Definition parseFloat_number (x : spec_float) : spec_float :=
  match x with
  | S754_zero _ => S754_zero false
  | _ => x
  end.

End Number.

(** ** Parsed messages *)

(** What [JSON.parse] returns.  The properties of an object are listed in
    enumeration order, each key once. *)
Inductive json : Type :=
  | JNull
  | JBool (b : bool)
  | JNumber (x : spec_float)
  | JString (s : string)
  | JArray (elems : list json)
  | JObject (props : list (string * json)).

(** A JavaScript value read out of a parsed message: [None] is [undefined]. *)
Abbreviation value := (option json).

(** [v.k] for an own property [k] of a non-null value; the names read by
    the client ([events], [data], [message], [minDiv], [maxDiv], [_reqId],
    [set1], [set2]) are not members of any built-in prototype, so a value
    that is not an object with that key yields [undefined]. *)
Fixpoint assoc (k : string) (props : list (string * json)) : value :=
  match props with
  | [] => None
  | (k', v) :: rest => if String.eqb k k' then Some v else assoc k rest
  end.

Definition field (v : json) (k : string) : value :=
  match v with
  | JObject props => assoc k props
  | _ => None
  end.

(** [typeof v === 'object'] *)
Definition typeof_object (v : value) : bool :=
  match v with
  | Some JNull | Some (JArray _) | Some (JObject _) => true
  | _ => false
  end.

(** [v === s] for a string literal [s] *)
Definition strict_eq_string (v : value) (s : string) : bool :=
  match v with
  | Some (JString s') => String.eqb s' s
  | _ => false
  end.

(** ** Commands ([lib/commands.js]) *)

(** The value of [this._events[key]].  The table is created as [{}], so it
    inherits from [Object.prototype]: the access finds the event identifier
    stored under the key, else the member of [Object.prototype] of that name,
    else [undefined]. *)
Inductive entry : Type :=
  | Stored (eventId : string)
  | Inherited (member : string)
  | Absent.

(** The names of the members of [Object.prototype]. *)
Definition Object_prototype : list string :=
  ["constructor"; "__defineGetter__"; "__defineSetter__"; "hasOwnProperty";
   "__lookupGetter__"; "__lookupSetter__"; "isPrototypeOf";
   "propertyIsEnumerable"; "toString"; "valueOf"; "__proto__";
   "toLocaleString"].

(** [events[key]] for the request table [events], which holds the
    assignments made to it.  An assignment under [__proto__] creates no
    property (the setter inherited from [Object.prototype] ignores a string),
    so that key always finds the prototype. *)
Definition lookup_event (events : gmap string string) (key : string) : entry :=
  if String.eqb key "__proto__" then Inherited key
  else match events !! key with
       | Some e => Stored e
       | None => if bool_decide (key ∈ Object_prototype) then Inherited key else Absent
       end.

(** What [JSON.stringify] writes for the property [eventId] of a command
    that holds [e]: a string as it is; nothing for [undefined] and for a
    function, which every member of [Object.prototype] is but [__proto__];
    and [{}] for [__proto__], which is [Object.prototype] itself, an object
    without enumerable properties. *)
Definition eventId_json (e : entry) : option json :=
  match e with
  | Stored s => Some (JString s)
  | Inherited m => if String.eqb m "__proto__" then Some (JObject []) else None
  | Absent => None
  end.

(** The object a helper returns.  [eventId] of a confirmation is whatever
    the access to the request table gave. *)
Inductive command : Type :=
  | GetEvents
  | GetData (eventId : string)
  | Confirm (eventId : entry) (set : string) (n : nat) (div : spec_float).

Definition cmd (c : command) : string :=
  match c with
  | GetEvents => "getEvents"
  | GetData _ => "getData"
  | Confirm _ _ _ _ => "confirm"
  end.

Module Commands.
Definition getEvents : command := GetEvents.
Definition getData (eventId : string) : command := GetData eventId.
Definition confirm (eventId : entry) (set : string) (n : nat)
    (div : spec_float) : command :=
  Confirm eventId set n div.
End Commands.

(** ** The client object and its effects *)

(** [{ ...command, _reqId: reqId }], the object given to [JSON.stringify]. *)
Record frame : Type := Frame { payload : command; _reqId : string }.

Inductive logline : Type :=
| Incoming (text : string)          (* '<< ' + msg *)
| Outgoing (f : frame).             (* '>> ' + msg *)

Inductive effect : Type :=
| Log (l : logline)
| WsConnect (url : string)
| WsSend (f : frame)
| WsClose
| SetInterval (ms : Z)
| ClearInterval (timer : option Z)
| ProcessExit (code : Z).

Record Client : Type := mkClient {
  _url : string;
  _pullInterval : option Z;          (* null, or the timer and its period *)
  _pullIntervalMs : Z;
  _win : Z;
  _minDiv : value;
  _maxDiv : value;
  _events : gmap string string;      (* request id -> event id, as assigned *)
  _ws : option string;               (* undefined, or the socket and its url *)
  uuids : nat                        (* identifiers drawn from [uuid] so far *)
}.

Inductive exn : Type := SyntaxError | TypeError.

(** How a call ends.  [IllTyped] marks a coercion of a value that the JSDoc
    types of the messages ([Events], [Data], [Set]) exclude (a string or an
    object where a number is read, and the like): the embedding does not go
    further there. *)
Inductive completion (A : Type) : Type :=
  | Normal (a : A)
  | Throw (e : exn)
  | Exit (code : Z)
  | IllTyped.
Arguments Normal {A} a.
Arguments Throw {A} e.
Arguments Exit {A} code.
Arguments IllTyped {A}.

Definition M (A : Type) : Type := Client -> completion A * Client * list effect.

Definition ret {A} (a : A) : M A := fun c => (Normal a, c, []).

Definition bind {A B} (m : M A) (k : A -> M B) : M B := fun c =>
  match m c with
  | (Normal a, c1, t1) => let '(r, c2, t2) := k a c1 in (r, c2, t1 ++ t2)
  | (Throw e, c1, t1) => (Throw e, c1, t1)
  | (Exit code, c1, t1) => (Exit code, c1, t1)
  | (IllTyped, c1, t1) => (IllTyped, c1, t1)
  end.

Notation "'let*' x ':=' m 'in' k" := (bind m (fun x => k))
  (at level 10, x name, m at level 100, k at level 200).
Notation "m '>>' k" := (bind m (fun _ => k))
  (at level 100, k at level 200, right associativity).

Definition this : M Client := fun c => (Normal c, c, []).
Definition update (f : Client -> Client) : M unit := fun c => (Normal tt, f c, []).
Definition emit (e : effect) : M unit := fun c => (Normal tt, c, [e]).
Definition throw {A} (e : exn) : M A := fun c => (Throw e, c, []).
Definition exit {A} (code : Z) : M A := fun c => (Exit code, c, []).
Definition ill_typed {A} : M A := fun c => (IllTyped, c, []).

(** [for (x of l) body(x)] / [l.forEach(body)] *)
Fixpoint for_each {A} (l : list A) (body : A -> M unit) : M unit :=
  match l with
  | [] => ret tt
  | x :: rest => body x >> for_each rest body
  end.

Definition outcome {A} (r : completion A * Client * list effect) : completion A := r.1.1.
Definition after {A} (r : completion A * Client * list effect) : Client := r.1.2.
Definition trace {A} (r : completion A * Client * list effect) : list effect := r.2.

(** The frames handed to the socket, in order. *)
Definition sent (t : list effect) : list frame :=
  omap (fun e => match e with WsSend f => Some f | _ => None end) t.

(** ** Coercions *)

(** ToNumber, for the operands of [/] and [<].  [None] for a string, an
    array or an object: JavaScript converts these as well (['15'] to 15, [[]]
    to 0), the embedding does not, and [ToNumber] below ends [IllTyped] on
    them. *)
Definition to_number (v : value) : option spec_float :=
  match v with
  | None => Some Number.NaN
  | Some JNull => Some Number.zero
  | Some (JBool b) => Some (if b then Number.of_Z 1 else Number.zero)
  | Some (JNumber x) => Some x
  | Some (JString _) | Some (JArray _) | Some (JObject _) => None
  end.

Definition ToNumber (v : value) : M spec_float :=
  match to_number v with
  | Some x => ret x
  | None => ill_typed
  end.

(** The property key a value denotes in [this._events[reqId]].  The text
    JavaScript makes of a number, an array or an object is not embedded. *)
Definition ToPropertyKey (v : value) : M string :=
  match v with
  | None => ret "undefined"
  | Some JNull => ret "null"
  | Some (JBool b) => ret (if b then "true" else "false")
  | Some (JString s) => ret s
  | Some (JNumber _) | Some (JArray _) | Some (JObject _) => ill_typed
  end.

(** The keys visited by [for (let n in v)]; those of an array are its
    indices, in increasing order.  The keys of a string and of an object,
    which the loop would visit too, are not embedded. *)
Definition for_in_keys (v : value) : M (list nat) :=
  match v with
  | None | Some JNull | Some (JBool _) | Some (JNumber _) => ret []
  | Some (JArray elems) => ret (seq 0 (length elems))
  | Some (JString _) | Some (JObject _) => ill_typed
  end.

(** [v[n]] for an index [n]; not embedded for a string or an object. *)
Definition index (v : value) (n : nat) : M value :=
  match v with
  | None | Some JNull => throw TypeError
  | Some (JArray elems) => ret (elems !! n)
  | Some (JBool _) | Some (JNumber _) => ret None
  | Some (JString _) | Some (JObject _) => ill_typed
  end.

(** [Object.keys(v)] for a value whose [typeof] is ['object']. *)
Definition Object_keys (v : value) : M (list string) :=
  match v with
  | Some (JObject props) => ret (props.*1)
  | Some (JArray elems) => ret (pretty <$> seq 0 (length elems))
  | None | Some JNull => throw TypeError
  | Some (JBool _) | Some (JNumber _) => ret []
  | Some (JString _) => ill_typed
  end.

(** ** The client ([lib/client.js]) *)

Record ClientOptions : Type := {
  url : option string;
  pullIntervalMs : option Z;
  win : option Z
}.

Definition DEFAULT_OPTIONS : ClientOptions :=
  {| url := Some "wss://demoserver.dev/ws";
     pullIntervalMs := Some 12000;
     win := Some 100 |}.

(** [x || y] where [x] is an optional string or integer ([undefined], ['']
    and [0] are falsy) and [y] is a property of [DEFAULT_OPTIONS]. *)
Definition or_string (x y : option string) : string :=
  match x with
  | Some s => if String.eqb s EmptyString then default EmptyString y else s
  | None => default EmptyString y
  end.

Definition or_Z (x y : option Z) : Z :=
  match x with
  | Some z => if z =? 0 then default 0 y else z
  | None => default 0 y
  end.

(** [constructor (options = DEFAULT_OPTIONS)] *)
Definition constructor (options : option ClientOptions) : Client :=
  let options := default DEFAULT_OPTIONS options in
  {| _url := or_string (url options) (url DEFAULT_OPTIONS);
     _pullInterval := None;
     _pullIntervalMs := or_Z (pullIntervalMs options) (pullIntervalMs DEFAULT_OPTIONS);
     _win := or_Z (win options) (win DEFAULT_OPTIONS);
     _minDiv := Some JNull;
     _maxDiv := Some JNull;
     _events := ∅;
     _ws := None;
     uuids := 0 |}.

Definition set_events (m : gmap string string) (c : Client) : Client :=
  mkClient (_url c) (_pullInterval c) (_pullIntervalMs c) (_win c)
           (_minDiv c) (_maxDiv c) m (_ws c) (uuids c).
Definition set_minDiv (v : value) (c : Client) : Client :=
  mkClient (_url c) (_pullInterval c) (_pullIntervalMs c) (_win c)
           v (_maxDiv c) (_events c) (_ws c) (uuids c).
Definition set_maxDiv (v : value) (c : Client) : Client :=
  mkClient (_url c) (_pullInterval c) (_pullIntervalMs c) (_win c)
           (_minDiv c) v (_events c) (_ws c) (uuids c).
Definition set_pullInterval (t : option Z) (c : Client) : Client :=
  mkClient (_url c) t (_pullIntervalMs c) (_win c)
           (_minDiv c) (_maxDiv c) (_events c) (_ws c) (uuids c).
Definition set_ws (w : option string) (c : Client) : Client :=
  mkClient (_url c) (_pullInterval c) (_pullIntervalMs c) (_win c)
           (_minDiv c) (_maxDiv c) (_events c) w (uuids c).
Definition set_uuids (k : nat) (c : Client) : Client :=
  mkClient (_url c) (_pullInterval c) (_pullIntervalMs c) (_win c)
           (_minDiv c) (_maxDiv c) (_events c) (_ws c) k.

(** The [options] argument of [_processSet]. *)
Record SetOptions : Type := { set : string; eventId : entry }.

(** [parseFloat(parseFloat(a / b).toPrecision(3))] *)
Definition ratio (a b : spec_float) : spec_float :=
  Number.parseFloat_text
    (Number.toPrecision3 (Number.parseFloat_number (Number.div a b))).

(** [data.k], or the binding of [k] in a destructuring [{ k } = data], for
    a parsed value [data]: reading a property of [null] throws. *)
Definition member (data : json) (k : string) : M value :=
  match data with
  | JNull => throw TypeError
  | _ => ret (field data k)
  end.

Section Client.

(** [JSON.parse]: [None] when it throws a SyntaxError. *)
Variable JSON_parse : string -> option json.

(** The identifiers the [uuid] generator hands out, in the order of the
    calls. *)
Variable uuid_v4 : nat -> string.

Definition uuid : M string := fun c =>
  (Normal (uuid_v4 (uuids c)), set_uuids (S (uuids c)) c, []).

(** [_send (command, reqId = uuid())] *)
Definition _send (command : command) (reqId : option string) : M unit :=
  let* reqId := match reqId with Some r => ret r | None => uuid end in
  let msg := {| payload := command; _reqId := reqId |} in
  emit (Log (Outgoing msg)) >>
  let* c := this in
  match _ws c with
  | None => throw TypeError
  | Some _ => emit (WsSend msg)
  end.

Definition stop (code : Z) : M unit :=
  let* c := this in
  emit (ClearInterval (_pullInterval c)) >>
  match _ws c with
  | None => throw TypeError
  | Some _ => emit WsClose
  end >>
  emit (ProcessExit code) >>
  exit code.

Definition _connect : M unit :=
  let* c := this in
  update (set_ws (Some (_url c))) >>
  emit (WsConnect (_url c)).

Definition start : M unit := _connect.

Definition _onOpen : M unit :=
  _send Commands.getEvents None >>
  let* c := this in
  emit (SetInterval (_pullIntervalMs c)) >>
  update (set_pullInterval (Some (_pullIntervalMs c))).

(** The callback armed by [setInterval]:
    [this._send.bind(this, Commands.getEvents())]. *)
Definition _onTick : M unit := _send Commands.getEvents None.

(** The body of the loop of [_processSet], at key [n]. *)
Definition _processSet_body (set1 set2 : value) (options : SetOptions) (n : nat)
    : M unit :=
  let* a := index set1 n in
  let* b := index set2 n in
  let* x := ToNumber a in
  let* y := ToNumber b in
  let div := ratio x y in
  let* c := this in
  let* lo := ToNumber (_minDiv c) in
  if Number.lt lo div then
    let* hi := ToNumber (_maxDiv c) in
    if Number.lt div hi then
      _send (Commands.confirm (eventId options) (set options) n div) None
    else ret tt
  else ret tt.

Definition _processSet (set1 set2 : value) (options : SetOptions) : M unit :=
  let* keys := for_in_keys set1 in
  for_each keys (_processSet_body set1 set2 options).

(** [this._events[reqId]] is not tested: whatever the access gives, an
    event identifier, [undefined] or a member of [Object.prototype], goes into
    the options of both evaluations. *)
Definition _onDataHandler (data : json) : M unit :=
  let* d := member data "data" in
  match d with
  | None | Some JNull => throw TypeError
  | Some d =>
      let set1 := field d "set1" in
      let set2 := field d "set2" in
      let* reqId := member data "_reqId" in
      let* key := ToPropertyKey reqId in
      let* c := this in
      let eventId := lookup_event (_events c) key in
      _processSet set1 set2 {| set := "set1"; eventId := eventId |} >>
      _processSet set2 set1 {| set := "set2"; eventId := eventId |}
  end.

(** The callback given to [forEach] in [_onEventsHandler]. *)
Definition _onEventsHandler_each (eventId : string) : M unit :=
  let* reqId := uuid in
  update (fun c => set_events (<[reqId := eventId]> (_events c)) c) >>
  _send (Commands.getData eventId) (Some reqId).

Definition _onEventsHandler (data : json) : M unit :=
  let* minDiv := member data "minDiv" in
  let* maxDiv := member data "maxDiv" in
  let* events := member data "events" in
  update (set_events ∅) >>
  update (set_minDiv minDiv) >>
  update (set_maxDiv maxDiv) >>
  let* keys := Object_keys events in
  for_each keys _onEventsHandler_each.

Definition _onLoseHandler : M unit := stop 1.
Definition _onWinHandler : M unit := stop 0.

Definition _onMessage (msg : string) : M unit :=
  emit (Log (Incoming msg)) >>
  match JSON_parse msg with
  | None => throw SyntaxError
  | Some data =>
      let* events := member data "events" in
      if typeof_object events then _onEventsHandler data
      else
        let* d := member data "data" in
        if typeof_object d then _onDataHandler data
        else
          let* m := member data "message" in
          if strict_eq_string m "Lose" then _onLoseHandler
          else if strict_eq_string m "Win" then _onWinHandler
          else ret tt
  end.

(** ** The process around the client *)

Inductive notification : Type :=
  | Open
  | Message (text : string)
  | Tick.

(** [Running]: the listeners are installed and the process waits.
    [Exited]: [process.exit] was called, nothing runs afterwards.
    [Uncaught]: an exception left a listener; the client catches none.
    [Unknown] is no state of the program: a listener had to coerce a value
    outside the types of the messages, where JavaScript goes on and the
    embedding does not.  What [run] gives from there on tells nothing about
    the program; statements about whole sessions are made for sessions that
    do not reach it. *)
Inductive process : Type :=
  | Running (c : Client)
  | Exited (code : Z)
  | Uncaught (e : exn)
  | Unknown.

Definition listener (ev : notification) : M unit :=
  match ev with
  | Open => _onOpen
  | Message text => _onMessage text
  | Tick => _onTick
  end.

Definition deliver (p : process) (ev : notification) : process * list effect :=
  match p with
  | Running c =>
      match listener ev c with
      | (Normal _, c', t) => (Running c', t)
      | (Throw e, _, t) => (Uncaught e, t)
      | (Exit code, _, t) => (Exited code, t)
      | (IllTyped, _, t) => (Unknown, t)
      end
  | _ => (p, [])
  end.

Fixpoint run (p : process) (evs : list notification) : process * list effect :=
  match evs with
  | [] => (p, [])
  | ev :: rest =>
      let '(p1, t1) := deliver p ev in
      let '(p2, t2) := run p1 rest in
      (p2, t1 ++ t2)
  end.

End Client.

(** ** Vocabulary of the statements *)

(** The socket exists: [_connect] has run. *)
Definition connected (c : Client) : Prop := is_Some (_ws c).

(** The bounds of the client read as Numbers. *)
Definition bounds (c : Client) (lo hi : spec_float) : Prop :=
  to_number (_minDiv c) = Some lo /\ to_number (_maxDiv c) = Some hi.

(** A series of Numbers as it sits in a parsed message. *)
Definition series (l : list spec_float) : value := Some (JArray (JNumber <$> l)).

(** ToNumber of [l[n]]: [undefined], hence [NaN], past the end. *)
Definition at_index (l : list spec_float) (n : nat) : spec_float :=
  default Number.NaN (l !! n).

(** [lo < d && d < hi] *)
Definition inside (lo hi d : spec_float) : bool := Number.lt lo d && Number.lt d hi.

(** The indices of [ns] at which primary [p] over reference [r] falls inside
    the bounds, each with its ratio. *)
Definition hits (lo hi : spec_float) (p r : list spec_float) (ns : list nat)
    : list (nat * spec_float) :=
  omap (fun n => let d := ratio (at_index p n) (at_index r n) in
                 if inside lo hi d then Some (n, d) else None) ns.

(** The confirm commands of a list of hits. *)
Definition confirmations (o : SetOptions) (hs : list (nat * spec_float)) : list command :=
  (fun h => Commands.confirm (eventId o) (set o) h.1 h.2) <$> hs.

(** The confirm commands of a data response with series [s1] and [s2]:
    those of [s1] over [s2] under the label ["set1"], then those of [s2] over
    [s1] under ["set2"]. *)
Definition data_confirmations (lo hi : spec_float) (eid : entry)
    (s1 s2 : list spec_float) : list command :=
  confirmations {| set := "set1"; eventId := eid |} (hits lo hi s1 s2 (seq 0 (length s1)))
  ++ confirmations {| set := "set2"; eventId := eid |} (hits lo hi s2 s1 (seq 0 (length s2))).

(** What [_send] does with each command of [cmds] when the socket exists and
    no request id is supplied: identifiers [u], [u+1], ... are drawn. *)
Definition stamped (uuid_v4 : nat -> string) (u : nat) (cmds : list command) : list frame :=
  imap (fun j k => {| payload := k; _reqId := uuid_v4 (u + j)%nat |}) cmds.

Definition sending (fs : list frame) : list effect :=
  fs ≫= fun f => [Log (Outgoing f); WsSend f].

(** A parsed message of type [Data]. *)
Definition is_Data (data : json) (reqId : string) (s1 s2 : list spec_float) : Prop :=
  exists d, field data "data" = Some d /\
            field d "set1" = series s1 /\
            field d "set2" = series s2 /\
            field data "_reqId" = Some (JString reqId).

(** A parsed message of type [Events] with the event identifiers [keys]. *)
Definition is_Events (data : json) (keys : list string) : Prop :=
  exists props, field data "events" = Some (JObject props) /\ props.*1 = keys.

(** Every tracked request identifier was drawn from the generator. *)
Definition tracked_drawn (uuid_v4 : nat -> string) (c : Client) : Prop :=
  forall r e, _events c !! r = Some e -> exists i, (i < uuids c)%nat /\ r = uuid_v4 i.

(** The magnitude [m * 2^e] of a finite Number as a fraction of integers. *)
Definition magnitude_num (m : positive) (e : Z) : Z :=
  if 0 <=? e then Zpos m * 2 ^ e else Zpos m.
Definition magnitude_den (e : Z) : Z :=
  if 0 <=? e then 1 else 2 ^ (- e).

(** [n * 10^(k-2)], with [100 <= n <= 999], is the number of three
    significant digits nearest to the positive rational [N / D], the upper
    one of two equally near: [N / D] lies below the midpoint to the next such
    number, [(n + 1) * 10^(k-2)], and not below the midpoint to the previous
    one, which is [(n - 1) * 10^(k-2)], or [999 * 10^(k-3)] when [n = 100]. *)
Definition nearest3 (N D n k : Z) : Prop :=
  100 <= n <= 999
  /\ 2 * Number.scaled_num N k < (2 * n + 1) * Number.scaled_den D k
  /\ (if n =? 100
      then 1999 * Number.scaled_den D k <= 20 * Number.scaled_num N k
      else (2 * n - 1) * Number.scaled_den D k <= 2 * Number.scaled_num N k).

(** [d] is the Number quotient [q] rounded to three significant decimal
    digits, half away from zero: for a finite non-zero [q = +-m * 2^e] it is
    the Number nearest to [+-n * 10^(k-2)], where [n * 10^(k-2)] is the
    number of three significant digits nearest to [m * 2^e]; zeros,
    infinities and NaN are kept (the sign of a zero is dropped). *)
Definition three_significant (q d : spec_float) : Prop :=
  match q with
  | S754_finite s m e =>
      exists n k,
        nearest3 (magnitude_num m e) (magnitude_den e) n k
        /\ d = Number.of_decimal s n (k - 2)
  | S754_zero _ => d = S754_zero false
  | _ => d = q
  end.

(** Some confirm command for index [i] is among the frames sent in [t]. *)
Definition confirmed_at (t : list effect) (i : nat) : Prop :=
  exists f eid st d, f ∈ sent t /\ payload f = Confirm eid st i d.

(** The request table after the keys [keys] were tracked one after the
    other in [m], under the identifiers drawn from number [u] on. *)
Fixpoint tracked (uuid_v4 : nat -> string) (u : nat) (keys : list string)
    (m : gmap string string) : gmap string string :=
  match keys with
  | [] => m
  | k :: rest => tracked uuid_v4 (S u) rest (<[uuid_v4 u := k]> m)
  end.


(** The result [r] of a handler, after the line that [_onMessage] logs for
    the text [msg]. *)
Definition logged {A} (msg : string) (r : completion A * Client * list effect)
    : completion A * Client * list effect :=
  (outcome r, after r, Log (Incoming msg) :: trace r).

(** [m] keeps the property [I] of the client object whenever it ends
    normally. *)
Definition preserves {A} (I : Client -> Prop) (m : M A) : Prop :=
  forall c, I c ->
    match m c with
    | (Normal _, c', _) => I c'
    | _ => True
    end.

(** Modelled from the spec's words (section 4.4): the quotient rounded half
    away from zero to three decimal places, as the nearest Number. *)
Definition round_half_away_3dp (x : spec_float) : spec_float :=
  match x with
  | S754_finite s m e =>
      let N := magnitude_num m e in
      let D := magnitude_den e in
      Number.of_decimal s ((2 * (N * 1000) + D) / (2 * D)) (-3)
  | _ => x
  end.

(** ** Sample data for the examples *)

Module Sample.

(** Request identifiers ["req-0"], ["req-1"], ... *)
Definition uuid_v4 (n : nat) : string := "req-" +:+ pretty n.

Definition numbers (l : list Z) : list spec_float := Number.of_Z <$> l.

Definition data_message (reqId : string) (s1 s2 : list Z) : json :=
  JObject [("_reqId", JString reqId);
           ("data", JObject [("set1", JArray (JNumber <$> numbers s1));
                             ("set2", JArray (JNumber <$> numbers s2))])].

Definition events_message (lo hi : Z) (ids : list string) : json :=
  JObject [("minDiv", JNumber (Number.of_Z lo));
           ("maxDiv", JNumber (Number.of_Z hi));
           ("events", JObject ((fun k => (k, JObject [])) <$> ids))].

(** [s] between double quotes. *)
Definition quoted (s : string) : string :=
  String (Ascii.ascii_of_nat 34) (s +:+ String (Ascii.ascii_of_nat 34) EmptyString).

Definition text_win : string := "{" +:+ quoted "message" +:+ ":" +:+ quoted "Win" +:+ "}".
Definition text_lose : string := "{" +:+ quoted "message" +:+ ":" +:+ quoted "Lose" +:+ "}".
Definition text_null_events : string := "{" +:+ quoted "events" +:+ ":null}".
Definition text_broken : string := "{oops".

(** The text of a data response with the request identifier [reqId] and
    the series written as [s1] and [s2]. *)
Definition text_data (reqId s1 s2 : string) : string :=
  "{" +:+ quoted "_reqId" +:+ ":" +:+ quoted reqId +:+ ","
  +:+ quoted "data" +:+ ":{" +:+ quoted "set1" +:+ ":" +:+ s1 +:+ ","
  +:+ quoted "set2" +:+ ":" +:+ s2 +:+ "}}".

(** The text of an events update with bounds 3 and 4 and the events
    ["a"] and ["b"]. *)
Definition text_events : string :=
  "{" +:+ quoted "minDiv" +:+ ":3," +:+ quoted "maxDiv" +:+ ":4,"
  +:+ quoted "events" +:+ ":{" +:+ quoted "a" +:+ ":{}," +:+ quoted "b" +:+ ":{}}}".

Definition text_stale : string := text_data "stale" "[10,20]" "[5,18]".
Definition text_uneven : string := text_data "req-0" "[10,20,30]" "[5,18]".

(** [JSON.parse] on the texts the examples use; [text_broken] is not
    JSON, and no other text is given to this function. *)
Definition JSON_parse (text : string) : option json :=
  if String.eqb text text_win then Some (JObject [("message", JString "Win")])
  else if String.eqb text text_lose then Some (JObject [("message", JString "Lose")])
  else if String.eqb text text_null_events then Some (JObject [("events", JNull)])
  else if String.eqb text text_events then Some (events_message 3 4 ["a"; "b"])
  else if String.eqb text text_stale then Some (data_message "stale" [10; 20] [5; 18])
  else if String.eqb text text_uneven then Some (data_message "req-0" [10; 20; 30] [5; 18])
  else None.

(** A connected client with bounds (1, 2) that has drawn one identifier,
    ["req-0"], and tracks it for event ["ev1"]. *)
Definition client : Client :=
  {| _url := "wss://demoserver.dev/ws";
     _pullInterval := Some 12000;
     _pullIntervalMs := 12000;
     _win := 100;
     _minDiv := Some (JNumber (Number.of_Z 1));
     _maxDiv := Some (JNumber (Number.of_Z 2));
     _events := {["req-0" := "ev1"]};
     _ws := Some "wss://demoserver.dev/ws";
     uuids := 1 |}.

End Sample.

(** ** More sample data: messages outside the three shapes *)

Module Stray.

Definition text_draw : string :=
  "{" +:+ Sample.quoted "message" +:+ ":" +:+ Sample.quoted "Draw" +:+ "}".
Definition text_null : string := "null".
Definition text_null_data : string := "{" +:+ Sample.quoted "data" +:+ ":null}".

(** A data response to the request identifier [__proto__]. *)
Definition text_proto : string := Sample.text_data "__proto__" "[10,20]" "[5,18]".

(** [JSON.parse] on these texts and on those of [Sample]. *)
Definition JSON_parse (text : string) : option json :=
  if String.eqb text text_draw then Some (JObject [("message", JString "Draw")])
  else if String.eqb text text_null then Some JNull
  else if String.eqb text text_null_data then Some (JObject [("data", JNull)])
  else if String.eqb text text_proto
  then Some (Sample.data_message "__proto__" [10; 20] [5; 18])
  else Sample.JSON_parse text.

(** A data response that lacks [set2]. *)
Definition half_data : json :=
  JObject [("_reqId", JString "req-0");
           ("data", JObject [("set1", JArray (JNumber <$> Sample.numbers [1; 2]))])].

(** An events update whose [events] is an array of two elements. *)
Definition array_events : json :=
  JObject [("minDiv", JNumber (Number.of_Z 1));
           ("maxDiv", JNumber (Number.of_Z 2));
           ("events", JArray [JObject []; JObject []])].

(** The client right after [new Client()] and [start()]: connected, with
    both bounds still [null]. *)
Definition started : Client := after (start (constructor None)).

End Stray.

(** ** Vocabulary of the properties of whole sessions *)

Definition set_win (w : Z) (c : Client) : Client :=
  mkClient (_url c) (_pullInterval c) (_pullIntervalMs c) w
           (_minDiv c) (_maxDiv c) (_events c) (_ws c) (uuids c).

(** How a call ended, without the value it returned. *)
Definition kind {A} (r : completion A) : completion unit :=
  match r with
  | Normal _ => Normal tt
  | Throw e => Throw e
  | Exit code => Exit code
  | IllTyped => IllTyped
  end.

(** The process after a listener that ended as [r] and left the client
    [c]; this is the case distinction of [deliver]. *)
Definition settle (r : completion unit) (c : Client) : process :=
  match r with
  | Normal _ => Running c
  | Throw e => Uncaught e
  | Exit code => Exited code
  | IllTyped => Unknown
  end.

(** A relation [R] between the client before a call, the way the call
    ended, the client after it and the effects it produced; [m] obeys [R]
    when every call of [m] is in it. *)
Definition obeys (R : Client -> completion unit -> Client -> list effect -> Prop)
    {A} (m : M A) : Prop :=
  forall c, R c (kind (outcome (m c))) (after (m c)) (trace (m c)).

(** Effects other than handing a frame to the socket and exiting. *)
Definition quiet (e : effect) : Prop :=
  match e with
  | WsSend _ | ProcessExit _ => False
  | _ => True
  end.

(** Assignments that draw no identifier and add nothing to the request
    table. *)
Definition steady (f : Client -> Client) : Prop :=
  forall c, uuids (f c) = uuids c
            /\ forall r e, _events (f c) !! r = Some e -> _events c !! r = Some e.

(** What a relation needs in order to hold of every listener: it holds of
    the steps that neither send nor exit, it composes along sequencing, and
    it holds of the three places where the client sends, tracks and stops. *)
Class Discipline (uuid_v4 : nat -> string)
    (R : Client -> completion unit -> Client -> list effect -> Prop) : Prop := {
  discipline_skip : forall c, R c (Normal tt) c [];
  discipline_throw : forall c e, R c (Throw e) c [];
  discipline_ill_typed : forall c, R c IllTyped c [];
  discipline_emit : forall c e, quiet e -> R c (Normal tt) c [e];
  discipline_update : forall c f, steady f -> R c (Normal tt) (f c) [];
  discipline_seq : forall c c1 c2 t1 t2 r,
    R c (Normal tt) c1 t1 -> R c1 r c2 t2 -> R c r c2 (t1 ++ t2);
  discipline_send : forall command, obeys R (_send uuid_v4 command None);
  discipline_track : forall eventId, obeys R (_onEventsHandler_each uuid_v4 eventId);
  discipline_stop : forall code, code = 0 \/ code = 1 -> obeys R (stop code)
}.

(** The frames sent carry, in order, the identifiers drawn during the call,
    and no identifier is left unused by a call that ends normally. *)
Definition numbered (uuid_v4 : nat -> string)
    (c : Client) (r : completion unit) (c' : Client) (t : list effect) : Prop :=
  exists k, _reqId <$> sent t = uuid_v4 <$> seq (uuids c) k
            /\ (uuids c + k <= uuids c')%nat
            /\ (r = Normal tt -> uuids c' = (uuids c + k)%nat).

(** Every frame handed to the socket comes right after its own log line. *)
Inductive announced : list effect -> Prop :=
| announced_nil : announced []
| announced_other e t :
    (forall f, e <> WsSend f) -> announced t -> announced (e :: t)
| announced_send f t :
    announced t -> announced (Log (Outgoing f) :: WsSend f :: t).

Definition logs_first
    (c : Client) (r : completion unit) (c' : Client) (t : list effect) : Prop :=
  announced t.

(** [process.exit] is not called in [t]. *)
Definition no_exit (t : list effect) : Prop := forall code, ProcessExit code ∉ t.

(** A call exits at most once, as its last effect, with code 0 or 1, right
    after clearing the timer and closing the socket; a call that does not end
    by exiting has not called [process.exit]. *)
Definition exits_last
    (c : Client) (r : completion unit) (c' : Client) (t : list effect) : Prop :=
  match r with
  | Exit code =>
      (code = 0 \/ code = 1)
      /\ exists t0 timer,
           t = t0 ++ [ClearInterval timer; WsClose; ProcessExit code] /\ no_exit t0
  | _ => no_exit t
  end.

(** After a call that ended normally, every tracked request was tracked
    before or was sent, in this call, as a [getData] command for its event. *)
Definition requested
    (c : Client) (r : completion unit) (c' : Client) (t : list effect) : Prop :=
  r = Normal tt ->
  forall rid e, _events c' !! rid = Some e ->
    _events c !! rid = Some e \/ {| payload := GetData e; _reqId := rid |} ∈ sent t.

(** *** Sessions within the types of the messages

    The embedding follows a listener as long as the values it coerces are of
    the kinds the messages are documented to carry; past an [IllTyped] step
    it says nothing.  The predicates below describe, on the inputs, the
    sessions it follows to their end. *)

(** ToNumber is embedded for [v]: [undefined], [null], a boolean or a
    number. *)
Definition numeric (v : value) : bool :=
  match to_number v with
  | Some _ => true
  | None => false
  end.

(** The conversion to a property key is embedded for [v]: [undefined],
    [null], a boolean or a string. *)
Definition keyable (v : value) : bool :=
  match v with
  | Some (JNumber _) | Some (JArray _) | Some (JObject _) => false
  | _ => true
  end.

(** The loop of [_processSet] is embedded for the series [v]: an array of
    numbers, booleans and nulls, or no array at all, but neither a string nor
    an object. *)
Definition plain (v : value) : bool :=
  match v with
  | Some (JString _) | Some (JObject _) => false
  | Some (JArray elems) => forallb (fun e => numeric (Some e)) elems
  | _ => true
  end.

(** A parsed message whose [minDiv], [maxDiv], [_reqId] and series, where
    it has them, are of these kinds. *)
Definition typed (data : json) : bool :=
  numeric (field data "minDiv") && numeric (field data "maxDiv")
  && keyable (field data "_reqId")
  && match field data "data" with
     | Some d => plain (field d "set1") && plain (field d "set2")
     | None => true
     end.

Definition typed_notification (JSON_parse : string -> option json)
    (ev : notification) : bool :=
  match ev with
  | Message text =>
      match JSON_parse text with
      | Some data => typed data
      | None => true
      end
  | _ => true
  end.

(** A client whose bounds are [null], booleans or numbers. *)
Definition typed_client (c : Client) : bool :=
  numeric (_minDiv c) && numeric (_maxDiv c).

(** From a client with such bounds, [m] does not end [IllTyped], leaves
    such bounds, and returns a value in [Q]. *)
Definition covered {A} (Q : A -> Prop) (m : M A) : Prop :=
  forall c, typed_client c = true ->
    outcome (m c) <> IllTyped
    /\ typed_client (after (m c)) = true
    /\ forall a, outcome (m c) = Normal a -> Q a.

(** [m] does not read [_win]: with another value in that property it does
    the same and leaves that value in place. *)
Definition relabel {A} (w : Z) (x : completion A * Client * list effect)
    : completion A * Client * list effect :=
  (outcome x, set_win w (after x), trace x).

Definition inert {A} (m : M A) : Prop :=
  forall c w, m (set_win w c) = relabel w (m c).

(** The order of the Numbers other than NaN, as a lexicographic order on
    triples: the infinities at the ends, the finite Numbers by sign, exponent
    and mantissa, the two zeros together in the middle. *)
Definition rank (x : spec_float) : Z * Z * Z :=
  match x with
  | S754_nan => (0, 0, 0)
  | S754_infinity true => (-2, 0, 0)
  | S754_finite true m e => (-1, - e, - Zpos m)
  | S754_zero _ => (0, 0, 0)
  | S754_finite false m e => (1, e, Zpos m)
  | S754_infinity false => (2, 0, 0)
  end.

Definition rank_lt (a b : Z * Z * Z) : Prop :=
  a.1.1 < b.1.1
  \/ (a.1.1 = b.1.1 /\ (a.1.2 < b.1.2 \/ (a.1.2 = b.1.2 /\ a.2 < b.2))).

(** ** Facts about the monad and the primitives *)

Lemma set_uuids_same (c : Client) : set_uuids (uuids c) c = c.
Proof. destruct c; reflexivity. Qed.

Lemma member_field data k c :
  data <> JNull -> member data k c = (Normal (field data k), c, []).
Proof. intros H. by destruct data. Qed.

Lemma field_not_null data k v : field data k = Some v -> data <> JNull.
Proof. by intros H ->. Qed.

Lemma typeof_object_not_null data k :
  typeof_object (field data k) = true -> data <> JNull.
Proof. by intros H ->. Qed.

(** The access to the table finds what was assigned under a key other
    than [__proto__], and no event identifier under a key that was not
    assigned. *)
Lemma lookup_event_assigned (events : gmap string string) key e :
  events !! key = Some e -> key <> "__proto__" -> lookup_event events key = Stored e.
Proof.
  intros H Hne. unfold lookup_event. rewrite H.
  by destruct (String.eqb_spec key "__proto__").
Qed.

Lemma lookup_event_unassigned (events : gmap string string) key :
  events !! key = None -> forall e, lookup_event events key <> Stored e.
Proof.
  intros H e. unfold lookup_event. rewrite H.
  destruct (String.eqb key "__proto__"); [done|]. by destruct (bool_decide _).
Qed.

Lemma bind_emit {A} (e : effect) (m : M A) c :
  (emit e >> m) c = (outcome (m c), after (m c), e :: trace (m c)).
Proof. unfold bind, emit. by destruct (m c) as [[r c'] t]. Qed.

Lemma bind_pure {A B} (a : A) (k : A -> M B) c c' :
  forall m : M A, m c = (Normal a, c', []) -> bind m k c = k a c'.
Proof. intros m H. unfold bind. rewrite H. by destruct (k a c') as [[r c2] t]. Qed.

Lemma sent_sending (fs : list frame) : sent (sending fs) = fs.
Proof.
  induction fs as [|f fs IH]; [reflexivity|].
  unfold sending in *. simpl. unfold sent in *. simpl. f_equal. exact IH.
Qed.

Lemma sending_app (fs gs : list frame) : sending (fs ++ gs) = sending fs ++ sending gs.
Proof. unfold sending. apply bind_app. Qed.

Section Sending.

Variable uuid_v4 : nat -> string.

Lemma stamped_payload u cmds : payload <$> stamped uuid_v4 u cmds = cmds.
Proof.
  revert u. induction cmds as [|k cmds IH]; intros u; [reflexivity|].
  unfold stamped in *. simpl. f_equal.
  rewrite <- (IH (S u)) at 2. f_equal.
  apply imap_ext. intros j x _. simpl. do 2 f_equal. lia.
Qed.

Lemma stamped_cons u k cmds :
  stamped uuid_v4 u (k :: cmds)
  = {| payload := k; _reqId := uuid_v4 u |} :: stamped uuid_v4 (S u) cmds.
Proof.
  unfold stamped. simpl. f_equal; [do 2 f_equal; lia|].
  apply imap_ext. intros j x _. simpl. do 2 f_equal. lia.
Qed.

Lemma stamped_app u ks ls :
  stamped uuid_v4 u (ks ++ ls)
  = stamped uuid_v4 u ks ++ stamped uuid_v4 (u + length ks) ls.
Proof.
  revert u. induction ks as [|k ks IH]; intros u.
  - simpl. by rewrite Nat.add_0_r.
  - rewrite <- app_comm_cons, !stamped_cons, IH.
    simpl length. by rewrite Nat.add_succ_r.
Qed.

Lemma _send_given command r c :
  connected c ->
  _send uuid_v4 command (Some r) c
  = (Normal tt, c, sending [{| payload := command; _reqId := r |}]).
Proof.
  intros [w Hw]. unfold _send, bind, ret, emit, this. simpl. rewrite Hw. reflexivity.
Qed.

Lemma _send_fresh command c :
  connected c ->
  _send uuid_v4 command None c
  = (Normal tt, set_uuids (S (uuids c)) c,
     sending [{| payload := command; _reqId := uuid_v4 (uuids c) |}]).
Proof.
  intros [w Hw]. unfold _send, bind, ret, emit, this, uuid. simpl. rewrite Hw. reflexivity.
Qed.

End Sending.

(** ** The evaluation loop *)

Section Evaluation.

Variable uuid_v4 : nat -> string.

Lemma index_series (l : list spec_float) (n : nat) c :
  index (series l) n c = (Normal (JNumber <$> l !! n), c, []).
Proof. unfold series, index, ret. by rewrite list_lookup_fmap. Qed.

Lemma to_number_element (l : list spec_float) (n : nat) :
  to_number (JNumber <$> l !! n) = Some (at_index l n).
Proof. unfold at_index. by destruct (l !! n). Qed.

(** One turn of the loop: at most one command, stamped with the next
    identifier. *)
Lemma _processSet_body_series p r o n lo hi c :
  connected c -> bounds c lo hi ->
  _processSet_body uuid_v4 (series p) (series r) o n c
  = let d := ratio (at_index p n) (at_index r n) in
    if inside lo hi d
    then (Normal tt, set_uuids (S (uuids c)) c,
          sending [{| payload := Commands.confirm (eventId o) (set o) n d;
                      _reqId := uuid_v4 (uuids c) |}])
    else (Normal tt, c, []).
Proof.
  intros Hc [Hlo Hhi].
  unfold _processSet_body, bind, ToNumber.
  rewrite !index_series, !to_number_element.
  unfold ret at 1 2. unfold this. rewrite Hlo. unfold ret at 1.
  cbv zeta. unfold inside.
  destruct (Number.lt lo _); simpl; [|reflexivity].
  rewrite Hhi. unfold ret at 1.
  destruct (Number.lt _ hi); simpl; [|reflexivity].
  by rewrite (_send_fresh uuid_v4 _ c Hc).
Qed.

Lemma hits_cons lo hi p r n ns :
  hits lo hi p r (n :: ns)
  = let d := ratio (at_index p n) (at_index r n) in
    if inside lo hi d then (n, d) :: hits lo hi p r ns else hits lo hi p r ns.
Proof. unfold hits. simpl. by destruct (inside lo hi _). Qed.

Lemma _processSet_loop p r o lo hi ns : forall c,
  connected c -> bounds c lo hi ->
  for_each ns (_processSet_body uuid_v4 (series p) (series r) o) c
  = (Normal tt,
     set_uuids (uuids c + length (hits lo hi p r ns)) c,
     sending (stamped uuid_v4 (uuids c) (confirmations o (hits lo hi p r ns)))).
Proof.
  induction ns as [|n ns IH]; intros c Hc Hb.
  - simpl. unfold ret. by rewrite Nat.add_0_r, set_uuids_same.
  - simpl for_each. unfold bind.
    rewrite (_processSet_body_series p r o n lo hi c Hc Hb).
    rewrite hits_cons. cbv zeta.
    destruct (inside lo hi _) eqn:E.
    + rewrite (IH (set_uuids (S (uuids c)) c) Hc Hb).
      unfold confirmations. rewrite fmap_cons, stamped_cons.
      simpl length. simpl uuids. by rewrite Nat.add_succ_r.
    + by rewrite (IH c Hc Hb).
Qed.

(** [_processSet] on two series of Numbers, of any lengths. *)
Lemma _processSet_series p r o lo hi c :
  connected c -> bounds c lo hi ->
  _processSet uuid_v4 (series p) (series r) o c
  = (Normal tt,
     set_uuids (uuids c + length (hits lo hi p r (seq 0 (length p)))) c,
     sending (stamped uuid_v4 (uuids c)
                (confirmations o (hits lo hi p r (seq 0 (length p)))))).
Proof.
  intros Hc Hb. unfold _processSet, bind. simpl.
  rewrite length_fmap.
  by rewrite (_processSet_loop p r o lo hi _ c Hc Hb).
Qed.

Lemma elem_of_hits lo hi p r ns n d :
  (n, d) ∈ hits lo hi p r ns
  <-> n ∈ ns /\ d = ratio (at_index p n) (at_index r n) /\ inside lo hi d = true.
Proof.
  unfold hits. rewrite list_elem_of_omap. split.
  - intros (k & Hk & E). cbv zeta in E.
    destruct (inside lo hi _) eqn:Hin; [|discriminate].
    injection E as <- <-. done.
  - intros (Hn & -> & Hin). exists n. split; [done|].
    cbv zeta. by rewrite Hin.
Qed.

Lemma elem_of_confirmations o hs k :
  k ∈ confirmations o hs
  <-> exists n d, (n, d) ∈ hs /\ k = Commands.confirm (eventId o) (set o) n d.
Proof.
  unfold confirmations. rewrite list_elem_of_fmap. split.
  - intros ([n d] & -> & H). by exists n, d.
  - intros (n & d & H & ->). by exists (n, d).
Qed.

Lemma confirmations_length o hs : length (confirmations o hs) = length hs.
Proof. unfold confirmations. apply length_fmap. Qed.

(** [_onDataHandler] on a message of type [Data]. *)
Lemma _onDataHandler_Data data reqId s1 s2 lo hi c :
  connected c -> bounds c lo hi -> is_Data data reqId s1 s2 ->
  let cmds := data_confirmations lo hi (lookup_event (_events c) reqId) s1 s2 in
  _onDataHandler uuid_v4 data c
  = (Normal tt, set_uuids (uuids c + length cmds) c,
     sending (stamped uuid_v4 (uuids c) cmds)).
Proof.
  intros Hc Hb (d & Hd & H1 & H2 & Hr) cmds.
  pose proof (field_not_null _ _ _ Hd) as Hn.
  unfold _onDataHandler.
  rewrite (bind_pure _ _ c c _ (member_field data "data" c Hn)), Hd.
  destruct d; try discriminate H1.
  rewrite H1, H2.
  rewrite (bind_pure _ _ c c _ (member_field data "_reqId" c Hn)), Hr.
  unfold ToPropertyKey, bind, ret, this.
  rewrite (_processSet_series s1 s2 _ lo hi c Hc Hb).
  rewrite (_processSet_series s2 s1 _ lo hi (set_uuids _ c) Hc Hb).
  unfold cmds, data_confirmations.
  rewrite stamped_app, sending_app, length_app, !confirmations_length.
  by rewrite Nat.add_assoc.
Qed.

End Evaluation.

(** ** Facts about numbers *)

Section Rounding.

Import Number.

Lemma lt_irrefl x : Number.lt x x = false.
Proof.
  unfold Number.lt, SFltb. destruct x as [s|s| |s m e]; simpl.
  - reflexivity.
  - by destruct s.
  - reflexivity.
  - destruct s; rewrite Z.compare_refl, Pos.compare_cont_refl; reflexivity.
Qed.

(** [x == y] excludes [x < y] and [y < x]. *)
Lemma compare_Eq_sym x y : SFcompare x y = Some Eq -> SFcompare y x = Some Eq.
Proof.
  destruct x as [sx|sx| |sx mx ex], y as [sy|sy| |sy my ey]; simpl;
    try done; try (by destruct sx); try (by destruct sy);
    try (by destruct sx, sy).
  intros H.
  assert (Hs : sx = sy) by (by destruct sx, sy).
  subst sy.
  destruct (Z.compare_spec ex ey) as [->|Hlt|Hgt];
    [|by destruct sx|by destruct sx].
  change (Pos.compare_cont Eq mx my) with (Pos.compare mx my) in H.
  destruct (Pos.compare_spec mx my) as [->|Hlt|Hgt];
    [|by destruct sx|by destruct sx].
  rewrite Z.compare_refl, Pos.compare_cont_refl. by destruct sx.
Qed.

Lemma lt_eqb x y :
  SFeqb x y = true -> Number.lt x y = false /\ Number.lt y x = false.
Proof.
  unfold SFeqb, Number.lt, SFltb. intros H.
  destruct (SFcompare x y) as [[]|] eqn:E; try discriminate H.
  by rewrite (compare_Eq_sym x y E).
Qed.

Lemma inside_nan lo hi : inside lo hi S754_nan = false.
Proof. unfold inside, Number.lt, SFltb. by destruct lo. Qed.

Lemma inside_infinity lo hi s : inside lo hi (S754_infinity s) = false.
Proof.
  unfold inside, Number.lt, SFltb.
  destruct s.
  - destruct lo as [| [] | |]; reflexivity.
  - destruct lo as [| [] | |]; simpl; try reflexivity; destruct hi as [| [] | |]; reflexivity.
Qed.

Lemma ratio_zero_divisor a s :
  ratio a (S754_zero s) = S754_nan \/ exists s', ratio a (S754_zero s) = S754_infinity s'.
Proof.
  destruct a as [sa|sa| |sa m e]; unfold ratio, Number.div; simpl; eauto.
Qed.

Lemma digits10_aux_spec fuel : forall z,
  0 < z <= Zpos fuel ->
  1 <= digits10_aux fuel z /\
  10 ^ (digits10_aux fuel z - 1) <= z < 10 ^ digits10_aux fuel z.
Proof.
  induction fuel as [p IH|p IH|]; intros z Hz; simpl;
    destruct (Z.ltb_spec z 10) as [Hlt|Hge]; try (simpl; lia).
  all: assert (Hq : 0 < z / 10 <= Z.pos p)
         by (split; [apply Z.div_str_pos; lia | apply Z.div_le_upper_bound; lia]).
  all: destruct (IH _ Hq) as (Hd & Hlo & Hhi).
  all: set (d := digits10_aux p (z / 10)) in *.
  all: replace (1 + d - 1) with (Z.succ (d - 1)) by lia.
  all: replace (1 + d) with (Z.succ d) by lia.
  all: rewrite !Z.pow_succ_r by lia.
  all: pose proof (Z.mul_div_le z 10 ltac:(lia)).
  all: pose proof (Z.mul_succ_div_gt z 10 ltac:(lia)).
  all: lia.
Qed.

Lemma digits10_spec z :
  0 < z -> 1 <= digits10 z /\ 10 ^ (digits10 z - 1) <= z < 10 ^ digits10 z.
Proof.
  intros Hz. unfold digits10. apply digits10_aux_spec.
  rewrite Z2Pos.id; lia.
Qed.

Lemma exponent10_spec N D :
  0 < N -> 0 < D ->
  100 * scaled_den D (exponent10 N D) <= scaled_num N (exponent10 N D)
  /\ scaled_num N (exponent10 N D) < 1000 * scaled_den D (exponent10 N D).
Proof.
  intros HN HD. unfold exponent10.
  destruct (Z.leb_spec D N) as [Hle|Hlt].
  - assert (Hq : 0 < N / D) by (apply Z.div_str_pos; lia).
    destruct (digits10_spec _ Hq) as (Hd & Hlo & Hhi).
    pose proof (Z.mul_div_le N D HD) as H1.
    pose proof (Z.mul_succ_div_gt N D HD) as H2.
    set (q := N / D) in *. set (d := digits10 q) in *.
    unfold scaled_num, scaled_den.
    destruct (Z.le_gt_cases (d - 1) 2) as [Hs|Hs].
    + rewrite (Z.max_r 0 (2 - (d - 1))), (Z.max_l 0 (d - 1 - 2)) by lia.
      assert (Hc : d = 1 \/ d = 2 \/ d = 3) by lia.
      destruct Hc as [-> | [-> | ->]]; simpl in *; nia.
    + rewrite (Z.max_l 0 (2 - (d - 1))), (Z.max_r 0 (d - 1 - 2)) by lia.
      assert (E1 : 10 ^ (d - 1) = 100 * 10 ^ (d - 1 - 2))
        by (rewrite <- (Z.pow_add_r 10 2) by lia; f_equal; lia).
      assert (E2 : 10 ^ d = 1000 * 10 ^ (d - 1 - 2))
        by (rewrite <- (Z.pow_add_r 10 3) by lia; f_equal; lia).
      assert (0 < 10 ^ (d - 1 - 2)) by (apply Z.pow_pos_nonneg; lia).
      rewrite E1 in Hlo. rewrite E2 in Hhi.
      set (R := 10 ^ (d - 1 - 2)) in *.
      change (10 ^ 0) with 1. nia.
  - assert (Hq : 0 < (D - 1) / N) by (apply Z.div_str_pos; lia).
    destruct (digits10_spec _ Hq) as (Hd & Hlo & Hhi).
    pose proof (Z.mul_div_le (D - 1) N HN) as H1.
    pose proof (Z.mul_succ_div_gt (D - 1) N HN) as H2.
    set (q := (D - 1) / N) in *. set (k := digits10 q) in *.
    unfold scaled_num, scaled_den.
    rewrite (Z.max_r 0 (2 - - k)), (Z.max_l 0 (- k - 2)) by lia.
    assert (E1 : 10 ^ (2 - - k) = 1000 * 10 ^ (k - 1))
      by (rewrite <- (Z.pow_add_r 10 3) by lia; f_equal; lia).
    assert (E2 : 10 ^ k = 10 * 10 ^ (k - 1))
      by (rewrite <- (Z.pow_add_r 10 1) by lia; f_equal; lia).
    assert (0 < 10 ^ (k - 1)) by (apply Z.pow_pos_nonneg; lia).
    rewrite E1. rewrite E2 in Hhi.
    set (T := 10 ^ (k - 1)) in *.
    change (10 ^ 0) with 1. nia.
Qed.

Lemma scaled_den_pos D e : 0 < D -> 0 < scaled_den D e.
Proof.
  intros HD. unfold scaled_den.
  assert (0 < 10 ^ Z.max 0 (e - 2)) by (apply Z.pow_pos_nonneg; lia). nia.
Qed.

(** Moving the exponent up by one divides the scaled fraction by ten. *)
Lemma scaled_succ N D e :
  (scaled_num N e = 10 * scaled_num N (e + 1) /\ scaled_den D (e + 1) = scaled_den D e)
  \/ (scaled_num N (e + 1) = scaled_num N e /\ scaled_den D (e + 1) = 10 * scaled_den D e).
Proof.
  unfold scaled_num, scaled_den.
  destruct (Z.le_gt_cases (e + 1) 2) as [Hs|Hs].
  - left. rewrite (Z.max_r 0 (2 - e)), (Z.max_r 0 (2 - (e + 1))) by lia.
    rewrite !(Z.max_l 0 (_ - 2)) by lia.
    replace (2 - e) with (Z.succ (2 - (e + 1))) by lia.
    rewrite Z.pow_succ_r by lia. split; lia.
  - right. rewrite !(Z.max_l 0 (2 - _)) by lia.
    rewrite (Z.max_r 0 (e + 1 - 2)), (Z.max_r 0 (e - 2)) by lia.
    replace (e + 1 - 2) with (Z.succ (e - 2)) by lia.
    rewrite Z.pow_succ_r by lia. split; lia.
Qed.

Lemma sig3_spec N D n e :
  0 < N -> 0 < D -> sig3 N D = (n, e) -> nearest3 N D n e.
Proof.
  intros HN HD. unfold sig3, nearest3.
  destruct (exponent10_spec N D HN HD) as [Hlo Hhi].
  set (e0 := exponent10 N D) in *.
  pose proof (scaled_den_pos D e0 HD) as Hsd.
  set (sn := scaled_num N e0) in *. set (sd := scaled_den D e0) in *.
  pose proof (Z.mul_div_le (2 * sn + sd) (2 * sd) ltac:(lia)) as H1.
  pose proof (Z.mul_succ_div_gt (2 * sn + sd) (2 * sd) ltac:(lia)) as H2.
  set (n0 := (2 * sn + sd) / (2 * sd)) in *.
  destruct (Z.eqb_spec n0 1000) as [E|E]; intros [= <- <-].
  - change (100 =? 100) with true. cbv iota.
    destruct (scaled_succ N D e0) as [[Ha Hb]|[Ha Hb]];
      fold sn in Ha; fold sd in Hb; rewrite ?Ha, ?Hb; nia.
  - fold sn sd. destruct (Z.eqb_spec n0 100); nia.
Qed.

Lemma scaled_cross N D k k' :
  k <= k' ->
  scaled_num N k * scaled_den D k'
  = 10 ^ (k' - k) * (scaled_num N k' * scaled_den D k).
Proof.
  intros Hk. unfold scaled_num, scaled_den.
  assert (E : 10 ^ Z.max 0 (2 - k) * 10 ^ Z.max 0 (k' - 2)
              = 10 ^ (k' - k) * (10 ^ Z.max 0 (2 - k') * 10 ^ Z.max 0 (k - 2))).
  { rewrite <- !Z.pow_add_r by lia. f_equal. lia. }
  transitivity (N * D * (10 ^ Z.max 0 (2 - k) * 10 ^ Z.max 0 (k' - 2))); [ring|].
  rewrite E. ring.
Qed.

Lemma nearest3_lower N D n k :
  0 < D -> nearest3 N D n k -> 1999 * scaled_den D k <= 20 * scaled_num N k.
Proof.
  intros HD (Hn & _ & Hlo). pose proof (scaled_den_pos D k HD).
  destruct (Z.eqb_spec n 100); nia.
Qed.

Lemma nearest3_exponent N D n k n' k' :
  0 < D -> nearest3 N D n k -> nearest3 N D n' k' -> k < k' -> False.
Proof.
  intros HD H H' Hk.
  pose proof (nearest3_lower N D n' k' HD H') as Hlo.
  destruct H as (Hn & Hhi & _).
  pose proof (scaled_den_pos D k HD) as Hd.
  pose proof (scaled_den_pos D k' HD) as Hd'.
  pose proof (scaled_cross N D k k' ltac:(lia)) as Hx.
  assert (HP : 10 <= 10 ^ (k' - k)).
  { replace (k' - k) with (Z.succ (k' - k - 1)) by lia.
    rewrite Z.pow_succ_r by lia.
    assert (0 < 10 ^ (k' - k - 1)) by (apply Z.pow_pos_nonneg; lia). lia. }
  set (P := 10 ^ (k' - k)) in *.
  set (sn := scaled_num N k) in *. set (sd := scaled_den D k) in *.
  set (sn' := scaled_num N k') in *. set (sd' := scaled_den D k') in *.
  assert (A1 : 2 * sn < 1999 * sd) by nia.
  assert (A2 : 2 * (sn * sd') < 1999 * (sd * sd')) by nia.
  assert (A3 : 1999 * (sd * sd') <= 20 * (sn' * sd)) by nia.
  assert (A0 : 0 <= sn' * sd) by nia.
  assert (A4 : 20 * (sn' * sd) <= 2 * (P * (sn' * sd))) by nia.
  lia.
Qed.

(** The number of three significant digits nearest to a positive rational
    is unique. *)
Lemma nearest3_unique N D n k n' k' :
  0 < D -> nearest3 N D n k -> nearest3 N D n' k' -> n = n' /\ k = k'.
Proof.
  intros HD H H'.
  destruct (Z.lt_trichotomy k k') as [Hk|[<-|Hk]].
  - destruct (nearest3_exponent N D n k n' k' HD H H' Hk).
  - split; [|done].
    destruct H as (Hn & Hhi & Hlo), H' as (Hn' & Hhi' & Hlo').
    pose proof (scaled_den_pos D k HD) as Hd.
    destruct (Z.eqb_spec n 100), (Z.eqb_spec n' 100); nia.
  - destruct (nearest3_exponent N D n' k' n k HD H' H Hk).
Qed.

Lemma magnitude_pos m e : 0 < magnitude_num m e /\ 0 < magnitude_den e.
Proof.
  unfold magnitude_num, magnitude_den.
  destruct (Z.leb_spec 0 e).
  - assert (0 < 2 ^ e) by (apply Z.pow_pos_nonneg; lia). lia.
  - assert (0 < 2 ^ (- e)) by (apply Z.pow_pos_nonneg; lia). lia.
Qed.

Lemma toPrecision3_finite s m e :
  toPrecision3 (S754_finite s m e)
  = let '(n, k) := sig3 (magnitude_num m e) (magnitude_den e) in TextDigits s n k.
Proof.
  unfold toPrecision3, magnitude_num, magnitude_den.
  by destruct (0 <=? e).
Qed.

(** [ratio] rounds the Number quotient to three significant digits. *)
Lemma ratio_three_significant a b : three_significant (div a b) (ratio a b).
Proof.
  unfold ratio. destruct (div a b) as [s|s| |s m e] eqn:E; try reflexivity.
  unfold three_significant. simpl parseFloat_number.
  rewrite toPrecision3_finite.
  destruct (sig3 _ _) as [n k] eqn:Es.
  destruct (magnitude_pos m e) as [HN HD].
  exists n, k. split; [by apply sig3_spec|reflexivity].
Qed.

Lemma ratio_nan_divisor a : ratio a S754_nan = S754_nan.
Proof. unfold ratio, div. by destruct a. Qed.

End Rounding.

(** ** What a run of [_processSet] sends *)

Section Confirmations.

Variable uuid_v4 : nat -> string.

Lemma confirmations_hits o lo hi p r ns :
  confirmations o (hits lo hi p r ns)
  = omap (fun i => let d := ratio (at_index p i) (at_index r i) in
                   if Number.lt lo d && Number.lt d hi
                   then Some (Commands.confirm (eventId o) (set o) i d)
                   else None) ns.
Proof.
  match goal with |- _ = omap ?g ns => set (f := g) end.
  induction ns as [|n ns IH]; [reflexivity|].
  change (omap f (n :: ns)) with
    (match f n with Some y => y :: omap f ns | None => omap f ns end).
  rewrite <- IH, hits_cons. unfold f, inside. cbv zeta.
  by destruct (Number.lt lo _ && Number.lt _ hi).
Qed.

Lemma confirmed_at_sending u cmds i :
  confirmed_at (sending (stamped uuid_v4 u cmds)) i
  <-> exists eid st d, Confirm eid st i d ∈ cmds.
Proof.
  unfold confirmed_at. rewrite sent_sending. split.
  - intros (f & eid & st & d & Hf & Hp). exists eid, st, d.
    rewrite <- Hp, <- (stamped_payload uuid_v4 u cmds).
    apply list_elem_of_fmap. by exists f.
  - intros (eid & st & d & Hk).
    rewrite <- (stamped_payload uuid_v4 u cmds) in Hk.
    apply list_elem_of_fmap in Hk as (f & Hp & Hf).
    by exists f, eid, st, d.
Qed.

Lemma _processSet_payloads p r o lo hi c :
  connected c -> bounds c lo hi ->
  payload <$> sent (trace (_processSet uuid_v4 (series p) (series r) o c))
  = confirmations o (hits lo hi p r (seq 0 (length p))).
Proof.
  intros Hc Hb. rewrite (_processSet_series uuid_v4 p r o lo hi c Hc Hb).
  unfold trace. simpl. by rewrite sent_sending, stamped_payload.
Qed.

Lemma _processSet_confirmed_at p r o lo hi c i :
  connected c -> bounds c lo hi ->
  confirmed_at (trace (_processSet uuid_v4 (series p) (series r) o c)) i
  <-> (i < length p)%nat
      /\ inside lo hi (ratio (at_index p i) (at_index r i)) = true.
Proof.
  intros Hc Hb. rewrite (_processSet_series uuid_v4 p r o lo hi c Hc Hb).
  unfold trace. simpl. rewrite confirmed_at_sending. split.
  - intros (eid & st & d & Hk).
    apply elem_of_confirmations in Hk as (n & d' & Hh & E).
    injection E as -> -> -> ->.
    apply elem_of_hits in Hh as (Hn & -> & Hin).
    apply elem_of_seq in Hn. split; [lia|done].
  - intros [Hi Hin]. exists (eventId o), (set o), (ratio (at_index p i) (at_index r i)).
    apply elem_of_confirmations. eexists _, _. split; [|reflexivity].
    apply elem_of_hits. split; [apply elem_of_seq; lia|done].
Qed.

Lemma at_index_Some (l : list spec_float) i a : l !! i = Some a -> at_index l i = a.
Proof. unfold at_index. by intros ->. Qed.

Lemma at_index_beyond (l : list spec_float) i :
  (length l <= i)%nat -> at_index l i = Number.NaN.
Proof. intros H. unfold at_index. by rewrite lookup_ge_None_2. Qed.

End Confirmations.

(** ** The match evaluator *)

(** C5, as the spec states it, fails: at the bounds (123, 124), with the
    series [12345] over [100] (same length, reference not zero), the quotient
    rounded to three decimal places is 123.45, strictly inside the bounds,
    and yet nothing is confirmed: the code rounds to three significant
    digits, which gives 123, the lower bound itself. *)
Lemma C5_counterexample :
  let c := set_maxDiv (Some (JNumber (Number.of_Z 124)))
             (set_minDiv (Some (JNumber (Number.of_Z 123))) Sample.client) in
  let q := Number.div (Number.of_Z 12345) (Number.of_Z 100) in
  connected c
  /\ bounds c (Number.of_Z 123) (Number.of_Z 124)
  /\ Number.of_Z 100 <> S754_zero false /\ Number.of_Z 100 <> S754_zero true
  /\ round_half_away_3dp q = Number.of_decimal false 12345 (-2)
  /\ Number.lt (Number.of_Z 123) (round_half_away_3dp q) = true
  /\ Number.lt (round_half_away_3dp q) (Number.of_Z 124) = true
  /\ _processSet Sample.uuid_v4
       (series [Number.of_Z 12345]) (series [Number.of_Z 100])
       {| set := "set1"; eventId := Stored "ev1" |} c
     = (Normal tt, c, [])
  /\ ratio (Number.of_Z 12345) (Number.of_Z 100) = Number.of_Z 123.
Proof.
  split; [by eexists|]. split; [by split|].
  split; [vm_compute; discriminate|]. split; [vm_compute; discriminate|].
  split; [vm_compute; reflexivity|].
  split; [vm_compute; reflexivity|].
  split; [vm_compute; reflexivity|].
  split; vm_compute; reflexivity.
Qed.

(** C5, amended. On two series of the same length, [_processSet] ends
    normally and sends, for the indices in increasing order and without
    stopping at a hit, one confirm command per index whose ratio is strictly
    inside the bounds: a confirmation is sent at index [i] if and only if
    [min < ratio < max], where [ratio] is the quotient
    [primary[i] / reference[i]] rounded to three significant digits
    ([parseFloat(parseFloat(...).toPrecision(3))]), not to three decimal
    places; it carries that ratio, nothing but these commands (each logged
    and sent at once) is produced, and a ratio equal ([==]) to either bound
    is not confirmed. *)
Theorem C5_confirmed_iff_strictly_inside
    (uuid_v4 : nat -> string) (c : Client) (p r : list spec_float)
    (o : SetOptions) (lo hi : spec_float) :
  connected c -> bounds c lo hi -> length p = length r ->
  let run := _processSet uuid_v4 (series p) (series r) o c in
  outcome run = Normal tt
  /\ payload <$> sent (trace run)
     = omap (fun i => let d := ratio (at_index p i) (at_index r i) in
                      if Number.lt lo d && Number.lt d hi
                      then Some (Commands.confirm (eventId o) (set o) i d)
                      else None)
            (seq 0 (length p))
  /\ trace run = sending (sent (trace run))
  /\ forall i a b, p !! i = Some a -> r !! i = Some b ->
       three_significant (Number.div a b) (ratio a b)
       /\ (confirmed_at (trace run) i
           <-> Number.lt lo (ratio a b) = true /\ Number.lt (ratio a b) hi = true)
       /\ (confirmed_at (trace run) i ->
           Commands.confirm (eventId o) (set o) i (ratio a b)
             ∈ payload <$> sent (trace run))
       /\ (SFeqb (ratio a b) lo = true \/ SFeqb (ratio a b) hi = true ->
           ~ confirmed_at (trace run) i).
Proof.
  intros Hc Hb Hlen run.
  assert (Hiff : forall i a b, p !! i = Some a -> r !! i = Some b ->
            (confirmed_at (trace run) i
             <-> Number.lt lo (ratio a b) = true /\ Number.lt (ratio a b) hi = true)).
  { intros i a b Ha Hr. unfold run.
    rewrite (_processSet_confirmed_at uuid_v4 p r o lo hi c i Hc Hb).
    rewrite (at_index_Some p i a Ha), (at_index_Some r i b Hr).
    unfold inside. rewrite andb_true_iff.
    apply lookup_lt_Some in Ha. tauto. }
  split; [|split; [|split]].
  - unfold run. by rewrite (_processSet_series uuid_v4 p r o lo hi c Hc Hb).
  - unfold run. rewrite (_processSet_payloads uuid_v4 p r o lo hi c Hc Hb).
    apply confirmations_hits.
  - unfold run. rewrite (_processSet_series uuid_v4 p r o lo hi c Hc Hb).
    unfold trace. simpl. by rewrite sent_sending.
  - intros i a b Ha Hr.
    split; [apply ratio_three_significant|]. split; [by apply Hiff|split].
    + intros Hin. apply (Hiff i a b Ha Hr) in Hin as [H1 H2].
      unfold run. rewrite (_processSet_payloads uuid_v4 p r o lo hi c Hc Hb).
      apply elem_of_confirmations. exists i, (ratio a b). split; [|done].
      apply elem_of_hits.
      rewrite (at_index_Some p i a Ha), (at_index_Some r i b Hr).
      split; [|split; [done|]].
      * apply elem_of_seq. apply lookup_lt_Some in Ha. lia.
      * unfold inside. by rewrite H1, H2.
    + intros Heq Hin. apply (Hiff i a b Ha Hr) in Hin as [H1 H2].
      destruct Heq as [E|E]; apply lt_eqb in E as [E1 E2]; congruence.
Qed.

(** C5 at the bounds (1, 2) with the series [3, 10, 3, 4] over [2, 5, 2, 1]:
    indices 0 and 2 are confirmed, index 1 (ratio 2, the upper bound) and
    index 3 are not. *)
Lemma C5_witness :
  connected Sample.client
  /\ bounds Sample.client (Number.of_Z 1) (Number.of_Z 2)
  /\ payload <$> sent (trace (_processSet Sample.uuid_v4
                                (series (Sample.numbers [3; 10; 3; 4]))
                                (series (Sample.numbers [2; 5; 2; 1]))
                                {| set := "set1"; eventId := Stored "ev1" |}
                                Sample.client))
     = [Confirm (Stored "ev1") "set1" 0 (Number.of_decimal false 15 (-1));
        Confirm (Stored "ev1") "set1" 2 (Number.of_decimal false 15 (-1))].
Proof.
  assert (Hc : connected Sample.client) by (by eexists).
  assert (Hb : bounds Sample.client (Number.of_Z 1) (Number.of_Z 2)) by (by split).
  split; [exact Hc|]. split; [exact Hb|].
  destruct (C5_confirmed_iff_strictly_inside Sample.uuid_v4 Sample.client
              (Sample.numbers [3; 10; 3; 4]) (Sample.numbers [2; 5; 2; 1])
              {| set := "set1"; eventId := Stored "ev1" |}
              (Number.of_Z 1) (Number.of_Z 2) Hc Hb eq_refl) as (_ & H & _).
  rewrite H. vm_compute. reflexivity.
Defined.

(** C6. Where the reference is zero ([0] or [-0]), the evaluation ends
    normally and confirms nothing at that index, whatever the primary series
    and whatever the bounds: the ratio is an infinity or NaN, which is not
    strictly inside any interval. *)
Theorem C6_zero_reference_never_confirmed
    (uuid_v4 : nat -> string) (c : Client) (p r : list spec_float)
    (o : SetOptions) (lo hi : spec_float) (i : nat) (s : bool) :
  connected c -> bounds c lo hi -> r !! i = Some (S754_zero s) ->
  let run := _processSet uuid_v4 (series p) (series r) o c in
  outcome run = Normal tt
  /\ ~ confirmed_at (trace run) i
  /\ (ratio (at_index p i) (S754_zero s) = S754_nan
      \/ exists s', ratio (at_index p i) (S754_zero s) = S754_infinity s').
Proof.
  intros Hc Hb Hr run. split; [|split].
  - unfold run. by rewrite (_processSet_series uuid_v4 p r o lo hi c Hc Hb).
  - unfold run. rewrite (_processSet_confirmed_at uuid_v4 p r o lo hi c i Hc Hb).
    rewrite (at_index_Some r i _ Hr). intros [_ Hin].
    destruct (ratio_zero_divisor (at_index p i) s) as [E|[s' E]]; rewrite E in Hin.
    + by rewrite inside_nan in Hin.
    + by rewrite inside_infinity in Hin.
  - apply ratio_zero_divisor.
Qed.

(** C6 with the series [1, 3] over [0, 2] at the bounds (1, 2): nothing is
    confirmed at index 0. *)
Lemma C6_witness :
  connected Sample.client
  /\ bounds Sample.client (Number.of_Z 1) (Number.of_Z 2)
  /\ Sample.numbers [0; 2] !! 0%nat = Some (S754_zero false)
  /\ ~ confirmed_at
         (trace (_processSet Sample.uuid_v4
                   (series (Sample.numbers [1; 3])) (series (Sample.numbers [0; 2]))
                   {| set := "set1"; eventId := Stored "ev1" |} Sample.client)) 0.
Proof.
  assert (Hc : connected Sample.client) by (by eexists).
  assert (Hb : bounds Sample.client (Number.of_Z 1) (Number.of_Z 2)) by (by split).
  split; [exact Hc|]. split; [exact Hb|]. split; [reflexivity|].
  exact (proj1 (proj2 (C6_zero_reference_never_confirmed Sample.uuid_v4 Sample.client
                         (Sample.numbers [1; 3]) (Sample.numbers [0; 2])
                         {| set := "set1"; eventId := Stored "ev1" |}
                         (Number.of_Z 1) (Number.of_Z 2) 0 false Hc Hb eq_refl))).
Defined.

(** C2, as the spec states it, fails on its own scenario: at the bounds
    (1, 2), with [set1 = [10, 20]] over [set2 = [5, 18]], the one command
    sent carries the ratio 1.11 (the Number of the text ["1.11"]), which is
    not 1.111; the quotient 20/18 rounded half away from zero to three
    decimal places would be 1.111. *)
Lemma C2_counterexample :
  sent (trace (_processSet Sample.uuid_v4
                 (series (Sample.numbers [10; 20])) (series (Sample.numbers [5; 18]))
                 {| set := "set1"; eventId := Stored "ev1" |} Sample.client))
  = [{| payload := Confirm (Stored "ev1") "set1" 1 (Number.of_decimal false 111 (-2));
        _reqId := "req-1" |}]
  /\ Number.of_decimal false 111 (-2) <> Number.of_decimal false 1111 (-3)
  /\ round_half_away_3dp (Number.div (Number.of_Z 20) (Number.of_Z 18))
     = Number.of_decimal false 1111 (-3)
  /\ ratio (Number.of_Z 20) (Number.of_Z 18)
     <> round_half_away_3dp (Number.div (Number.of_Z 20) (Number.of_Z 18)).
Proof.
  split; [vm_compute; reflexivity|].
  split; [vm_compute; discriminate|].
  split; [vm_compute; reflexivity|].
  vm_compute; discriminate.
Qed.

(** C2, amended. Every confirm command sent by [_processSet] carries, at
    its index [i], the Number quotient [primary[i] / reference[i]] rounded
    half away from zero to three significant digits ([toPrecision(3)]), not
    to three decimal places; at the bounds (1, 2), with [set1 = [10, 20]]
    over [set2 = [5, 18]], index 0 (ratio 2, the upper bound) is not
    confirmed and exactly the confirmation (eventId, "set1", 1, 1.11) is
    sent. *)
Theorem C2_ratio_has_three_significant_digits
    (uuid_v4 : nat -> string) (c : Client) (p r : list spec_float)
    (o : SetOptions) (lo hi : spec_float) :
  connected c -> bounds c lo hi ->
  (forall f, f ∈ sent (trace (_processSet uuid_v4 (series p) (series r) o c)) ->
     exists i a,
       p !! i = Some a
       /\ payload f
          = Commands.confirm (eventId o) (set o) i (ratio a (at_index r i))
       /\ three_significant (Number.div a (at_index r i)) (ratio a (at_index r i)))
  /\ (lo = Number.of_Z 1 -> hi = Number.of_Z 2 ->
      p = Number.of_Z <$> [10; 20] -> r = Number.of_Z <$> [5; 18] ->
      ratio (Number.of_Z 10) (Number.of_Z 5) = hi
      /\ ~ confirmed_at (trace (_processSet uuid_v4 (series p) (series r) o c)) 0
      /\ payload <$> sent (trace (_processSet uuid_v4 (series p) (series r) o c))
         = [Commands.confirm (eventId o) (set o) 1 (Number.of_decimal false 111 (-2))]).
Proof.
  intros Hc Hb. split.
  - intros f Hf.
    assert (Hp : payload f ∈ payload <$> sent (trace (_processSet uuid_v4 (series p) (series r) o c)))
      by (apply list_elem_of_fmap; by exists f).
    rewrite (_processSet_payloads uuid_v4 p r o lo hi c Hc Hb) in Hp.
    apply elem_of_confirmations in Hp as (n & d & Hh & E).
    apply elem_of_hits in Hh as (Hn & -> & Hin).
    apply elem_of_seq in Hn.
    destruct (lookup_lt_is_Some_2 p n ltac:(lia)) as [a Ha].
    exists n, a. rewrite (at_index_Some p n a Ha) in E.
    split; [done|]. split; [done|]. apply ratio_three_significant.
  - intros -> -> -> ->. split; [vm_compute; reflexivity|]. split.
    + rewrite (_processSet_confirmed_at uuid_v4 _ _ o _ _ c 0 Hc Hb).
      intros [_ Hin]. vm_compute in Hin. discriminate.
    + rewrite (_processSet_payloads uuid_v4 _ _ o _ _ c Hc Hb).
      rewrite confirmations_hits. vm_compute. reflexivity.
Qed.

(** C2 at the scenario of the spec. *)
Lemma C2_witness :
  connected Sample.client
  /\ bounds Sample.client (Number.of_Z 1) (Number.of_Z 2)
  /\ payload <$> sent (trace (_processSet Sample.uuid_v4
                                (series (Number.of_Z <$> [10; 20]))
                                (series (Number.of_Z <$> [5; 18]))
                                {| set := "set1"; eventId := Stored "ev1" |}
                                Sample.client))
     = [Confirm (Stored "ev1") "set1" 1 (Number.of_decimal false 111 (-2))].
Proof.
  assert (Hc : connected Sample.client) by (by eexists).
  assert (Hb : bounds Sample.client (Number.of_Z 1) (Number.of_Z 2)) by (by split).
  split; [exact Hc|]. split; [exact Hb|].
  exact (proj2 (proj2 (proj2 (C2_ratio_has_three_significant_digits
                         Sample.uuid_v4 Sample.client _ _
                         {| set := "set1"; eventId := Stored "ev1" |} _ _ Hc Hb)
                       eq_refl eq_refl eq_refl eq_refl))).
Defined.

(** ** Classification of inbound messages *)

Section Classification.

Variable JSON_parse : string -> option json.
Variable uuid_v4 : nat -> string.

Lemma _onMessage_unparsed msg c :
  JSON_parse msg = None ->
  _onMessage JSON_parse uuid_v4 msg c = (Throw SyntaxError, c, [Log (Incoming msg)]).
Proof. intros H. unfold _onMessage. rewrite bind_emit, H. reflexivity. Qed.

Lemma _onMessage_events msg data c :
  JSON_parse msg = Some data ->
  typeof_object (field data "events") = true ->
  _onMessage JSON_parse uuid_v4 msg c = logged msg (_onEventsHandler uuid_v4 data c).
Proof.
  intros Hp He. unfold _onMessage. rewrite bind_emit, Hp.
  rewrite (bind_pure _ _ c c _ (member_field data "events" c (typeof_object_not_null _ _ He))).
  by rewrite He.
Qed.

Lemma _onMessage_data msg data c :
  JSON_parse msg = Some data ->
  typeof_object (field data "events") = false ->
  typeof_object (field data "data") = true ->
  _onMessage JSON_parse uuid_v4 msg c = logged msg (_onDataHandler uuid_v4 data c).
Proof.
  intros Hp He Hd. unfold _onMessage. rewrite bind_emit, Hp.
  pose proof (typeof_object_not_null _ _ Hd) as Hn.
  rewrite (bind_pure _ _ c c _ (member_field data "events" c Hn)), He.
  rewrite (bind_pure _ _ c c _ (member_field data "data" c Hn)), Hd.
  reflexivity.
Qed.


Lemma is_Data_classified data reqId s1 s2 :
  is_Data data reqId s1 s2 -> typeof_object (field data "data") = true.
Proof.
  intros (d & Hd & H1 & _). rewrite Hd. by destruct d.
Qed.

Lemma stop_connected code c :
  connected c ->
  stop code c
  = (Exit code, c, [ClearInterval (_pullInterval c); WsClose; ProcessExit code]).
Proof.
  intros [w Hw]. unfold stop, bind, this, emit, exit. simpl. by rewrite Hw.
Qed.

Lemma run_not_running p evs :
  (forall c, p <> Running c) ->
  run JSON_parse uuid_v4 p evs = (p, []).
Proof.
  intros Hp. induction evs as [|ev evs IH]; [reflexivity|].
  simpl. destruct p as [c| | |]; [by destruct (Hp c)|..]; simpl; by rewrite IH.
Qed.

End Classification.

(** ** Data responses *)

Section DataResponses.

Variable JSON_parse : string -> option json.
Variable uuid_v4 : nat -> string.

(** A data response, classified and handled: the commands it sends. *)
Lemma _onMessage_Data msg data reqId s1 s2 lo hi c :
  connected c -> bounds c lo hi ->
  JSON_parse msg = Some data ->
  typeof_object (field data "events") = false ->
  is_Data data reqId s1 s2 ->
  let cmds := data_confirmations lo hi (lookup_event (_events c) reqId) s1 s2 in
  _onMessage JSON_parse uuid_v4 msg c
  = (Normal tt, set_uuids (uuids c + length cmds) c,
     Log (Incoming msg) :: sending (stamped uuid_v4 (uuids c) cmds)).
Proof.
  intros Hc Hb Hp He Hd cmds.
  rewrite (_onMessage_data JSON_parse uuid_v4 msg data c Hp He
             (is_Data_classified _ _ _ _ Hd)).
  by rewrite (_onDataHandler_Data uuid_v4 data reqId s1 s2 lo hi c Hc Hb Hd).
Qed.

Lemma _onMessage_Data_payloads msg data reqId s1 s2 lo hi c :
  connected c -> bounds c lo hi ->
  JSON_parse msg = Some data ->
  typeof_object (field data "events") = false ->
  is_Data data reqId s1 s2 ->
  payload <$> sent (trace (_onMessage JSON_parse uuid_v4 msg c))
  = data_confirmations lo hi (lookup_event (_events c) reqId) s1 s2.
Proof.
  intros Hc Hb Hp He Hd.
  rewrite (_onMessage_Data msg data reqId s1 s2 lo hi c Hc Hb Hp He Hd).
  unfold trace. simpl snd.
  change (sent (Log (Incoming msg) :: ?t)) with (sent t).
  by rewrite sent_sending, stamped_payload.
Qed.

(** Membership in the commands of a data response. *)
Lemma elem_of_data_confirmations lo hi eid s1 s2 k :
  k ∈ data_confirmations lo hi eid s1 s2
  <-> exists i,
        ((i < length s1)%nat
         /\ inside lo hi (ratio (at_index s1 i) (at_index s2 i)) = true
         /\ k = Confirm eid "set1" i (ratio (at_index s1 i) (at_index s2 i)))
        \/ ((i < length s2)%nat
            /\ inside lo hi (ratio (at_index s2 i) (at_index s1 i)) = true
            /\ k = Confirm eid "set2" i (ratio (at_index s2 i) (at_index s1 i))).
Proof.
  unfold data_confirmations. rewrite elem_of_app, !elem_of_confirmations. split.
  - intros [(n & d & Hh & ->)|(n & d & Hh & ->)];
      apply elem_of_hits in Hh as (Hn & -> & Hin); apply elem_of_seq in Hn;
      exists n; [left|right]; (split; [lia|done]).
  - intros (i & [(Hi & Hin & ->)|(Hi & Hin & ->)]); [left|right];
      eexists i, _; (split; [|reflexivity]); apply elem_of_hits;
      (split; [apply elem_of_seq; lia|done]).
Qed.

(** Past the end of the reference the ratio is NaN, which is inside no
    bounds. *)
Lemma inside_beyond lo hi (p r : list spec_float) i :
  (length r <= i)%nat -> inside lo hi (ratio (at_index p i) (at_index r i)) = false.
Proof.
  intros H. rewrite (at_index_beyond r i H). unfold Number.NaN.
  by rewrite ratio_nan_divisor, inside_nan.
Qed.

End DataResponses.

(** C1, as the spec states it, fails: the request identifier ["stale"] is
    not tracked, yet the data response with [set1 = [10, 20]] and
    [set2 = [5, 18]] is evaluated at the bounds (1, 2) and a confirm command
    is sent for index 1 of ["set1"]; it carries no event identifier. *)
Lemma C1_counterexample :
  _events Sample.client !! "stale" = None
  /\ Sample.JSON_parse Sample.text_stale
     = Some (Sample.data_message "stale" [10; 20] [5; 18])
  /\ exists c',
       deliver Sample.JSON_parse Sample.uuid_v4 (Running Sample.client)
               (Message Sample.text_stale)
       = (Running c',
          [Log (Incoming Sample.text_stale);
           Log (Outgoing {| payload := Confirm Absent "set1" 1
                                         (Number.of_decimal false 111 (-2));
                            _reqId := "req-1" |});
           WsSend {| payload := Confirm Absent "set1" 1
                                  (Number.of_decimal false 111 (-2));
                     _reqId := "req-1" |}]).
Proof.
  split; [reflexivity|]. split; [reflexivity|].
  eexists. vm_compute. reflexivity.
Qed.

(** C1, amended. A data response whose request identifier is not tracked
    is not ignored: the handler ends normally after evaluating both series
    exactly as for a tracked identifier, and every index whose ratio is
    strictly inside the bounds is confirmed by a command whose event
    identifier is what [this._events[reqId]] gives.  That is [undefined],
    which the serialized command leaves out, unless the request identifier
    names a member of [Object.prototype], which the table inherits: then it
    is that member, a function, left out as well, or, for [__proto__], the
    prototype itself, serialized as [{}]. *)
Theorem C1_untracked_response_is_evaluated
    (JSON_parse : string -> option json) (uuid_v4 : nat -> string)
    (c : Client) (msg : string) (data : json) (reqId : string)
    (s1 s2 : list spec_float) (lo hi : spec_float) :
  connected c -> bounds c lo hi ->
  JSON_parse msg = Some data ->
  typeof_object (field data "events") = false ->
  is_Data data reqId s1 s2 ->
  _events c !! reqId = None ->
  let run := _onMessage JSON_parse uuid_v4 msg c in
  let eid := if bool_decide (reqId ∈ Object_prototype)
             then Inherited reqId else Absent in
  outcome run = Normal tt
  /\ payload <$> sent (trace run) = data_confirmations lo hi eid s1 s2
  /\ (forall i a b, s1 !! i = Some a -> s2 !! i = Some b ->
        (Confirm eid "set1" i (ratio a b) ∈ payload <$> sent (trace run)
         <-> inside lo hi (ratio a b) = true)
        /\ (Confirm eid "set2" i (ratio b a) ∈ payload <$> sent (trace run)
            <-> inside lo hi (ratio b a) = true))
  /\ (forall e, eid <> Stored e)
  /\ eventId_json eid
     = (if String.eqb reqId "__proto__" then Some (JObject []) else None).
Proof.
  intros Hc Hb Hp He Hd Hnone run eid.
  assert (Heid : lookup_event (_events c) reqId = eid).
  { unfold lookup_event, eid. rewrite Hnone.
    destruct (String.eqb_spec reqId "__proto__") as [->|_]; reflexivity. }
  assert (Hpay : payload <$> sent (trace run) = data_confirmations lo hi eid s1 s2).
  { unfold run.
    rewrite (_onMessage_Data_payloads JSON_parse uuid_v4 msg data reqId s1 s2
               lo hi c Hc Hb Hp He Hd).
    by rewrite Heid. }
  split; [|split; [exact Hpay|split; [|split]]].
  - unfold run.
    by rewrite (_onMessage_Data JSON_parse uuid_v4 msg data reqId s1 s2
                  lo hi c Hc Hb Hp He Hd).
  - intros i a b Ha Hb'. rewrite Hpay, !elem_of_data_confirmations.
    pose proof (lookup_lt_Some _ _ _ Ha) as Hi1.
    pose proof (lookup_lt_Some _ _ _ Hb') as Hi2.
    split; split.
    + intros (j & [(_ & Hin & E)|(_ & _ & E)]); [|discriminate E].
      injection E as <- E. by rewrite <- E in Hin.
    + intros Hin. exists i. left.
      rewrite (at_index_Some s1 i a Ha), (at_index_Some s2 i b Hb'). done.
    + intros (j & [(_ & _ & E)|(_ & Hin & E)]); [discriminate E|].
      injection E as <- E. by rewrite <- E in Hin.
    + intros Hin. exists i. right.
      rewrite (at_index_Some s1 i a Ha), (at_index_Some s2 i b Hb'). done.
  - intros e. unfold eid. by destruct (bool_decide _).
  - unfold eid. destruct (String.eqb_spec reqId "__proto__") as [->|Hne].
    + reflexivity.
    + destruct (bool_decide _); [|reflexivity].
      simpl. by destruct (String.eqb_spec reqId "__proto__").
Qed.

(** C1 at the stale response of the example, and at a response whose
    request identifier is [__proto__]. *)
Lemma C1_witness :
  connected Sample.client
  /\ bounds Sample.client (Number.of_Z 1) (Number.of_Z 2)
  /\ _events Sample.client !! "stale" = None
  /\ payload <$> sent (trace (_onMessage Sample.JSON_parse Sample.uuid_v4
                                Sample.text_stale Sample.client))
     = data_confirmations (Number.of_Z 1) (Number.of_Z 2) Absent
         (Sample.numbers [10; 20]) (Sample.numbers [5; 18])
  /\ payload <$> sent (trace (_onMessage Stray.JSON_parse Sample.uuid_v4
                                Stray.text_proto Sample.client))
     = data_confirmations (Number.of_Z 1) (Number.of_Z 2) (Inherited "__proto__")
         (Sample.numbers [10; 20]) (Sample.numbers [5; 18])
  /\ eventId_json (Inherited "__proto__") = Some (JObject []).
Proof.
  assert (Hc : connected Sample.client) by (by eexists).
  assert (Hb : bounds Sample.client (Number.of_Z 1) (Number.of_Z 2)) by (by split).
  assert (Hd : is_Data (Sample.data_message "stale" [10; 20] [5; 18]) "stale"
                 (Sample.numbers [10; 20]) (Sample.numbers [5; 18]))
    by (eexists; repeat split; reflexivity).
  assert (Hd' : is_Data (Sample.data_message "__proto__" [10; 20] [5; 18]) "__proto__"
                  (Sample.numbers [10; 20]) (Sample.numbers [5; 18]))
    by (eexists; repeat split; reflexivity).
  split; [exact Hc|]. split; [exact Hb|]. split; [reflexivity|].
  split; [|split].
  - exact (proj1 (proj2 (C1_untracked_response_is_evaluated
                           Sample.JSON_parse Sample.uuid_v4 Sample.client
                           Sample.text_stale _ "stale" _ _ _ _
                           Hc Hb eq_refl eq_refl Hd eq_refl))).
  - exact (proj1 (proj2 (C1_untracked_response_is_evaluated
                           Stray.JSON_parse Sample.uuid_v4 Sample.client
                           Stray.text_proto _ "__proto__" _ _ _ _
                           Hc Hb eq_refl eq_refl Hd' eq_refl))).
  - exact (proj2 (proj2 (proj2 (proj2 (C1_untracked_response_is_evaluated
                           Stray.JSON_parse Sample.uuid_v4 Sample.client
                           Stray.text_proto _ "__proto__" _ _ _ _
                           Hc Hb eq_refl eq_refl Hd' eq_refl))))).
Defined.

(** C3, as the spec states it, fails: on the text ["{oops"], which
    [JSON.parse] rejects, the SyntaxError leaves [_onMessage]; nothing in the
    client catches it, and only the received text was logged. *)
Lemma C3_counterexample :
  Sample.JSON_parse Sample.text_broken = None
  /\ outcome (_onMessage Sample.JSON_parse Sample.uuid_v4 Sample.text_broken
                Sample.client) = Throw SyntaxError
  /\ deliver Sample.JSON_parse Sample.uuid_v4 (Running Sample.client)
             (Message Sample.text_broken)
     = (Uncaught SyntaxError, [Log (Incoming Sample.text_broken)]).
Proof. repeat split; vm_compute; reflexivity. Qed.

(** C3, amended. On a text that [JSON.parse] rejects, [_onMessage] logs the
    received text and the SyntaxError leaves the handler uncaught: no parse
    failure is logged and nothing runs afterwards; up to that point the
    client object is unchanged and no command is sent. *)
Theorem C3_unparseable_text_throws
    (JSON_parse : string -> option json) (uuid_v4 : nat -> string)
    (c : Client) (msg : string) :
  JSON_parse msg = None ->
  _onMessage JSON_parse uuid_v4 msg c = (Throw SyntaxError, c, [Log (Incoming msg)])
  /\ sent (trace (_onMessage JSON_parse uuid_v4 msg c)) = []
  /\ forall evs,
       run JSON_parse uuid_v4 (Running c) (Message msg :: evs)
       = (Uncaught SyntaxError, [Log (Incoming msg)]).
Proof.
  intros H.
  pose proof (_onMessage_unparsed JSON_parse uuid_v4 msg c H) as E.
  split; [exact E|]. split; [by rewrite E|].
  intros evs. simpl. rewrite E.
  by rewrite (run_not_running JSON_parse uuid_v4 (Uncaught SyntaxError) evs).
Qed.

(** C3 at the text ["{oops"]. *)
Lemma C3_witness :
  Sample.JSON_parse Sample.text_broken = None
  /\ _onMessage Sample.JSON_parse Sample.uuid_v4 Sample.text_broken Sample.client
     = (Throw SyntaxError, Sample.client, [Log (Incoming Sample.text_broken)]).
Proof.
  split; [reflexivity|].
  exact (proj1 (C3_unparseable_text_throws Sample.JSON_parse Sample.uuid_v4
                  Sample.client Sample.text_broken eq_refl)).
Defined.

(** C4, as the spec states it, fails: the tracked data response with
    [set1 = [10, 20, 30]] and [set2 = [5, 18]], of lengths 3 and 2, is not
    discarded; a confirm command is sent for index 1 of ["set1"]. *)
Lemma C4_counterexample :
  Sample.JSON_parse Sample.text_uneven
  = Some (Sample.data_message "req-0" [10; 20; 30] [5; 18])
  /\ length (Sample.numbers [10; 20; 30]) <> length (Sample.numbers [5; 18])
  /\ sent (trace (_onMessage Sample.JSON_parse Sample.uuid_v4 Sample.text_uneven
                    Sample.client))
     = [{| payload := Confirm (Stored "ev1") "set1" 1 (Number.of_decimal false 111 (-2));
           _reqId := "req-1" |}].
Proof.
  split; [reflexivity|]. split; [discriminate|]. vm_compute. reflexivity.
Qed.

(** C4, amended. A data response whose two series have unequal lengths is
    no fatal fault and is not discarded either: each series is evaluated as
    primary over its own indices; an index that one of the series lacks is
    never confirmed, and an index present in both is confirmed exactly when
    its ratio is strictly inside the bounds. *)
Theorem C4_unequal_lengths_are_evaluated
    (JSON_parse : string -> option json) (uuid_v4 : nat -> string)
    (c : Client) (msg : string) (data : json) (reqId : string)
    (s1 s2 : list spec_float) (lo hi : spec_float) :
  connected c -> bounds c lo hi ->
  JSON_parse msg = Some data ->
  typeof_object (field data "events") = false ->
  is_Data data reqId s1 s2 ->
  length s1 <> length s2 ->
  let run := _onMessage JSON_parse uuid_v4 msg c in
  let eid := lookup_event (_events c) reqId in
  outcome run = Normal tt
  /\ payload <$> sent (trace run) = data_confirmations lo hi eid s1 s2
  /\ (forall i, confirmed_at (trace run) i -> (i < length s1)%nat /\ (i < length s2)%nat)
  /\ (forall i a b, s1 !! i = Some a -> s2 !! i = Some b ->
        (Confirm eid "set1" i (ratio a b) ∈ payload <$> sent (trace run)
         <-> inside lo hi (ratio a b) = true)
        /\ (Confirm eid "set2" i (ratio b a) ∈ payload <$> sent (trace run)
            <-> inside lo hi (ratio b a) = true)).
Proof.
  intros Hc Hb Hp He Hd Hlen run eid.
  assert (Hpay : payload <$> sent (trace run) = data_confirmations lo hi eid s1 s2)
    by apply (_onMessage_Data_payloads JSON_parse uuid_v4 msg data reqId s1 s2
                lo hi c Hc Hb Hp He Hd).
  split; [|split; [exact Hpay|split]].
  - unfold run.
    by rewrite (_onMessage_Data JSON_parse uuid_v4 msg data reqId s1 s2
                  lo hi c Hc Hb Hp He Hd).
  - intros i (f & e & st & d & Hf & Hk).
    assert (Hin : payload f ∈ payload <$> sent (trace run))
      by (apply list_elem_of_fmap; by exists f).
    rewrite Hpay, Hk in Hin.
    apply elem_of_data_confirmations in Hin as (j & [(Hj & Hin & E)|(Hj & Hin & E)]);
      injection E as _ _ -> _; (split; [|]); try lia.
    + destruct (Nat.lt_ge_cases j (length s2)) as [|Hge]; [done|].
      by rewrite (inside_beyond lo hi s1 s2 j Hge) in Hin.
    + destruct (Nat.lt_ge_cases j (length s1)) as [|Hge]; [done|].
      by rewrite (inside_beyond lo hi s2 s1 j Hge) in Hin.
  - intros i a b Ha Hb'. rewrite Hpay, !elem_of_data_confirmations.
    pose proof (lookup_lt_Some _ _ _ Ha) as Hi1.
    pose proof (lookup_lt_Some _ _ _ Hb') as Hi2.
    split; split.
    + intros (j & [(_ & Hin & E)|(_ & _ & E)]); [|discriminate E].
      injection E as <- E. by rewrite <- E in Hin.
    + intros Hin. exists i. left.
      rewrite (at_index_Some s1 i a Ha), (at_index_Some s2 i b Hb'). done.
    + intros (j & [(_ & _ & E)|(_ & Hin & E)]); [discriminate E|].
      injection E as <- E. by rewrite <- E in Hin.
    + intros Hin. exists i. right.
      rewrite (at_index_Some s1 i a Ha), (at_index_Some s2 i b Hb'). done.
Qed.

(** C4 at the uneven response of the example. *)
Lemma C4_witness :
  connected Sample.client
  /\ bounds Sample.client (Number.of_Z 1) (Number.of_Z 2)
  /\ length (Sample.numbers [10; 20; 30]) <> length (Sample.numbers [5; 18])
  /\ outcome (_onMessage Sample.JSON_parse Sample.uuid_v4 Sample.text_uneven
                Sample.client) = Normal tt.
Proof.
  assert (Hc : connected Sample.client) by (by eexists).
  assert (Hb : bounds Sample.client (Number.of_Z 1) (Number.of_Z 2)) by (by split).
  assert (Hd : is_Data (Sample.data_message "req-0" [10; 20; 30] [5; 18]) "req-0"
                 (Sample.numbers [10; 20; 30]) (Sample.numbers [5; 18]))
    by (eexists; repeat split; reflexivity).
  assert (Hl : length (Sample.numbers [10; 20; 30]) <> length (Sample.numbers [5; 18]))
    by discriminate.
  split; [exact Hc|]. split; [exact Hb|]. split; [exact Hl|].
  exact (proj1 (C4_unequal_lengths_are_evaluated
                  Sample.JSON_parse Sample.uuid_v4 Sample.client
                  Sample.text_uneven _ "req-0" _ _ _ _
                  Hc Hb eq_refl eq_refl Hd Hl)).
Defined.

(** ** Terminal messages *)



(** ** A null event set *)

(** C10. A message that parses to an object whose [events] property is
    [null] is classified as an events update, because [typeof null] is
    ['object']; the events handler resets the request table and stores the
    bounds, then [Object.keys(null)] throws a TypeError that nothing catches.
    The message is therefore neither ignored nor handled as a data response
    or a terminal message, and no command is sent. *)
Theorem C10_null_events_throws
    (JSON_parse : string -> option json) (uuid_v4 : nat -> string)
    (c : Client) (msg : string) (data : json) :
  JSON_parse msg = Some data ->
  field data "events" = Some JNull ->
  typeof_object (field data "events") = true
  /\ _onMessage JSON_parse uuid_v4 msg c = logged msg (_onEventsHandler uuid_v4 data c)
  /\ _onEventsHandler uuid_v4 data c
     = (Throw TypeError,
        set_maxDiv (field data "maxDiv")
          (set_minDiv (field data "minDiv") (set_events ∅ c)),
        [])
  /\ deliver JSON_parse uuid_v4 (Running c) (Message msg)
     = (Uncaught TypeError, [Log (Incoming msg)]).
Proof.
  intros Hp He.
  assert (Ht : typeof_object (field data "events") = true) by (by rewrite He).
  assert (Hh : _onEventsHandler uuid_v4 data c
               = (Throw TypeError,
                  set_maxDiv (field data "maxDiv")
                    (set_minDiv (field data "minDiv") (set_events ∅ c)), [])).
  { pose proof (field_not_null _ _ _ He) as Hn. unfold _onEventsHandler.
    rewrite (bind_pure _ _ c c _ (member_field data "minDiv" c Hn)).
    rewrite (bind_pure _ _ c c _ (member_field data "maxDiv" c Hn)).
    rewrite (bind_pure _ _ c c _ (member_field data "events" c Hn)), He.
    reflexivity. }
  pose proof (_onMessage_events JSON_parse uuid_v4 msg data c Hp Ht) as Hm.
  split; [exact Ht|]. split; [exact Hm|]. split; [exact Hh|].
  unfold deliver, listener. rewrite Hm, Hh. reflexivity.
Qed.

(** C10 at the text [{"events":null}]. *)
Lemma C10_witness :
  Sample.JSON_parse Sample.text_null_events = Some (JObject [("events", JNull)])
  /\ deliver Sample.JSON_parse Sample.uuid_v4 (Running Sample.client)
             (Message Sample.text_null_events)
     = (Uncaught TypeError, [Log (Incoming Sample.text_null_events)]).
Proof.
  split; [reflexivity|].
  exact (proj2 (proj2 (proj2
           (C10_null_events_throws Sample.JSON_parse Sample.uuid_v4 Sample.client
              Sample.text_null_events _ eq_refl eq_refl)))).
Defined.

(** ** Events updates *)

Section EventsUpdates.

Variable JSON_parse : string -> option json.
Variable uuid_v4 : nat -> string.

Lemma _onEventsHandler_each_connected k c :
  connected c ->
  _onEventsHandler_each uuid_v4 k c
  = (Normal tt,
     set_uuids (S (uuids c)) (set_events (<[uuid_v4 (uuids c) := k]> (_events c)) c),
     sending [{| payload := Commands.getData k; _reqId := uuid_v4 (uuids c) |}]).
Proof.
  intros Hc. unfold _onEventsHandler_each, bind, uuid, update.
  by rewrite (_send_given uuid_v4 _ _
                (set_events (<[uuid_v4 (uuids c) := k]> (_events c))
                   (set_uuids (S (uuids c)) c)) Hc).
Qed.

Lemma _onEventsHandler_loop keys : forall c,
  connected c ->
  for_each keys (_onEventsHandler_each uuid_v4) c
  = (Normal tt,
     set_uuids (uuids c + length keys)
       (set_events (tracked uuid_v4 (uuids c) keys (_events c)) c),
     sending (stamped uuid_v4 (uuids c) (Commands.getData <$> keys))).
Proof.
  induction keys as [|k keys IH]; intros c Hc.
  - simpl. unfold ret. rewrite Nat.add_0_r. by destruct c.
  - simpl for_each. unfold bind.
    rewrite (_onEventsHandler_each_connected k c Hc).
    rewrite (IH (set_uuids (S (uuids c))
                   (set_events (<[uuid_v4 (uuids c) := k]> (_events c)) c)) Hc).
    rewrite fmap_cons, stamped_cons.
    simpl length. rewrite Nat.add_succ_r. reflexivity.
Qed.

(** [_onEventsHandler] on a message of type [Events]. *)
Lemma _onEventsHandler_Events data keys c :
  connected c -> is_Events data keys ->
  _onEventsHandler uuid_v4 data c
  = (Normal tt,
     set_uuids (uuids c + length keys)
       (set_events (tracked uuid_v4 (uuids c) keys ∅)
          (set_maxDiv (field data "maxDiv") (set_minDiv (field data "minDiv") c))),
     sending (stamped uuid_v4 (uuids c) (Commands.getData <$> keys))).
Proof.
  intros Hc (props & He & <-).
  pose proof (field_not_null _ _ _ He) as Hn. unfold _onEventsHandler.
  rewrite (bind_pure _ _ c c _ (member_field data "minDiv" c Hn)).
  rewrite (bind_pure _ _ c c _ (member_field data "maxDiv" c Hn)).
  rewrite (bind_pure _ _ c c _ (member_field data "events" c Hn)), He.
  unfold bind at 1 2 3 4. unfold update, Object_keys, ret.
  by rewrite (_onEventsHandler_loop _
                (set_maxDiv (field data "maxDiv")
                   (set_minDiv (field data "minDiv") (set_events ∅ c))) Hc).
Qed.

Lemma is_Events_classified data keys :
  is_Events data keys -> typeof_object (field data "events") = true.
Proof. by intros (props & -> & _). Qed.

Hypothesis uuid_v4_inj : forall i j, uuid_v4 i = uuid_v4 j -> i = j.

(** The request table after tracking: the new entries, and the old ones
    under other identifiers. *)
Lemma tracked_lookup keys : forall u m r e,
  tracked uuid_v4 u keys m !! r = Some e
  <-> (exists j, keys !! j = Some e /\ r = uuid_v4 (u + j))
      \/ ((forall j, (j < length keys)%nat -> r <> uuid_v4 (u + j)) /\ m !! r = Some e).
Proof.
  induction keys as [|k keys IH]; intros u m r e.
  - simpl. split; [intros H; right; split; [intros j Hj; inversion Hj|done]|].
    intros [(j & Hj & _)|[_ H]]; [by rewrite lookup_nil in Hj|done].
  - simpl tracked. rewrite IH. split.
    + intros [(j & Hj & ->)|[Hne Hm]].
      * left. exists (S j). split; [done|]. f_equal. lia.
      * destruct (decide (r = uuid_v4 u)) as [->|Hr].
        -- rewrite lookup_insert_eq in Hm. injection Hm as ->.
           left. exists 0%nat. split; [done|]. f_equal. lia.
        -- rewrite lookup_insert_ne in Hm by done. right. split; [|done].
           intros [|j] Hj.
           ++ by replace (u + 0)%nat with u by lia.
           ++ replace (u + S j)%nat with (S u + j)%nat by lia.
              apply Hne. simpl in Hj. lia.
    + intros [([|j] & Hj & ->)|[Hne Hm]].
      * injection Hj as ->. right. replace (u + 0)%nat with u by lia. split.
        -- intros j Hj E. apply uuid_v4_inj in E. lia.
        -- apply lookup_insert_eq.
      * left. exists j. split; [done|]. f_equal. lia.
      * right. split.
        -- intros j Hj. replace (S u + j)%nat with (u + S j)%nat by lia.
           apply Hne. simpl. lia.
        -- rewrite lookup_insert_ne; [done|].
           intros E. apply (Hne 0%nat); [simpl; lia|].
           by replace (u + 0)%nat with u by lia.
Qed.

Lemma tracked_empty_lookup keys u r e :
  tracked uuid_v4 u keys ∅ !! r = Some e
  <-> exists j, keys !! j = Some e /\ r = uuid_v4 (u + j).
Proof.
  rewrite tracked_lookup. split; [|by left].
  intros [H|[_ H]]; [done|]. by rewrite lookup_empty in H.
Qed.

Lemma stamped_reqIds_NoDup u (cmds : list command) :
  NoDup (_reqId <$> stamped uuid_v4 u cmds).
Proof.
  revert u. induction cmds as [|k cmds IH]; intros u; [constructor|].
  rewrite stamped_cons, fmap_cons. simpl. constructor; [|apply IH].
  intros Hin. apply list_elem_of_fmap in Hin as (f & Hf & Hin).
  unfold stamped in Hin. apply elem_of_lookup_imap in Hin as (j & x & -> & _).
  simpl in Hf. apply uuid_v4_inj in Hf. lia.
Qed.

Lemma elem_of_stamped u (cmds : list command) f :
  f ∈ stamped uuid_v4 u cmds
  <-> exists j, cmds !! j = Some (payload f) /\ _reqId f = uuid_v4 (u + j).
Proof.
  unfold stamped. rewrite elem_of_lookup_imap. split.
  - intros (j & x & -> & Hx). by exists j.
  - intros (j & Hj & Hr). exists j, (payload f). split; [|done].
    destruct f as [k rid]. simpl in *. by rewrite Hr.
Qed.

End EventsUpdates.

(** ** An invariant of the request table *)

Section Invariant.

Variable JSON_parse : string -> option json.
Variable uuid_v4 : nat -> string.

Abbreviation I := (tracked_drawn uuid_v4).

Lemma preserves_ret {A} (a : A) : preserves I (ret a).
Proof. by intros c Hc. Qed.

Lemma preserves_bind {A B} (m : M A) (k : A -> M B) :
  preserves I m -> (forall a, preserves I (k a)) -> preserves I (bind m k).
Proof.
  intros Hm Hk c Hc. unfold bind. specialize (Hm c Hc).
  destruct (m c) as [[[a| | |] c1] t1]; try done.
  specialize (Hk a c1 Hm). by destruct (k a c1) as [[r c2] t2].
Qed.

Lemma preserves_this : preserves I this.
Proof. by intros c Hc. Qed.

Lemma preserves_emit e : preserves I (emit e).
Proof. by intros c Hc. Qed.

Lemma preserves_throw {A} e : preserves I (@throw A e).
Proof. by intros c Hc. Qed.

Lemma preserves_exit {A} code : preserves I (@exit A code).
Proof. by intros c Hc. Qed.

Lemma preserves_ill_typed {A} : preserves I (@ill_typed A).
Proof. by intros c Hc. Qed.

Lemma preserves_update f :
  (forall c, I c -> I (f c)) -> preserves I (update f).
Proof. intros Hf c Hc. by apply Hf. Qed.

Lemma preserves_uuid : preserves I (uuid uuid_v4).
Proof.
  intros c Hc r e Hr. destruct (Hc r e Hr) as (i & Hi & ->).
  exists i. split; [simpl; lia|done].
Qed.

Lemma preserves_for_each {A} (l : list A) (body : A -> M unit) :
  (forall x, preserves I (body x)) -> preserves I (for_each l body).
Proof.
  intros Hb. induction l as [|x l IH]; simpl.
  - apply preserves_ret.
  - apply preserves_bind; [apply Hb|intros _; exact IH].
Qed.

Create HintDb preserves.
#[local] Hint Resolve preserves_ret preserves_this preserves_emit preserves_throw
  preserves_exit preserves_ill_typed preserves_uuid : preserves.
#[local] Hint Extern 2 (preserves _ (bind _ _)) =>
  apply preserves_bind; [|intros ?] : preserves.
#[local] Hint Extern 2 (preserves _ (for_each _ _)) =>
  apply preserves_for_each; intros ? : preserves.
#[local] Hint Extern 3 (preserves _ (match ?x with _ => _ end)) =>
  destruct x : preserves.
#[local] Hint Extern 3 (preserves _ (if ?x then _ else _)) =>
  destruct x : preserves.
#[local] Hint Extern 1 (preserves _ (update _)) =>
  apply preserves_update; intros ? ?; assumption : preserves.

Ltac preserving := eauto 40 with preserves.

Lemma preserves_ToNumber v : preserves I (ToNumber v).
Proof. unfold ToNumber. preserving. Qed.

Lemma preserves_ToPropertyKey v : preserves I (ToPropertyKey v).
Proof. unfold ToPropertyKey. preserving. Qed.

Lemma preserves_for_in_keys v : preserves I (for_in_keys v).
Proof. unfold for_in_keys. preserving. Qed.

Lemma preserves_index v n : preserves I (index v n).
Proof. unfold index. preserving. Qed.

Lemma preserves_Object_keys v : preserves I (Object_keys v).
Proof. unfold Object_keys. preserving. Qed.

Lemma preserves_member data k : preserves I (member data k).
Proof. unfold member. preserving. Qed.

#[local] Hint Resolve preserves_ToNumber preserves_ToPropertyKey preserves_for_in_keys
  preserves_index preserves_Object_keys preserves_member : preserves.

Lemma preserves__send command reqId : preserves I (_send uuid_v4 command reqId).
Proof. unfold _send. preserving. Qed.

#[local] Hint Resolve preserves__send : preserves.

Lemma preserves_stop code : preserves I (stop code).
Proof. unfold stop. preserving. Qed.

Lemma preserves__processSet set1 set2 o : preserves I (_processSet uuid_v4 set1 set2 o).
Proof. unfold _processSet, _processSet_body. preserving. Qed.

#[local] Hint Resolve preserves_stop preserves__processSet : preserves.

Lemma preserves__onDataHandler data : preserves I (_onDataHandler uuid_v4 data).
Proof. unfold _onDataHandler. preserving. Qed.

(** Tracking a key under the identifier just drawn keeps the invariant. *)
Lemma preserves__onEventsHandler_each k : preserves I (_onEventsHandler_each uuid_v4 k).
Proof.
  intros c Hc. unfold _onEventsHandler_each, bind, uuid, update.
  pose proof (preserves__send (Commands.getData k) (Some (uuid_v4 (uuids c)))) as Hs.
  set (c2 := set_events (<[uuid_v4 (uuids c) := k]> (_events (set_uuids (S (uuids c)) c)))
               (set_uuids (S (uuids c)) c)).
  assert (H2 : I c2).
  { intros r e. unfold c2. simpl. intros Hr.
    destruct (decide (uuid_v4 (uuids c) = r)) as [<-|Hne].
    - exists (uuids c). split; [lia|done].
    - rewrite lookup_insert_ne in Hr by done.
      destruct (Hc r e Hr) as (i & Hi & ->). exists i. split; [lia|done]. }
  specialize (Hs c2 H2). fold c2.
  by destruct (_send uuid_v4 _ _ c2) as [[[[]| | |] c3] t3].
Qed.

Lemma preserves__onEventsHandler data : preserves I (_onEventsHandler uuid_v4 data).
Proof.
  unfold _onEventsHandler.
  do 3 (apply preserves_bind; [apply preserves_member|intros ?]).
  apply preserves_bind; [|intros _].
  { apply preserves_update. intros c _ r e Hr. simpl in Hr.
    by rewrite lookup_empty in Hr. }
  pose proof preserves__onEventsHandler_each. preserving.
Qed.

#[local] Hint Resolve preserves__onDataHandler preserves__onEventsHandler : preserves.

Lemma preserves__onMessage msg : preserves I (_onMessage JSON_parse uuid_v4 msg).
Proof. unfold _onMessage, _onLoseHandler, _onWinHandler. preserving. Qed.

Lemma preserves_listener ev : preserves I (listener JSON_parse uuid_v4 ev).
Proof.
  destruct ev; simpl.
  - unfold _onOpen. preserving.
  - apply preserves__onMessage.
  - unfold _onTick. preserving.
Qed.

(** Whatever is delivered, and in whatever order, every tracked request
    identifier of a running client was drawn from the generator. *)
Lemma tracked_drawn_run evs : forall c c' t,
  I c ->
  run JSON_parse uuid_v4 (Running c) evs = (Running c', t) ->
  I c'.
Proof.
  induction evs as [|ev evs IH]; intros c c' t Hc Hrun.
  - simpl in Hrun. by injection Hrun as <- _.
  - simpl in Hrun.
    pose proof (preserves_listener ev c Hc) as Hl.
    destruct (listener JSON_parse uuid_v4 ev c) as [[[[]| | |] c1] t1].
    + destruct (run JSON_parse uuid_v4 (Running c1) evs) as [p2 t2] eqn:E.
      injection Hrun as -> _. by apply (IH c1 c' t2).
    + rewrite (run_not_running JSON_parse uuid_v4 (Uncaught e) evs) in Hrun by done.
      discriminate Hrun.
    + rewrite (run_not_running JSON_parse uuid_v4 (Exited code) evs) in Hrun by done.
      discriminate Hrun.
    + rewrite (run_not_running JSON_parse uuid_v4 Unknown evs) in Hrun by done.
      discriminate Hrun.
Qed.

Lemma tracked_drawn_constructor options : I (constructor options).
Proof. intros r e Hr. simpl in Hr. by rewrite lookup_empty in Hr. Qed.

(** The invariant holds in every state a client reaches from its
    construction. *)
Lemma tracked_drawn_reachable options evs c t :
  run JSON_parse uuid_v4 (Running (constructor options)) evs = (Running c, t) ->
  I c.
Proof. apply tracked_drawn_run, tracked_drawn_constructor. Qed.

End Invariant.

(** ** Events updates and the request table *)

(** C7. After an events update is processed, the bounds are the [minDiv]
    and [maxDiv] of the message, the request table holds exactly the event
    keys of the message (nothing of an earlier update is left), and one
    [getData] command was sent per event key, in order, each stamped with an
    identifier freshly drawn from the generator, distinct from the others and
    tracked against that event key. *)
Theorem C7_events_update_replaces_state
    (JSON_parse : string -> option json) (uuid_v4 : nat -> string)
    (c : Client) (msg : string) (data : json) (keys : list string) :
  (forall i j, uuid_v4 i = uuid_v4 j -> i = j) ->
  connected c ->
  JSON_parse msg = Some data ->
  is_Events data keys ->
  NoDup keys ->
  let run := _onMessage JSON_parse uuid_v4 msg c in
  outcome run = Normal tt
  /\ _minDiv (after run) = field data "minDiv"
  /\ _maxDiv (after run) = field data "maxDiv"
  /\ (forall r e, _events (after run) !! r = Some e
                  <-> exists j, keys !! j = Some e /\ r = uuid_v4 (uuids c + j)%nat)
  /\ (forall e, (exists r, _events (after run) !! r = Some e) <-> e ∈ keys)
  /\ sent (trace run) = stamped uuid_v4 (uuids c) (Commands.getData <$> keys)
  /\ payload <$> sent (trace run) = Commands.getData <$> keys
  /\ NoDup (payload <$> sent (trace run))
  /\ NoDup (_reqId <$> sent (trace run))
  /\ (forall f, f ∈ sent (trace run) ->
        exists j e, keys !! j = Some e
                    /\ payload f = Commands.getData e
                    /\ _reqId f = uuid_v4 (uuids c + j)%nat
                    /\ _events (after run) !! _reqId f = Some e).
Proof.
  intros Hinj Hc Hp He Hnd run.
  assert (Hrun : run = (Normal tt,
             set_uuids (uuids c + length keys)%nat
               (set_events (tracked uuid_v4 (uuids c) keys ∅)
                  (set_maxDiv (field data "maxDiv") (set_minDiv (field data "minDiv") c))),
             Log (Incoming msg)
               :: sending (stamped uuid_v4 (uuids c) (Commands.getData <$> keys)))).
  { unfold run.
    rewrite (_onMessage_events JSON_parse uuid_v4 msg data c Hp
               (is_Events_classified data keys He)).
    by rewrite (_onEventsHandler_Events uuid_v4 data keys c Hc He). }
  assert (Hsent : sent (trace run) = stamped uuid_v4 (uuids c) (Commands.getData <$> keys)).
  { rewrite Hrun. unfold trace. simpl snd.
    change (sent (Log (Incoming msg) :: ?t)) with (sent t). apply sent_sending. }
  assert (Hev : forall r e, _events (after run) !! r = Some e
                  <-> exists j, keys !! j = Some e /\ r = uuid_v4 (uuids c + j)%nat).
  { intros r e. rewrite Hrun. unfold after. simpl.
    apply (tracked_empty_lookup uuid_v4 Hinj). }
  split; [by rewrite Hrun|]. split; [by rewrite Hrun|]. split; [by rewrite Hrun|].
  split; [exact Hev|]. split; [|split; [exact Hsent|split; [|split; [|split]]]].
  - intros e. split.
    + intros (r & Hr). apply Hev in Hr as (j & Hj & _).
      apply list_elem_of_lookup. by exists j.
    + intros Hin. apply list_elem_of_lookup in Hin as (j & Hj).
      exists (uuid_v4 (uuids c + j)%nat). apply Hev. by exists j.
  - by rewrite Hsent, stamped_payload.
  - rewrite Hsent, stamped_payload. apply NoDup_fmap_2; [|done].
    by intros x y [= ->].
  - rewrite Hsent. by apply stamped_reqIds_NoDup.
  - intros f Hf. rewrite Hsent in Hf.
    apply elem_of_stamped in Hf as (j & Hj & Hr).
    rewrite list_lookup_fmap in Hj.
    destruct (keys !! j) as [e|] eqn:Hk; [|discriminate Hj].
    injection Hj as Hj. exists j, e.
    split; [done|]. split; [done|]. split; [done|].
    rewrite Hr. apply Hev. by exists j.
Qed.

(** C9. After an events update, each request identifier it drew resolves
    to the event key it was tracked against, and every request identifier
    that was tracked before the update resolves to nothing: the update
    emptied the table and the new identifiers are fresh.  The event that
    [_onDataHandler] resolves for a data response is the access
    [this._events[reqId]] to this table: it gives the event key under a drawn
    identifier (other than [__proto__], under which an assignment stores
    nothing) and no event identifier under one that was tracked before. *)
Theorem C9_resolve_after_track_and_after_reset
    (JSON_parse : string -> option json) (uuid_v4 : nat -> string)
    (c : Client) (msg : string) (data : json) (keys : list string) :
  (forall i j, uuid_v4 i = uuid_v4 j -> i = j) ->
  tracked_drawn uuid_v4 c ->
  connected c ->
  JSON_parse msg = Some data ->
  is_Events data keys ->
  let c' := after (_onMessage JSON_parse uuid_v4 msg c) in
  (forall j k, keys !! j = Some k -> _events c' !! uuid_v4 (uuids c + j)%nat = Some k)
  /\ (forall r e, _events c !! r = Some e -> _events c' !! r = None)
  /\ tracked_drawn uuid_v4 c'
  /\ (forall response reqId s1 s2 lo hi,
        bounds c' lo hi -> is_Data response reqId s1 s2 ->
        payload <$> sent (trace (_onDataHandler uuid_v4 response c'))
        = data_confirmations lo hi (lookup_event (_events c') reqId) s1 s2)
  /\ (forall j k, keys !! j = Some k ->
        uuid_v4 (uuids c + j)%nat <> "__proto__" ->
        lookup_event (_events c') (uuid_v4 (uuids c + j)%nat) = Stored k)
  /\ (forall r e, _events c !! r = Some e ->
        forall e', lookup_event (_events c') r <> Stored e').
Proof.
  intros Hinj Hdrawn Hc Hp He c'.
  assert (Hc' : c' = set_uuids (uuids c + length keys)%nat
               (set_events (tracked uuid_v4 (uuids c) keys ∅)
                  (set_maxDiv (field data "maxDiv") (set_minDiv (field data "minDiv") c)))).
  { unfold c'.
    rewrite (_onMessage_events JSON_parse uuid_v4 msg data c Hp
               (is_Events_classified data keys He)).
    by rewrite (_onEventsHandler_Events uuid_v4 data keys c Hc He). }
  assert (Hev : forall r e, _events c' !! r = Some e
                  <-> exists j, keys !! j = Some e /\ r = uuid_v4 (uuids c + j)%nat).
  { intros r e. rewrite Hc'. simpl. apply (tracked_empty_lookup uuid_v4 Hinj). }
  assert (Hnew : forall j k, keys !! j = Some k ->
            _events c' !! uuid_v4 (uuids c + j)%nat = Some k).
  { intros j k Hk. apply Hev. by exists j. }
  assert (Hold : forall r e, _events c !! r = Some e -> _events c' !! r = None).
  { intros r e Hr. destruct (Hdrawn r e Hr) as (i & Hi & ->).
    destruct (_events c' !! uuid_v4 i) as [e'|] eqn:E; [|done].
    apply Hev in E as (j & _ & E). apply Hinj in E. lia. }
  split; [exact Hnew|]. split; [exact Hold|]. split; [|split; [|split]].
  - pose proof (preserves__onMessage JSON_parse uuid_v4 msg c Hdrawn) as Hpres.
    fold c' in Hpres. unfold c' in *.
    rewrite (_onMessage_events JSON_parse uuid_v4 msg data c Hp
               (is_Events_classified data keys He)) in *.
    by rewrite (_onEventsHandler_Events uuid_v4 data keys c Hc He) in *.
  - intros response reqId s1 s2 lo hi Hb Hd.
    assert (Hconn : connected c') by (rewrite Hc'; exact Hc).
    rewrite (_onDataHandler_Data uuid_v4 response reqId s1 s2 lo hi c' Hconn Hb Hd).
    unfold trace. simpl. by rewrite sent_sending, stamped_payload.
  - intros j k Hk Hne. by apply lookup_event_assigned; [apply Hnew|].
  - intros r e Hr. apply lookup_event_unassigned. by apply (Hold r e).
Qed.

(** The sample generator never repeats an identifier. *)
Lemma Sample_uuid_v4_inj i j : Sample.uuid_v4 i = Sample.uuid_v4 j -> i = j.
Proof.
  unfold Sample.uuid_v4. intros H.
  apply pretty_nat_inj. by apply (String.app_inj "req-").
Qed.

Lemma Sample_client_tracked_drawn : tracked_drawn Sample.uuid_v4 Sample.client.
Proof.
  intros r e Hr. simpl in Hr.
  apply lookup_singleton_Some in Hr as [<- _].
  exists 0%nat. split; [simpl; lia|reflexivity].
Qed.

Lemma Sample_events_message_is_Events lo hi ids :
  is_Events (Sample.events_message lo hi ids) ids.
Proof.
  eexists. split; [reflexivity|].
  induction ids as [|k ids IH]; [reflexivity|].
  rewrite !fmap_cons. simpl. f_equal. exact IH.
Qed.

(** C7 at the events update with events ["a"] and ["b"]: the one entry of
    the table is replaced by two, and two [getData] commands are sent. *)
Lemma C7_witness :
  connected Sample.client
  /\ Sample.JSON_parse Sample.text_events = Some (Sample.events_message 3 4 ["a"; "b"])
  /\ NoDup ["a"; "b"]
  /\ sent (trace (_onMessage Sample.JSON_parse Sample.uuid_v4 Sample.text_events
                    Sample.client))
     = [{| payload := GetData "a"; _reqId := "req-1" |};
        {| payload := GetData "b"; _reqId := "req-2" |}].
Proof.
  assert (Hc : connected Sample.client) by (by eexists).
  assert (Hnd : NoDup ["a"; "b"]) by (apply (bool_decide_unpack _); reflexivity).
  split; [exact Hc|]. split; [reflexivity|]. split; [exact Hnd|].
  destruct (C7_events_update_replaces_state Sample.JSON_parse Sample.uuid_v4
              Sample.client Sample.text_events _ ["a"; "b"]
              Sample_uuid_v4_inj Hc eq_refl
              (Sample_events_message_is_Events 3 4 ["a"; "b"]) Hnd)
    as (_ & _ & _ & _ & _ & H & _).
  rewrite H. reflexivity.
Defined.

(** C9 at the same update: ["req-1"] resolves to ["a"], and ["req-0"],
    tracked before, resolves to nothing. *)
Lemma C9_witness :
  tracked_drawn Sample.uuid_v4 Sample.client
  /\ connected Sample.client
  /\ _events Sample.client !! "req-0" = Some "ev1"
  /\ (let c' := after (_onMessage Sample.JSON_parse Sample.uuid_v4 Sample.text_events
                         Sample.client) in
      _events c' !! "req-1" = Some "a" /\ _events c' !! "req-0" = None).
Proof.
  assert (Hc : connected Sample.client) by (by eexists).
  split; [exact Sample_client_tracked_drawn|]. split; [exact Hc|].
  split; [reflexivity|].
  destruct (C9_resolve_after_track_and_after_reset Sample.JSON_parse Sample.uuid_v4
              Sample.client Sample.text_events _ ["a"; "b"]
              Sample_uuid_v4_inj Sample_client_tracked_drawn Hc eq_refl
              (Sample_events_message_is_Events 3 4 ["a"; "b"]))
    as (H1 & H2 & _).
  split.
  - exact (H1 0%nat "a" eq_refl).
  - exact (H2 "req-0" "ev1" eq_refl).
Defined.

(** ** Relations that hold of every listener *)

Section Disciplines.

Variable JSON_parse : string -> option json.
Variable uuid_v4 : nat -> string.
Variable R : Client -> completion unit -> Client -> list effect -> Prop.
Context `{HR : !Discipline uuid_v4 R}.

Lemma obeys_ret {A} (a : A) : obeys R (ret a).
Proof. intros c. apply discipline_skip. Qed.

Lemma obeys_this : obeys R this.
Proof. intros c. apply discipline_skip. Qed.

Lemma obeys_throw {A} e : obeys R (@throw A e).
Proof. intros c. apply discipline_throw. Qed.

Lemma obeys_ill_typed {A} : obeys R (@ill_typed A).
Proof. intros c. apply discipline_ill_typed. Qed.

Lemma obeys_emit e : quiet e -> obeys R (emit e).
Proof. intros He c. by apply discipline_emit. Qed.

Lemma obeys_update f : steady f -> obeys R (update f).
Proof. intros Hf c. by apply discipline_update. Qed.

Lemma obeys_bind {A B} (m : M A) (k : A -> M B) :
  obeys R m -> (forall a, obeys R (k a)) -> obeys R (bind m k).
Proof.
  intros Hm Hk c. specialize (Hm c). unfold bind.
  destruct (m c) as [[[a| | |] c1] t1]; try exact Hm.
  specialize (Hk a c1). destruct (k a c1) as [[r c2] t2].
  by apply discipline_seq with c1.
Qed.

Lemma obeys_for_each {A} (l : list A) (body : A -> M unit) :
  (forall x, obeys R (body x)) -> obeys R (for_each l body).
Proof.
  intros Hb. induction l as [|x l IH]; simpl.
  - apply obeys_ret.
  - apply obeys_bind; [apply Hb|intros _; exact IH].
Qed.

Lemma steady_set_events_empty : steady (set_events ∅).
Proof. intros c. split; [done|]. intros r e Hr. simpl in Hr. by rewrite lookup_empty in Hr. Qed.

Lemma steady_set_minDiv v : steady (set_minDiv v).
Proof. by intros c. Qed.

Lemma steady_set_maxDiv v : steady (set_maxDiv v).
Proof. by intros c. Qed.

Lemma steady_set_pullInterval t : steady (set_pullInterval t).
Proof. by intros c. Qed.

Create HintDb obeys.
#[local] Hint Resolve obeys_ret obeys_this obeys_throw obeys_ill_typed
  steady_set_events_empty steady_set_minDiv steady_set_maxDiv
  steady_set_pullInterval discipline_send discipline_track : obeys.
#[local] Hint Extern 2 (obeys _ (bind _ _)) =>
  apply obeys_bind; [|intros ?] : obeys.
#[local] Hint Extern 2 (obeys _ (for_each _ _)) =>
  apply obeys_for_each; intros ? : obeys.
#[local] Hint Extern 3 (obeys _ (match ?x with _ => _ end)) =>
  destruct x : obeys.
#[local] Hint Extern 3 (obeys _ (if ?x then _ else _)) =>
  destruct x : obeys.
#[local] Hint Extern 1 (obeys _ (emit _)) =>
  apply obeys_emit; exact Logic.I : obeys.
#[local] Hint Extern 1 (obeys _ (update _)) =>
  apply obeys_update : obeys.
#[local] Hint Extern 1 (obeys _ (stop 0)) =>
  apply discipline_stop; by left : obeys.
#[local] Hint Extern 1 (obeys _ (stop 1)) =>
  apply discipline_stop; by right : obeys.

Ltac obeying := eauto 40 with obeys.

Lemma obeys_ToNumber v : obeys R (ToNumber v).
Proof. unfold ToNumber. obeying. Qed.

Lemma obeys_ToPropertyKey v : obeys R (ToPropertyKey v).
Proof. unfold ToPropertyKey. obeying. Qed.

Lemma obeys_for_in_keys v : obeys R (for_in_keys v).
Proof. unfold for_in_keys. obeying. Qed.

Lemma obeys_index v n : obeys R (index v n).
Proof. unfold index. obeying. Qed.

Lemma obeys_Object_keys v : obeys R (Object_keys v).
Proof. unfold Object_keys. obeying. Qed.

Lemma obeys_member data k : obeys R (member data k).
Proof. unfold member. obeying. Qed.

#[local] Hint Resolve obeys_ToNumber obeys_ToPropertyKey obeys_for_in_keys
  obeys_index obeys_Object_keys obeys_member : obeys.

Lemma obeys__processSet set1 set2 o : obeys R (_processSet uuid_v4 set1 set2 o).
Proof. unfold _processSet, _processSet_body. obeying. Qed.

#[local] Hint Resolve obeys__processSet : obeys.

Lemma obeys__onDataHandler data : obeys R (_onDataHandler uuid_v4 data).
Proof. unfold _onDataHandler. obeying. Qed.

Lemma obeys__onEventsHandler data : obeys R (_onEventsHandler uuid_v4 data).
Proof. unfold _onEventsHandler. obeying. Qed.

#[local] Hint Resolve obeys__onDataHandler obeys__onEventsHandler : obeys.

Lemma obeys__onMessage msg : obeys R (_onMessage JSON_parse uuid_v4 msg).
Proof. unfold _onMessage, _onLoseHandler, _onWinHandler. obeying. Qed.

Lemma obeys_listener ev : obeys R (listener JSON_parse uuid_v4 ev).
Proof.
  destruct ev; simpl.
  - unfold _onOpen. obeying.
  - apply obeys__onMessage.
  - unfold _onTick. obeying.
Qed.

(** A relation with this discipline holds of every run: of the client it
    starts from, the way the last listener that ran ended, the client it left
    and all the effects of the run. *)
Lemma obeys_run evs : forall c,
  exists r c',
    R c r c' (run JSON_parse uuid_v4 (Running c) evs).2
    /\ (run JSON_parse uuid_v4 (Running c) evs).1 = settle r c'.
Proof.
  induction evs as [|ev evs IH]; intros c.
  - exists (Normal tt), c. split; [apply discipline_skip|done].
  - simpl. pose proof (obeys_listener ev c) as Hl.
    destruct (listener JSON_parse uuid_v4 ev c) as [[[[]| | |] c1] t1]; simpl in Hl.
    + destruct (IH c1) as (r & c' & HR' & Hp).
      destruct (run JSON_parse uuid_v4 (Running c1) evs) as [p2 t2]. simpl in *.
      exists r, c'. split; [by apply discipline_seq with c1|done].
    + rewrite (run_not_running JSON_parse uuid_v4 (Uncaught e) evs) by done.
      exists (Throw e), c1. simpl. by rewrite app_nil_r.
    + rewrite (run_not_running JSON_parse uuid_v4 (Exited code) evs) by done.
      exists (Exit code), c1. simpl. by rewrite app_nil_r.
    + rewrite (run_not_running JSON_parse uuid_v4 Unknown evs) by done.
      exists IllTyped, c1. simpl. by rewrite app_nil_r.
Qed.

End Disciplines.

(** ** Before the socket exists *)

Section Unconnected.

Variable uuid_v4 : nat -> string.

Lemma _send_given_unconnected command r c :
  _ws c = None ->
  _send uuid_v4 command (Some r) c
  = (Throw TypeError, c, [Log (Outgoing {| payload := command; _reqId := r |})]).
Proof.
  intros Hw. unfold _send, bind, ret, emit, this. simpl. by rewrite Hw.
Qed.

Lemma _send_fresh_unconnected command c :
  _ws c = None ->
  _send uuid_v4 command None c
  = (Throw TypeError, set_uuids (S (uuids c)) c,
     [Log (Outgoing {| payload := command; _reqId := uuid_v4 (uuids c) |})]).
Proof.
  intros Hw. unfold _send, bind, ret, emit, this, uuid. simpl. by rewrite Hw.
Qed.

Lemma _onEventsHandler_each_unconnected k c :
  _ws c = None ->
  _onEventsHandler_each uuid_v4 k c
  = (Throw TypeError,
     set_uuids (S (uuids c)) (set_events (<[uuid_v4 (uuids c) := k]> (_events c)) c),
     [Log (Outgoing {| payload := Commands.getData k; _reqId := uuid_v4 (uuids c) |})]).
Proof.
  intros Hw. unfold _onEventsHandler_each, bind, uuid, update.
  by rewrite (_send_given_unconnected _ _
                (set_events (<[uuid_v4 (uuids c) := k]> (_events c))
                   (set_uuids (S (uuids c)) c)) Hw).
Qed.

Lemma stop_unconnected code c :
  _ws c = None ->
  stop code c = (Throw TypeError, c, [ClearInterval (_pullInterval c)]).
Proof.
  intros Hw. unfold stop, bind, this, emit, exit. simpl. by rewrite Hw.
Qed.

Lemma connected_or_not c : connected c \/ _ws c = None.
Proof. unfold connected. destruct (_ws c); [left; by eexists|by right]. Qed.

End Unconnected.

(** ** The request identifiers of a session *)

Section Numbering.

Variable uuid_v4 : nat -> string.

Lemma numbered_silent c r c' t :
  sent t = [] -> uuids c' = uuids c -> numbered uuid_v4 c r c' t.
Proof.
  intros Hs Hu. exists 0%nat. rewrite Hs, Hu. split; [done|]. split; [lia|]. intros _. lia.
Qed.

Lemma numbered_one c r c' t f :
  sent t = [f] -> _reqId f = uuid_v4 (uuids c) -> uuids c' = S (uuids c) ->
  numbered uuid_v4 c r c' t.
Proof.
  intros Hs Hf Hu. exists 1%nat. rewrite Hs, Hu. simpl. rewrite Hf.
  split; [done|]. split; [lia|]. intros _. lia.
Qed.

Lemma sent_app (t1 t2 : list effect) : sent (t1 ++ t2) = sent t1 ++ sent t2.
Proof. unfold sent. apply omap_app. Qed.

Lemma sent_quiet e : quiet e -> sent [e] = [].
Proof. by destruct e. Qed.

#[export] Instance numbered_discipline : Discipline uuid_v4 (numbered uuid_v4).
Proof.
  split.
  - intros c. by apply numbered_silent.
  - intros c e. by apply numbered_silent.
  - intros c. by apply numbered_silent.
  - intros c e He. apply numbered_silent; [by apply sent_quiet|done].
  - intros c f Hf. apply numbered_silent; [done|apply Hf].
  - intros c c1 c2 t1 t2 r (k1 & H1 & _ & E1) (k2 & H2 & L2 & E2).
    specialize (E1 eq_refl). exists (k1 + k2)%nat.
    rewrite sent_app, fmap_app, H1, H2, E1, seq_app, fmap_app.
    split; [done|]. split; [lia|]. intros Hr. specialize (E2 Hr). lia.
  - intros command c. destruct (connected_or_not c) as [Hc|Hn].
    + rewrite (_send_fresh uuid_v4 command c Hc).
      by eapply numbered_one; [apply (sent_sending [_])|..].
    + rewrite (_send_fresh_unconnected uuid_v4 command c Hn).
      exists 0%nat. split; [done|]. split; [simpl; lia|]. intros [=].
  - intros k c. destruct (connected_or_not c) as [Hc|Hn].
    + rewrite (_onEventsHandler_each_connected uuid_v4 k c Hc).
      by eapply numbered_one; [apply (sent_sending [_])|..].
    + rewrite (_onEventsHandler_each_unconnected uuid_v4 k c Hn).
      exists 0%nat. split; [done|]. split; [simpl; lia|]. intros [=].
  - intros code _ c. destruct (connected_or_not c) as [Hc|Hn].
    + rewrite (stop_connected code c Hc). by apply numbered_silent.
    + rewrite (stop_unconnected code c Hn). by apply numbered_silent.
Qed.

End Numbering.

(** ** Log lines, exits and requests of a session *)

Section Logging.

Variable uuid_v4 : nat -> string.

Lemma announced_app t1 t2 : announced t1 -> announced t2 -> announced (t1 ++ t2).
Proof.
  intros H1 H2. induction H1 as [|e t He _ IH|f t _ IH]; simpl.
  - exact H2.
  - by apply announced_other.
  - by apply announced_send.
Qed.

Lemma announced_quiet e : quiet e -> announced [e].
Proof.
  intros He. apply announced_other; [|constructor].
  intros f ->. exact He.
Qed.

Lemma announced_sending f : announced (sending [f]).
Proof. apply announced_send. constructor. Qed.

Lemma announced_log l : announced [Log l].
Proof. by apply announced_quiet. Qed.

(** In an announced trace a frame handed to the socket stands right after
    the line that logs it. *)
Lemma announced_before t : announced t ->
  forall t1 f t2, t = t1 ++ WsSend f :: t2 ->
  exists t0, t1 = t0 ++ [Log (Outgoing f)].
Proof.
  induction 1 as [|e t He _ IH|f' t _ IH]; intros t1 f t2 E.
  - by destruct t1.
  - destruct t1 as [|e1 t1]; simpl in E.
    + injection E as -> _. by destruct (He f).
    + injection E as <- E. destruct (IH _ _ _ E) as (t0 & ->).
      by exists (e :: t0).
  - destruct t1 as [|e1 [|e2 t1]]; simpl in E.
    + discriminate E.
    + injection E as <- <- _. by exists [].
    + injection E as <- <- E. destruct (IH _ _ _ E) as (t0 & ->).
      by exists (Log (Outgoing f') :: WsSend f' :: t0).
Qed.

#[export] Instance logs_first_discipline : Discipline uuid_v4 logs_first.
Proof.
  split; unfold logs_first.
  - constructor.
  - constructor.
  - constructor.
  - intros _ e He. by apply announced_quiet.
  - constructor.
  - intros _ _ _ t1 t2 _. apply announced_app.
  - intros command c. destruct (connected_or_not c) as [Hc|Hn].
    + rewrite (_send_fresh uuid_v4 command c Hc). apply announced_sending.
    + rewrite (_send_fresh_unconnected uuid_v4 command c Hn). apply announced_log.
  - intros k c. destruct (connected_or_not c) as [Hc|Hn].
    + rewrite (_onEventsHandler_each_connected uuid_v4 k c Hc). apply announced_sending.
    + rewrite (_onEventsHandler_each_unconnected uuid_v4 k c Hn). apply announced_log.
  - intros code _ c. destruct (connected_or_not c) as [Hc|Hn].
    + rewrite (stop_connected code c Hc). simpl.
      repeat (apply announced_other; [done|]). constructor.
    + rewrite (stop_unconnected code c Hn). by apply announced_quiet.
Qed.

Lemma no_exit_nil : no_exit [].
Proof. intros code H. by apply elem_of_nil in H. Qed.

Lemma no_exit_app t1 t2 : no_exit t1 -> no_exit t2 -> no_exit (t1 ++ t2).
Proof.
  intros H1 H2 code H. apply elem_of_app in H as [H|H]; [by apply (H1 code)|by apply (H2 code)].
Qed.

Lemma no_exit_cons e t : (forall code, e <> ProcessExit code) -> no_exit t -> no_exit (e :: t).
Proof.
  intros He Ht code H. apply elem_of_cons in H as [H|H]; [by apply (He code)|by apply (Ht code)].
Qed.

Lemma no_exit_sending fs : no_exit (sending fs).
Proof.
  induction fs as [|f fs IH]; [apply no_exit_nil|].
  change (sending (f :: fs)) with (Log (Outgoing f) :: WsSend f :: sending fs).
  by repeat apply no_exit_cons.
Qed.

#[export] Instance exits_last_discipline : Discipline uuid_v4 exits_last.
Proof.
  split; unfold exits_last.
  - intros _. apply no_exit_nil.
  - intros _ _. apply no_exit_nil.
  - intros _. apply no_exit_nil.
  - intros _ e He. apply no_exit_cons; [|apply no_exit_nil]. intros code ->. exact He.
  - intros _ _ _. apply no_exit_nil.
  - intros _ _ _ t1 t2 r H1 H2. destruct r as [[]|e|code|].
    + by apply no_exit_app.
    + by apply no_exit_app.
    + destruct H2 as (Hcode & t0 & timer & -> & H0). split; [done|].
      exists (t1 ++ t0), timer. split; [by rewrite app_assoc|by apply no_exit_app].
    + by apply no_exit_app.
  - intros command c. destruct (connected_or_not c) as [Hc|Hn].
    + rewrite (_send_fresh uuid_v4 command c Hc). apply no_exit_sending.
    + rewrite (_send_fresh_unconnected uuid_v4 command c Hn).
      by apply no_exit_cons; [|apply no_exit_nil].
  - intros k c. destruct (connected_or_not c) as [Hc|Hn].
    + rewrite (_onEventsHandler_each_connected uuid_v4 k c Hc). apply no_exit_sending.
    + rewrite (_onEventsHandler_each_unconnected uuid_v4 k c Hn).
      by apply no_exit_cons; [|apply no_exit_nil].
  - intros code Hcode c. destruct (connected_or_not c) as [Hc|Hn].
    + rewrite (stop_connected code c Hc). simpl. split; [done|].
      exists [], (_pullInterval c). split; [done|apply no_exit_nil].
    + rewrite (stop_unconnected code c Hn). simpl.
      by apply no_exit_cons; [|apply no_exit_nil].
Qed.

#[export] Instance requested_discipline : Discipline uuid_v4 requested.
Proof.
  split; unfold requested.
  - intros c _ rid e H. by left.
  - intros c e [=].
  - intros c [=].
  - intros c e _ _ rid e' H. by left.
  - intros c f Hf _ rid e H. left. by apply (Hf c).
  - intros c c1 c2 t1 t2 r H1 H2 Hr rid e H.
    destruct (H2 Hr rid e H) as [H'|H'].
    + destruct (H1 eq_refl rid e H') as [H''|H'']; [by left|].
      right. rewrite sent_app. apply elem_of_app. by left.
    + right. rewrite sent_app. apply elem_of_app. by right.
  - intros command c. destruct (connected_or_not c) as [Hc|Hn].
    + rewrite (_send_fresh uuid_v4 command c Hc). intros _ rid e H. by left.
    + rewrite (_send_fresh_unconnected uuid_v4 command c Hn). intros [=].
  - intros k c. destruct (connected_or_not c) as [Hc|Hn].
    + rewrite (_onEventsHandler_each_connected uuid_v4 k c Hc).
      intros _ rid e H. simpl in H.
      destruct (decide (uuid_v4 (uuids c) = rid)) as [<-|Hne].
      * rewrite lookup_insert_eq in H. injection H as <-.
        right. apply list_elem_of_here.
      * rewrite lookup_insert_ne in H by done. by left.
    + rewrite (_onEventsHandler_each_unconnected uuid_v4 k c Hn). intros [=].
  - intros code _ c. destruct (connected_or_not c) as [Hc|Hn].
    + rewrite (stop_connected code c Hc). intros [=].
    + rewrite (stop_unconnected code c Hn). intros [=].
Qed.

End Logging.

(** ** Sessions within the types of the messages *)

Section Covered.

Variable JSON_parse : string -> option json.
Variable uuid_v4 : nat -> string.

Lemma covered_ret {A} (Q : A -> Prop) a : Q a -> covered Q (ret a).
Proof. intros Ha c Hc. split; [done|]. split; [done|]. by intros ? [= <-]. Qed.

Lemma covered_throw {A} (Q : A -> Prop) e : covered Q (throw e).
Proof. intros c Hc. by split; [|split]. Qed.

Lemma covered_exit {A} (Q : A -> Prop) code : covered Q (exit code).
Proof. intros c Hc. by split; [|split]. Qed.

Lemma covered_emit (Q : unit -> Prop) e : Q tt -> covered Q (emit e).
Proof. intros Ha c Hc. split; [done|]. split; [done|]. by intros ? [= <-]. Qed.

Lemma covered_update (Q : unit -> Prop) f :
  Q tt -> (forall c, typed_client c = true -> typed_client (f c) = true) ->
  covered Q (update f).
Proof.
  intros Ha Hf c Hc. split; [done|]. split; [by apply Hf|]. by intros ? [= <-].
Qed.

Lemma covered_uuid : covered (fun _ => True) (uuid uuid_v4).
Proof. intros c Hc. by split; [|split]. Qed.

Lemma covered_weaken {A} (Q Q' : A -> Prop) m :
  (forall a, Q a -> Q' a) -> covered Q m -> covered Q' m.
Proof.
  intros HQ Hm c Hc. destruct (Hm c Hc) as (H1 & H2 & H3).
  split; [done|]. split; [done|]. intros a Ha. by apply HQ, H3.
Qed.

Lemma covered_bind {A B} (Q : A -> Prop) (Q' : B -> Prop) (m : M A) (k : A -> M B) :
  covered Q m -> (forall a, Q a -> covered Q' (k a)) -> covered Q' (bind m k).
Proof.
  intros Hm Hk c Hc. destruct (Hm c Hc) as (H1 & H2 & H3).
  unfold bind, outcome, after in *.
  destruct (m c) as [[[a| | |] c1] t1]; simpl in *; try done.
  destruct (Hk a (H3 a eq_refl) c1 H2) as (K1 & K2 & K3).
  unfold outcome, after in *.
  by destruct (k a c1) as [[r c2] t2].
Qed.

(** A continuation of [this] is given a client with numeric bounds. *)
Lemma covered_this {B} (Q' : B -> Prop) (k : Client -> M B) :
  (forall c0, typed_client c0 = true -> covered Q' (k c0)) -> covered Q' (bind this k).
Proof.
  intros Hk c Hc. unfold bind, this.
  destruct (Hk c Hc c Hc) as (K1 & K2 & K3).
  unfold outcome, after in *.
  by destruct (k c c) as [[r c2] t2].
Qed.

Lemma covered_for_each {A} (l : list A) (body : A -> M unit) :
  (forall x, covered (fun _ => True) (body x)) ->
  covered (fun _ => True) (for_each l body).
Proof.
  intros Hb. induction l as [|x l IH]; [by apply covered_ret|].
  simpl. apply (covered_bind (fun _ => True)); [apply Hb|]. intros _ _. exact IH.
Qed.

Lemma covered_ToNumber v : numeric v = true -> covered (fun _ => True) (ToNumber v).
Proof.
  unfold numeric, ToNumber. destruct (to_number v); [|done].
  intros _. by apply covered_ret.
Qed.

Lemma covered_ToPropertyKey v :
  keyable v = true -> covered (fun _ => True) (ToPropertyKey v).
Proof. by destruct v as [[]|]; intros H; try discriminate H; apply covered_ret. Qed.

Lemma covered_for_in_keys v : plain v = true -> covered (fun _ => True) (for_in_keys v).
Proof. by destruct v as [[]|]; intros H; try discriminate H; apply covered_ret. Qed.

Lemma covered_index v n :
  plain v = true -> covered (fun a => numeric a = true) (index v n).
Proof.
  destruct v as [[]|]; intros H; try discriminate H;
    try apply covered_throw; try (by apply covered_ret).
  apply covered_ret. simpl in H. rewrite forallb_forall in H.
  destruct (elems !! n) as [e|] eqn:E; [|done].
  apply H. apply list_elem_of_In. by eapply list_elem_of_lookup_2.
Qed.

Lemma covered_Object_keys v :
  typeof_object v = true -> covered (fun _ => True) (Object_keys v).
Proof.
  destruct v as [[]|]; intros H; try discriminate H;
    try apply covered_throw; by apply covered_ret.
Qed.

Lemma covered_member data k : covered (fun a => a = field data k) (member data k).
Proof. destruct data; try apply covered_throw; by apply covered_ret. Qed.

Lemma covered__send command reqId :
  covered (fun _ => True) (_send uuid_v4 command reqId).
Proof.
  unfold _send. apply (covered_bind (fun _ => True)).
  { destruct reqId; [by apply covered_ret|apply covered_uuid]. }
  intros r _. apply (covered_bind (fun _ => True)); [by apply covered_emit|].
  intros _ _. apply covered_this. intros c0 _.
  destruct (_ws c0); [by apply covered_emit|apply covered_throw].
Qed.

Lemma covered_stop code : covered (fun _ => True) (stop code).
Proof.
  unfold stop. apply covered_this. intros c0 _.
  apply (covered_bind (fun _ => True)); [by apply covered_emit|]. intros _ _.
  apply (covered_bind (fun _ => True)).
  { destruct (_ws c0); [by apply covered_emit|apply covered_throw]. }
  intros _ _. apply (covered_bind (fun _ => True)); [by apply covered_emit|].
  intros _ _. apply covered_exit.
Qed.

Lemma covered__onOpen : covered (fun _ => True) (_onOpen uuid_v4).
Proof.
  unfold _onOpen. apply (covered_bind (fun _ => True)); [apply covered__send|].
  intros _ _. apply covered_this. intros c0 _.
  apply (covered_bind (fun _ => True)); [by apply covered_emit|]. intros _ _.
  by apply covered_update.
Qed.

Lemma covered__processSet set1 set2 options :
  plain set1 = true -> plain set2 = true ->
  covered (fun _ => True) (_processSet uuid_v4 set1 set2 options).
Proof.
  intros H1 H2. unfold _processSet.
  apply (covered_bind (fun _ => True)); [by apply covered_for_in_keys|].
  intros keys _. apply covered_for_each. intros n. unfold _processSet_body.
  apply (covered_bind (fun a => numeric a = true)); [by apply covered_index|].
  intros a Ha.
  apply (covered_bind (fun a => numeric a = true)); [by apply covered_index|].
  intros b Hb.
  apply (covered_bind (fun _ => True)); [by apply covered_ToNumber|]. intros x _.
  apply (covered_bind (fun _ => True)); [by apply covered_ToNumber|]. intros y _.
  apply covered_this. intros c0 Hc0.
  apply andb_true_iff in Hc0 as [Hlo Hhi].
  apply (covered_bind (fun _ => True)); [by apply covered_ToNumber|]. intros lo _.
  destruct (Number.lt lo (ratio x y)); [|by apply covered_ret].
  apply (covered_bind (fun _ => True)); [by apply covered_ToNumber|]. intros hi _.
  destruct (Number.lt (ratio x y) hi); [apply covered__send|by apply covered_ret].
Qed.

Lemma covered__onDataHandler data :
  typed data = true -> covered (fun _ => True) (_onDataHandler uuid_v4 data).
Proof.
  intros Ht. unfold typed in Ht.
  apply andb_true_iff in Ht as [Ht Hd]. apply andb_true_iff in Ht as [_ Hk].
  unfold _onDataHandler.
  apply (covered_bind (fun a => a = field data "data")); [apply covered_member|].
  intros d ->. destruct (field data "data") as [d|]; [|apply covered_throw].
  apply andb_true_iff in Hd as [H1 H2].
  destruct d; try apply covered_throw;
    (apply (covered_bind (fun a => a = field data "_reqId")); [apply covered_member|];
     intros reqId ->;
     apply (covered_bind (fun _ => True)); [by apply covered_ToPropertyKey|];
     intros key _; apply covered_this; intros c0 _;
     apply (covered_bind (fun _ => True)); [by apply covered__processSet|];
     intros _ _; by apply covered__processSet).
Qed.

Lemma covered__onEventsHandler data :
  typed data = true -> typeof_object (field data "events") = true ->
  covered (fun _ => True) (_onEventsHandler uuid_v4 data).
Proof.
  intros Ht He. unfold typed in Ht.
  apply andb_true_iff in Ht as [Ht _]. apply andb_true_iff in Ht as [Ht _].
  apply andb_true_iff in Ht as [Hlo Hhi].
  unfold _onEventsHandler.
  apply (covered_bind (fun a => a = field data "minDiv")); [apply covered_member|].
  intros minDiv ->.
  apply (covered_bind (fun a => a = field data "maxDiv")); [apply covered_member|].
  intros maxDiv ->.
  apply (covered_bind (fun a => a = field data "events")); [apply covered_member|].
  intros events ->.
  apply (covered_bind (fun _ => True)); [by apply covered_update|]. intros _ _.
  apply (covered_bind (fun _ => True)).
  { apply covered_update; [done|]. intros c Hc. unfold typed_client in *.
    apply andb_true_iff in Hc as [_ Hc]. simpl. by rewrite Hlo, Hc. }
  intros _ _.
  apply (covered_bind (fun _ => True)).
  { apply covered_update; [done|]. intros c Hc. unfold typed_client in *.
    apply andb_true_iff in Hc as [Hc _]. simpl. by rewrite Hhi, Hc. }
  intros _ _.
  apply (covered_bind (fun _ => True)); [by apply covered_Object_keys|].
  intros keys _. apply covered_for_each. intros eventId.
  unfold _onEventsHandler_each.
  apply (covered_bind (fun _ => True)); [apply covered_uuid|]. intros reqId _.
  apply (covered_bind (fun _ => True)); [by apply covered_update|]. intros _ _.
  apply covered__send.
Qed.

Lemma covered__onMessage msg :
  typed_notification JSON_parse (Message msg) = true ->
  covered (fun _ => True) (_onMessage JSON_parse uuid_v4 msg).
Proof.
  intros Ht. simpl in Ht. unfold _onMessage.
  apply (covered_bind (fun _ => True)); [by apply covered_emit|]. intros _ _.
  destruct (JSON_parse msg) as [data|]; [|apply covered_throw].
  apply (covered_bind (fun a => a = field data "events")); [apply covered_member|].
  intros events ->.
  destruct (typeof_object (field data "events")) eqn:He;
    [by apply covered__onEventsHandler|].
  apply (covered_bind (fun a => a = field data "data")); [apply covered_member|].
  intros d ->.
  destruct (typeof_object (field data "data")); [by apply covered__onDataHandler|].
  apply (covered_bind (fun _ => True)).
  { eapply covered_weaken; [|apply covered_member]. done. }
  intros m _.
  destruct (strict_eq_string m "Lose"); [apply covered_stop|].
  destruct (strict_eq_string m "Win"); [apply covered_stop|by apply covered_ret].
Qed.

Lemma covered_listener ev :
  typed_notification JSON_parse ev = true ->
  covered (fun _ => True) (listener JSON_parse uuid_v4 ev).
Proof.
  destruct ev; intros Ht;
    [apply covered__onOpen|by apply covered__onMessage|apply covered__send].
Qed.

(** A session of typed notifications, begun with numeric bounds, does not
    reach [Unknown], and a client that is still running has numeric bounds. *)
Lemma covered_run evs : forall c,
  typed_client c = true ->
  forallb (typed_notification JSON_parse) evs = true ->
  (run JSON_parse uuid_v4 (Running c) evs).1 <> Unknown
  /\ forall c', (run JSON_parse uuid_v4 (Running c) evs).1 = Running c' ->
       typed_client c' = true.
Proof.
  induction evs as [|ev evs IH]; intros c Hc Ht.
  - simpl. split; [done|]. by intros c' [= <-].
  - simpl in Ht. apply andb_true_iff in Ht as [Hev Ht].
    destruct (covered_listener ev Hev c Hc) as (H1 & H2 & _).
    simpl. unfold deliver, outcome, after in *.
    destruct (listener JSON_parse uuid_v4 ev c) as [[[[]| | |] c1] t1];
      simpl in *; try done.
    + destruct (IH c1 H2 Ht) as [K1 K2].
      by destruct (run JSON_parse uuid_v4 (Running c1) evs) as [p2 t2].
    + rewrite (run_not_running JSON_parse uuid_v4 (Uncaught e) evs) by done. done.
    + rewrite (run_not_running JSON_parse uuid_v4 (Exited code) evs) by done. done.
Qed.

End Covered.

(** ** Sessions *)

(** X1. In a session whose messages are typed as the protocol has them
    (bounds that are numbers, booleans or [null], series that are arrays of
    such values, a request identifier that is a string, a boolean or
    [null]), begun by a client with such bounds, no handler meets a value of
    another kind, and the frames handed to the socket carry identifiers drawn
    during the session: no two frames carry the same one (the generator never
    repeats itself), and none reuses an identifier that was tracked when the
    session began. *)
Theorem session_request_ids_are_fresh
    (JSON_parse : string -> option json) (uuid_v4 : nat -> string)
    (c : Client) (evs : list notification) :
  (forall i j, uuid_v4 i = uuid_v4 j -> i = j) ->
  typed_client c = true ->
  forallb (typed_notification JSON_parse) evs = true ->
  let session := run JSON_parse uuid_v4 (Running c) evs in
  session.1 <> Unknown
  /\ NoDup (_reqId <$> sent session.2)
  /\ (forall f, f ∈ sent session.2 ->
        exists i, (uuids c <= i)%nat /\ _reqId f = uuid_v4 i)
  /\ (tracked_drawn uuid_v4 c ->
      forall f, f ∈ sent session.2 -> _events c !! _reqId f = None).
Proof.
  intros Hinj Hc Ht session. set (t := session.2).
  destruct (obeys_run JSON_parse uuid_v4 (numbered uuid_v4) evs c)
    as (r & c' & (k & Hk & _) & _).
  fold session in Hk. fold t in Hk.
  assert (Hfresh : forall f, f ∈ sent t ->
            exists i, (uuids c <= i)%nat /\ _reqId f = uuid_v4 i).
  { intros f Hf.
    assert (Hin : _reqId f ∈ _reqId <$> sent t) by (apply list_elem_of_fmap; by exists f).
    rewrite Hk in Hin. apply list_elem_of_fmap in Hin as (i & -> & Hi).
    apply elem_of_seq in Hi. exists i. split; [lia|done]. }
  split; [exact (proj1 (covered_run JSON_parse uuid_v4 evs c Hc Ht))|].
  split; [|split; [exact Hfresh|]].
  - rewrite Hk. apply NoDup_fmap_2; [|apply NoDup_seq].
    intros i j. apply Hinj.
  - intros Hdrawn f Hf. destruct (Hfresh f Hf) as (i & Hi & E).
    destruct (_events c !! _reqId f) as [e|] eqn:Hl; [|done].
    destruct (Hdrawn _ _ Hl) as (j & Hj & E'). rewrite E in E'.
    apply Hinj in E'. lia.
Qed.

(** X2. In a session whose messages are typed as the protocol has them,
    begun by a client with numeric bounds, no handler meets a value of
    another kind, and a frame is handed to the socket only right after the
    line that logs that same frame. *)
Theorem session_frames_are_logged_first
    (JSON_parse : string -> option json) (uuid_v4 : nat -> string)
    (c : Client) (evs : list notification) :
  typed_client c = true ->
  forallb (typed_notification JSON_parse) evs = true ->
  let session := run JSON_parse uuid_v4 (Running c) evs in
  session.1 <> Unknown
  /\ forall t1 f t2, session.2 = t1 ++ WsSend f :: t2 ->
       exists t0, t1 = t0 ++ [Log (Outgoing f)].
Proof.
  intros Hc Ht session.
  split; [exact (proj1 (covered_run JSON_parse uuid_v4 evs c Hc Ht))|].
  destruct (obeys_run JSON_parse uuid_v4 logs_first evs c) as (r & c' & H & _).
  intros t1 f t2. apply (announced_before _ H).
Qed.


(** X4. A session whose messages are typed as the protocol has them, begun
    by a client with numeric bounds and an empty request table, meets no
    value of another kind, and every request the client tracks while it is
    running was handed to the socket as a [getData] command for the event it
    is tracked against, under that very identifier. *)
Theorem session_tracked_requests_were_sent
    (JSON_parse : string -> option json) (uuid_v4 : nat -> string)
    (c0 : Client) (evs : list notification) :
  _events c0 = ∅ ->
  typed_client c0 = true ->
  forallb (typed_notification JSON_parse) evs = true ->
  match run JSON_parse uuid_v4 (Running c0) evs with
  | (Running c, t) =>
      forall rid e, _events c !! rid = Some e ->
        {| payload := GetData e; _reqId := rid |} ∈ sent t
  | (Unknown, _) => False
  | _ => True
  end.
Proof.
  intros H0 Hc Ht.
  pose proof (proj1 (covered_run JSON_parse uuid_v4 evs c0 Hc Ht)) as Hcov.
  destruct (obeys_run JSON_parse uuid_v4 requested evs c0) as (r & c' & H & Hp).
  destruct (run JSON_parse uuid_v4 (Running c0) evs) as [p t]. simpl in *. subst p.
  destruct r as [[]|e|code|]; simpl in *; try done.
  intros rid e He. destruct (H eq_refl rid e He) as [H'|H']; [|done].
  by rewrite H0, lookup_empty in H'.
Qed.

(** ** The order of Numbers *)

Lemma compare_cont_Eq_spec m1 m2 :
  match Pos.compare_cont Eq m1 m2 with
  | Eq => m1 = m2
  | Lt => Zpos m1 < Zpos m2
  | Gt => Zpos m2 < Zpos m1
  end.
Proof.
  change (Pos.compare_cont Eq m1 m2) with (Pos.compare m1 m2).
  destruct (Pos.compare_spec m1 m2); lia.
Qed.

(** [x < y] on Numbers is the order of their ranks. *)
Lemma lt_rank x y :
  Number.lt x y = true
  <-> x <> S754_nan /\ y <> S754_nan /\ rank_lt (rank x) (rank y).
Proof.
  unfold Number.lt, SFltb, rank_lt.
  destruct x as [sx|[]| |[] mx ex], y as [sy|[]| |[] my ey]; simpl;
    try (split; [discriminate|intros (H1 & H2 & H3); try done; lia]);
    try (split; [intros _; repeat split; try done; lia|done]).
  - pose proof (compare_cont_Eq_spec mx my) as Hm.
    destruct (Z.compare_spec ex ey) as [->|He|He]; simpl.
    + destruct (Pos.compare_cont Eq mx my); simpl;
        (split; [try discriminate; intros _; repeat split; try done; lia
                |try done; intros (_ & _ & H); lia]).
    + split; [discriminate|intros (_ & _ & H); lia].
    + split; [intros _; repeat split; try done; lia|done].
  - pose proof (compare_cont_Eq_spec mx my) as Hm.
    destruct (Z.compare_spec ex ey) as [->|He|He]; simpl.
    + destruct (Pos.compare_cont Eq mx my); simpl;
        (split; [try discriminate; intros _; repeat split; try done; lia
                |try done; intros (_ & _ & H); lia]).
    + split; [intros _; repeat split; try done; lia|done].
    + split; [discriminate|intros (_ & _ & H); lia].
Qed.

Lemma lt_trans x y z :
  Number.lt x y = true -> Number.lt y z = true -> Number.lt x z = true.
Proof.
  rewrite !lt_rank. unfold rank_lt.
  intros (Hx & _ & H1) (_ & Hz & H2). split; [done|]. split; [done|]. lia.
Qed.

(** Nothing is strictly inside bounds that are not in order. *)
Lemma inside_ordered lo hi d : inside lo hi d = true -> Number.lt lo hi = true.
Proof.
  unfold inside. intros H. apply andb_true_iff in H as [H1 H2].
  by apply lt_trans with d.
Qed.

Lemma hits_unordered lo hi p r ns :
  Number.lt lo hi = false -> hits lo hi p r ns = [].
Proof.
  intros H. induction ns as [|n ns IH]; [done|].
  rewrite hits_cons. cbv zeta.
  destruct (inside lo hi _) eqn:E; [|exact IH].
  apply inside_ordered in E. congruence.
Qed.

(** ** Construction and the poll loop *)

(** X5. The constructor never leaves the address, the poll period or
    [_win] empty or zero.  An address or poll period that is given and
    truthy is kept; one that is missing, empty or zero yields the default
    (the demo server's address, 12000 ms), and without an argument the
    defaults apply.  The bounds start as [null], the request table empty,
    and there is no socket and no timer yet. *)
Theorem constructor_falls_back_to_defaults (options : option ClientOptions) :
  let c := constructor options in
  _url c <> EmptyString
  /\ _pullIntervalMs c <> 0
  /\ _win c <> 0
  /\ (forall o s, options = Some o -> url o = Some s -> s <> EmptyString -> _url c = s)
  /\ (forall o ms, options = Some o -> pullIntervalMs o = Some ms -> ms <> 0 ->
        _pullIntervalMs c = ms)
  /\ (forall o, options = Some o ->
        (url o = None \/ url o = Some EmptyString -> _url c = "wss://demoserver.dev/ws")
        /\ (pullIntervalMs o = None \/ pullIntervalMs o = Some 0 ->
            _pullIntervalMs c = 12000))
  /\ (options = None -> _url c = "wss://demoserver.dev/ws" /\ _pullIntervalMs c = 12000)
  /\ _minDiv c = Some JNull /\ _maxDiv c = Some JNull
  /\ _events c = ∅ /\ _ws c = None /\ _pullInterval c = None.
Proof.
  intros c. unfold c, constructor. simpl. split_and!; try done.
  - unfold or_string. destruct options as [o|]; simpl; [|done].
    destruct (url o) as [s|]; [|done].
    destruct (String.eqb_spec s EmptyString); done.
  - unfold or_Z. destruct options as [o|]; simpl; [|done].
    destruct (pullIntervalMs o) as [z|]; [|done].
    destruct (Z.eqb_spec z 0); done.
  - unfold or_Z. destruct options as [o|]; simpl; [|done].
    destruct (win o) as [z|]; [|done].
    destruct (Z.eqb_spec z 0); done.
  - intros o s -> Hs Hne. simpl. unfold or_string. rewrite Hs.
    destruct (String.eqb_spec s EmptyString); done.
  - intros o ms -> Hs Hne. simpl. unfold or_Z. rewrite Hs.
    destruct (Z.eqb_spec ms 0); done.
  - intros o ->. simpl. split.
    + unfold or_string. by intros [-> | ->].
    + unfold or_Z. by intros [-> | ->].
  - by intros ->.
Qed.

Section PollLoop.

Variable JSON_parse : string -> option json.
Variable uuid_v4 : nat -> string.

Lemma run_cons p ev evs :
  run JSON_parse uuid_v4 p (ev :: evs)
  = ((run JSON_parse uuid_v4 (deliver JSON_parse uuid_v4 p ev).1 evs).1,
     (deliver JSON_parse uuid_v4 p ev).2
       ++ (run JSON_parse uuid_v4 (deliver JSON_parse uuid_v4 p ev).1 evs).2).
Proof.
  simpl. destruct (deliver JSON_parse uuid_v4 p ev) as [p1 t1].
  simpl. by destruct (run JSON_parse uuid_v4 p1 evs) as [p2 t2].
Qed.

Lemma run_ticks n : forall c,
  connected c ->
  run JSON_parse uuid_v4 (Running c) (replicate n Tick)
  = (Running (set_uuids (uuids c + n) c),
     sending (stamped uuid_v4 (uuids c) (replicate n Commands.getEvents))).
Proof.
  induction n as [|n IH]; intros c Hc.
  - simpl. by rewrite Nat.add_0_r, set_uuids_same.
  - change (replicate (S n) Tick) with (Tick :: replicate n Tick).
    rewrite run_cons. unfold deliver, listener, _onTick.
    rewrite (_send_fresh uuid_v4 _ c Hc). simpl fst. simpl snd.
    rewrite (IH (set_uuids (S (uuids c)) c) Hc).
    change (replicate (S n) Commands.getEvents)
      with (Commands.getEvents :: replicate n Commands.getEvents).
    rewrite stamped_cons. simpl. by rewrite Nat.add_succ_r.
Qed.

End PollLoop.

(** X6. [start] opens the socket at the configured address, which connects
    the client.  When the socket then opens and the timer fires [n] times, the
    client stays running and sends exactly [n + 1] [getEvents] commands, the
    first at once and one per tick, under the identifiers drawn in order; the
    timer is armed once, with the configured period, after the first
    command. *)
Theorem poll_loop_sends_one_getEvents_per_tick
    (JSON_parse : string -> option json) (uuid_v4 : nat -> string)
    (options : option ClientOptions) (n : nat) :
  let c := after (start (constructor options)) in
  let ms := _pullIntervalMs c in
  start (constructor options) = (Normal tt, c, [WsConnect (_url c)])
  /\ connected c
  /\ run JSON_parse uuid_v4 (Running c) (Open :: replicate n Tick)
     = (Running (set_uuids (S n) (set_pullInterval (Some ms) c)),
        sending [{| payload := Commands.getEvents; _reqId := uuid_v4 0%nat |}]
        ++ SetInterval ms
        :: sending (stamped uuid_v4 1%nat (replicate n Commands.getEvents)))
  /\ sent (run JSON_parse uuid_v4 (Running c) (Open :: replicate n Tick)).2
     = stamped uuid_v4 0%nat (replicate (S n) Commands.getEvents).
Proof.
  intros c ms.
  assert (Hc : connected c) by (by eexists).
  assert (Hopen : deliver JSON_parse uuid_v4 (Running c) Open
                  = (Running (set_pullInterval (Some ms) (set_uuids 1%nat c)),
                     sending [{| payload := Commands.getEvents; _reqId := uuid_v4 0%nat |}]
                     ++ [SetInterval ms])).
  { unfold deliver, listener, _onOpen, bind.
    rewrite (_send_fresh uuid_v4 _ c Hc). reflexivity. }
  assert (Hrun : run JSON_parse uuid_v4 (Running c) (Open :: replicate n Tick)
     = (Running (set_uuids (S n) (set_pullInterval (Some ms) c)),
        sending [{| payload := Commands.getEvents; _reqId := uuid_v4 0%nat |}]
        ++ SetInterval ms
        :: sending (stamped uuid_v4 1%nat (replicate n Commands.getEvents)))).
  { rewrite run_cons, Hopen. simpl fst. simpl snd.
    rewrite (run_ticks JSON_parse uuid_v4 n
               (set_pullInterval (Some ms) (set_uuids 1%nat c)) Hc).
    simpl. reflexivity. }
  split; [reflexivity|]. split; [exact Hc|]. split; [exact Hrun|].
  rewrite Hrun. cbn [snd].
  change (replicate (S n) Commands.getEvents)
    with (Commands.getEvents :: replicate n Commands.getEvents).
  rewrite stamped_cons, sent_app, (sent_sending [_]).
  change (sent (SetInterval ms :: ?t)) with (sent t).
  by rewrite sent_sending.
Qed.

(** X7. Before [start] there is no socket: [_send] logs the frame and then
    throws a TypeError, its only effect being that log line; [stop] throws
    after clearing the timer and neither closes anything nor exits; and an
    open or timer notification ends the process with that uncaught error. *)
Theorem before_start_sending_and_stopping_throw
    (JSON_parse : string -> option json) (uuid_v4 : nat -> string)
    (c : Client) (command : command) (reqId : option string) (code : Z) :
  _ws c = None ->
  outcome (_send uuid_v4 command reqId c) = Throw TypeError
  /\ (exists f, trace (_send uuid_v4 command reqId c) = [Log (Outgoing f)]
                /\ payload f = command)
  /\ stop code c = (Throw TypeError, c, [ClearInterval (_pullInterval c)])
  /\ (deliver JSON_parse uuid_v4 (Running c) Open).1 = Uncaught TypeError
  /\ (deliver JSON_parse uuid_v4 (Running c) Tick).1 = Uncaught TypeError.
Proof.
  intros Hw. split_and!.
  - destruct reqId as [r|].
    + by rewrite (_send_given_unconnected uuid_v4 command r c Hw).
    + by rewrite (_send_fresh_unconnected uuid_v4 command c Hw).
  - destruct reqId as [r|].
    + rewrite (_send_given_unconnected uuid_v4 command r c Hw). by eexists.
    + rewrite (_send_fresh_unconnected uuid_v4 command c Hw). by eexists.
  - by apply stop_unconnected.
  - unfold deliver, listener, _onOpen, bind.
    by rewrite (_send_fresh_unconnected uuid_v4 _ c Hw).
  - unfold deliver, listener, _onTick.
    by rewrite (_send_fresh_unconnected uuid_v4 _ c Hw).
Qed.

(** ** Messages outside the three shapes *)

(** X8. A message that parses to something other than [null], whose
    [events] and [data] are not of type object and whose [message] is
    neither ['Lose'] nor ['Win'], is logged and otherwise ignored: the client
    is unchanged and keeps running. *)
Theorem unrecognised_message_is_ignored
    (JSON_parse : string -> option json) (uuid_v4 : nat -> string)
    (c : Client) (msg : string) (data : json) :
  JSON_parse msg = Some data ->
  data <> JNull ->
  typeof_object (field data "events") = false ->
  typeof_object (field data "data") = false ->
  strict_eq_string (field data "message") "Lose" = false ->
  strict_eq_string (field data "message") "Win" = false ->
  _onMessage JSON_parse uuid_v4 msg c = (Normal tt, c, [Log (Incoming msg)])
  /\ deliver JSON_parse uuid_v4 (Running c) (Message msg)
     = (Running c, [Log (Incoming msg)]).
Proof.
  intros Hp Hn He Hd Hl Hw.
  assert (E : _onMessage JSON_parse uuid_v4 msg c = (Normal tt, c, [Log (Incoming msg)])).
  { unfold _onMessage. rewrite bind_emit, Hp.
    rewrite (bind_pure _ _ c c _ (member_field data "events" c Hn)), He.
    rewrite (bind_pure _ _ c c _ (member_field data "data" c Hn)), Hd.
    rewrite (bind_pure _ _ c c _ (member_field data "message" c Hn)), Hl, Hw.
    reflexivity. }
  split; [exact E|]. unfold deliver, listener. by rewrite E.
Qed.

(** X9. A message that is the JSON text [null], or whose [data] is [null]
    while [events] is not of type object, makes [_onMessage] throw a
    TypeError after logging the message; nothing catches it, and the client
    is left as it was. *)
Theorem null_payload_throws
    (JSON_parse : string -> option json) (uuid_v4 : nat -> string)
    (c : Client) (msg : string) (data : json) :
  JSON_parse msg = Some data ->
  data = JNull
  \/ (typeof_object (field data "events") = false /\ field data "data" = Some JNull) ->
  _onMessage JSON_parse uuid_v4 msg c = (Throw TypeError, c, [Log (Incoming msg)])
  /\ deliver JSON_parse uuid_v4 (Running c) (Message msg)
     = (Uncaught TypeError, [Log (Incoming msg)]).
Proof.
  intros Hp Hcase.
  assert (E : _onMessage JSON_parse uuid_v4 msg c = (Throw TypeError, c, [Log (Incoming msg)])).
  { destruct Hcase as [->|[He Hd]].
    - unfold _onMessage. by rewrite bind_emit, Hp.
    - pose proof (field_not_null _ _ _ Hd) as Hn.
      assert (Ht : typeof_object (field data "data") = true) by (by rewrite Hd).
      rewrite (_onMessage_data JSON_parse uuid_v4 msg data c Hp He Ht).
      unfold _onDataHandler.
      by rewrite (bind_pure _ _ c c _ (member_field data "data" c Hn)), Hd. }
  split; [exact E|]. unfold deliver, listener. by rewrite E.
Qed.

(** X10. A data response that carries only one of the two series throws a
    TypeError at the first element of that series, before anything is sent;
    it passes silently only if the series it does carry is empty. *)
Theorem missing_series_throws_unless_the_other_is_empty
    (uuid_v4 : nat -> string) (c : Client) (data d : json) (reqId : string)
    (p : list spec_float) :
  field data "data" = Some d ->
  field data "_reqId" = Some (JString reqId) ->
  (field d "set1" = series p /\ field d "set2" = None)
  \/ (field d "set1" = None /\ field d "set2" = series p) ->
  _onDataHandler uuid_v4 data c
  = match p with
    | [] => (Normal tt, c, [])
    | _ :: _ => (Throw TypeError, c, [])
    end.
Proof.
  intros Hd Hr Hcase.
  pose proof (field_not_null _ _ _ Hd) as Hn.
  unfold _onDataHandler.
  rewrite (bind_pure _ _ c c _ (member_field data "data" c Hn)), Hd.
  assert (Hobj : exists props, d = JObject props).
  { destruct Hcase as [[H _]|[_ H]]; destruct d; try discriminate H; by eexists. }
  destruct Hobj as (props & ->).
  rewrite (bind_pure _ _ c c _ (member_field data "_reqId" c Hn)), Hr.
  destruct Hcase as [[-> ->]|[-> ->]]; destruct p as [|x p]; reflexivity.
Qed.

(** ** More on data responses *)

(** X11. When the lower bound is not below the upper bound (as with the
    [null] bounds of a client that has seen no events update, or with a bound
    that is NaN), a data response confirms nothing: the handler sends no
    frame and leaves the client as it was. *)
Theorem unordered_bounds_confirm_nothing
    (uuid_v4 : nat -> string) (c : Client) (data : json) (reqId : string)
    (s1 s2 : list spec_float) (lo hi : spec_float) :
  connected c -> bounds c lo hi -> is_Data data reqId s1 s2 ->
  Number.lt lo hi = false ->
  _onDataHandler uuid_v4 data c = (Normal tt, c, []).
Proof.
  intros Hc Hb Hd Hlt.
  rewrite (_onDataHandler_Data uuid_v4 data reqId s1 s2 lo hi c Hc Hb Hd).
  unfold data_confirmations. rewrite !(hits_unordered lo hi _ _ _ Hlt).
  simpl. by rewrite Nat.add_0_r, set_uuids_same.
Qed.

(** X12. A data response leaves the request table and the bounds as they
    were: its request is not forgotten, so the same response delivered again
    is evaluated again and yields the same commands, under identifiers that
    are all new. *)
Theorem data_response_is_confirmed_again_when_repeated
    (uuid_v4 : nat -> string) (c : Client) (data : json) (reqId : string)
    (s1 s2 : list spec_float) (lo hi : spec_float) :
  (forall i j, uuid_v4 i = uuid_v4 j -> i = j) ->
  connected c -> bounds c lo hi -> is_Data data reqId s1 s2 ->
  let first := _onDataHandler uuid_v4 data c in
  let second := _onDataHandler uuid_v4 data (after first) in
  _events (after first) = _events c
  /\ _minDiv (after first) = _minDiv c
  /\ _maxDiv (after first) = _maxDiv c
  /\ outcome second = Normal tt
  /\ payload <$> sent (trace second) = payload <$> sent (trace first)
  /\ NoDup (_reqId <$> (sent (trace first) ++ sent (trace second))).
Proof.
  intros Hinj Hc Hb Hd first second.
  pose proof (_onDataHandler_Data uuid_v4 data reqId s1 s2 lo hi c Hc Hb Hd) as H1.
  cbv zeta in H1. fold first in H1.
  set (cmds := data_confirmations lo hi (lookup_event (_events c) reqId) s1 s2) in *.
  assert (Hc' : connected (after first)) by (by rewrite H1).
  assert (Hb' : bounds (after first) lo hi) by (by rewrite H1).
  pose proof (_onDataHandler_Data uuid_v4 data reqId s1 s2 lo hi (after first) Hc' Hb' Hd) as H2.
  cbv zeta in H2. fold second in H2.
  assert (He : _events (after first) = _events c) by (by rewrite H1).
  rewrite He in H2. fold cmds in H2.
  split_and!; try by rewrite H1.
  - by rewrite H2.
  - rewrite H1, H2. unfold trace. cbn [snd].
    by rewrite !sent_sending, !stamped_payload.
  - rewrite H1, H2. unfold trace, after. cbn [snd fst].
    rewrite !sent_sending.
    replace (uuids first.1.2) with (uuids c + length cmds)%nat by (by rewrite H1).
    rewrite <- stamped_app. by apply stamped_reqIds_NoDup.
Qed.

(** X13. Every frame [_processSet] sends is a [confirm] command for the
    event and set it was called with, at an index that exists in both series,
    with a ratio that is neither NaN nor infinite and lies strictly between
    the bounds, which are then themselves in strict order. *)
Theorem confirmed_ratio_is_finite_and_in_range
    (uuid_v4 : nat -> string) (c : Client) (p r : list spec_float)
    (o : SetOptions) (lo hi : spec_float) (f : frame) :
  connected c -> bounds c lo hi ->
  f ∈ sent (trace (_processSet uuid_v4 (series p) (series r) o c)) ->
  exists i d,
    payload f = Commands.confirm (eventId o) (set o) i d
    /\ (i < length p)%nat /\ (i < length r)%nat
    /\ Number.lt lo d = true /\ Number.lt d hi = true /\ Number.lt lo hi = true
    /\ d <> S754_nan /\ (forall s, d <> S754_infinity s).
Proof.
  intros Hc Hb Hf.
  assert (Hp : payload f ∈ payload <$> sent (trace (_processSet uuid_v4 (series p) (series r) o c)))
    by (apply list_elem_of_fmap; by exists f).
  rewrite (_processSet_payloads uuid_v4 p r o lo hi c Hc Hb) in Hp.
  apply elem_of_confirmations in Hp as (n & d & Hh & E).
  apply elem_of_hits in Hh as (Hn & Hd & Hin).
  apply elem_of_seq in Hn.
  exists n, d. split; [done|]. split; [lia|].
  pose proof (inside_ordered lo hi d Hin) as Hord.
  assert (Hr : (n < length r)%nat).
  { destruct (Nat.lt_ge_cases n (length r)) as [|Hge]; [done|].
    rewrite Hd, (inside_beyond lo hi p r n Hge) in Hin. discriminate Hin. }
  unfold inside in Hin. apply andb_true_iff in Hin as [H1 H2].
  split; [done|]. split; [done|]. split; [done|]. split; [done|]. split.
  - intros ->. pose proof (inside_nan lo hi) as Hnan.
    unfold inside in Hnan. by rewrite H1, H2 in Hnan.
  - intros s ->. pose proof (inside_infinity lo hi s) as Hinf.
    unfold inside in Hinf. by rewrite H1, H2 in Hinf.
Qed.

(** ** Events given as an array *)

Section ArrayEvents.

Variable uuid_v4 : nat -> string.

(** X14. When [events] comes as an array, its indices written in decimal
    are taken as the event identifiers: the request table is replaced by one
    request per index, and a [getData] command is sent for each, in order. *)
Theorem events_array_is_read_by_index
    (c : Client) (data : json) (elems : list json) :
  connected c ->
  field data "events" = Some (JArray elems) ->
  let keys := pretty <$> seq 0 (length elems) in
  _onEventsHandler uuid_v4 data c
  = (Normal tt,
     set_uuids (uuids c + length elems)
       (set_events (tracked uuid_v4 (uuids c) keys ∅)
          (set_maxDiv (field data "maxDiv") (set_minDiv (field data "minDiv") c))),
     sending (stamped uuid_v4 (uuids c) (Commands.getData <$> keys)))
  /\ payload <$> sent (trace (_onEventsHandler uuid_v4 data c))
     = (fun i : nat => GetData (pretty i)) <$> seq 0 (length elems).
Proof.
  intros Hc He keys.
  pose proof (field_not_null _ _ _ He) as Hn.
  assert (E : _onEventsHandler uuid_v4 data c
     = (Normal tt,
        set_uuids (uuids c + length elems)
          (set_events (tracked uuid_v4 (uuids c) keys ∅)
             (set_maxDiv (field data "maxDiv") (set_minDiv (field data "minDiv") c))),
        sending (stamped uuid_v4 (uuids c) (Commands.getData <$> keys)))).
  { unfold _onEventsHandler.
    rewrite (bind_pure _ _ c c _ (member_field data "minDiv" c Hn)).
    rewrite (bind_pure _ _ c c _ (member_field data "maxDiv" c Hn)).
    rewrite (bind_pure _ _ c c _ (member_field data "events" c Hn)), He.
    unfold bind at 1 2 3 4. unfold update, Object_keys, ret. fold keys.
    rewrite (_onEventsHandler_loop uuid_v4 keys
               (set_maxDiv (field data "maxDiv")
                  (set_minDiv (field data "minDiv") (set_events ∅ c))) Hc).
    unfold keys. by rewrite length_fmap, length_seq. }
  split; [exact E|]. rewrite E. unfold trace. cbn [snd].
  rewrite sent_sending, stamped_payload. unfold keys.
  by rewrite <- list_fmap_compose.
Qed.

End ArrayEvents.

(** ** The [win] option *)

Section Inert.

Variable JSON_parse : string -> option json.
Variable uuid_v4 : nat -> string.

Lemma inert_ret {A} (a : A) : inert (ret a).
Proof. by intros c w. Qed.

Lemma inert_throw {A} e : inert (throw (A:=A) e).
Proof. by intros c w. Qed.

Lemma inert_exit {A} code : inert (exit (A:=A) code).
Proof. by intros c w. Qed.

Lemma inert_ill_typed {A} : inert (ill_typed (A:=A)).
Proof. by intros c w. Qed.

Lemma inert_emit e : inert (emit e).
Proof. by intros c w. Qed.

Lemma inert_update f :
  (forall c w, f (set_win w c) = set_win w (f c)) -> inert (update f).
Proof. intros Hf c w. unfold update, relabel. by rewrite Hf. Qed.

Lemma inert_uuid : inert (uuid uuid_v4).
Proof. by intros c w. Qed.

Lemma inert_bind {A B} (m : M A) (k : A -> M B) :
  inert m -> (forall a, inert (k a)) -> inert (bind m k).
Proof.
  intros Hm Hk c w. unfold bind. rewrite Hm.
  destruct (m c) as [[[a| | |] c1] t1]; try reflexivity.
  unfold relabel, outcome, after, trace. cbn [fst snd].
  rewrite Hk. by destruct (k a c1) as [[r c2] t2].
Qed.

(** A continuation of [this] may read every property but [_win]. *)
Lemma inert_this {B} (k : Client -> M B) :
  (forall c w c', k (set_win w c) c' = k c c') ->
  (forall c0, inert (k c0)) -> inert (bind this k).
Proof.
  intros Hread Hk c w. unfold bind, this.
  rewrite Hread, Hk. by destruct (k c c) as [[r c2] t2].
Qed.

Lemma inert_for_each {A} (l : list A) (body : A -> M unit) :
  (forall x, inert (body x)) -> inert (for_each l body).
Proof.
  intros Hb. induction l as [|x l IH]; [apply inert_ret|].
  simpl. apply inert_bind; [apply Hb|]. intros _. exact IH.
Qed.

Lemma inert_ToNumber v : inert (ToNumber v).
Proof. unfold ToNumber. destruct (to_number v); [apply inert_ret|apply inert_ill_typed]. Qed.

Lemma inert_ToPropertyKey v : inert (ToPropertyKey v).
Proof. unfold ToPropertyKey. by destruct v as [[]|]; intros c w. Qed.

Lemma inert_for_in_keys v : inert (for_in_keys v).
Proof. by destruct v as [[]|]; intros c w. Qed.

Lemma inert_index v n : inert (index v n).
Proof. by destruct v as [[]|]; intros c w. Qed.

Lemma inert_Object_keys v : inert (Object_keys v).
Proof. by destruct v as [[]|]; intros c w. Qed.

Lemma inert_member data k : inert (member data k).
Proof. by destruct data; intros c w. Qed.

Lemma inert__send command reqId : inert (_send uuid_v4 command reqId).
Proof.
  unfold _send. apply inert_bind.
  { destruct reqId; [apply inert_ret|apply inert_uuid]. }
  intros r. apply inert_bind; [apply inert_emit|]. intros _.
  apply inert_this; [reflexivity|].
  intros c0. destruct (_ws c0); [apply inert_emit|apply inert_throw].
Qed.

Lemma inert_stop code : inert (stop code).
Proof.
  unfold stop. apply inert_this; [reflexivity|]. intros c0.
  apply inert_bind; [apply inert_emit|]. intros _.
  apply inert_bind.
  { destruct (_ws c0); [apply inert_emit|apply inert_throw]. }
  intros _. apply inert_bind; [apply inert_emit|]. intros _. apply inert_exit.
Qed.

Lemma inert__onOpen : inert (_onOpen uuid_v4).
Proof.
  unfold _onOpen. apply inert_bind; [apply inert__send|]. intros _.
  apply inert_this; [reflexivity|]. intros c0.
  apply inert_bind; [apply inert_emit|]. intros _.
  by apply inert_update.
Qed.

Lemma inert__connect : inert _connect.
Proof.
  unfold _connect. apply inert_this; [reflexivity|]. intros c0.
  apply inert_bind; [by apply inert_update|]. intros _. apply inert_emit.
Qed.

Lemma inert__processSet set1 set2 options :
  inert (_processSet uuid_v4 set1 set2 options).
Proof.
  unfold _processSet. apply inert_bind; [apply inert_for_in_keys|]. intros keys.
  apply inert_for_each. intros n. unfold _processSet_body.
  apply inert_bind; [apply inert_index|]. intros a.
  apply inert_bind; [apply inert_index|]. intros b.
  apply inert_bind; [apply inert_ToNumber|]. intros x.
  apply inert_bind; [apply inert_ToNumber|]. intros y.
  apply inert_this; [reflexivity|]. intros c0.
  apply inert_bind; [apply inert_ToNumber|]. intros lo.
  destruct (Number.lt lo (ratio x y)); [|apply inert_ret].
  apply inert_bind; [apply inert_ToNumber|]. intros hi.
  destruct (Number.lt (ratio x y) hi); [apply inert__send|apply inert_ret].
Qed.

Lemma inert__onDataHandler data : inert (_onDataHandler uuid_v4 data).
Proof.
  unfold _onDataHandler. apply inert_bind; [apply inert_member|].
  intros [d|]; [|apply inert_throw].
  destruct d; try apply inert_throw;
    (apply inert_bind; [apply inert_member|]; intros reqId;
     apply inert_bind; [apply inert_ToPropertyKey|]; intros key;
     apply inert_this; [reflexivity|]; intros c0;
     apply inert_bind; [apply inert__processSet|]; intros _;
     apply inert__processSet).
Qed.

Lemma inert__onEventsHandler data : inert (_onEventsHandler uuid_v4 data).
Proof.
  unfold _onEventsHandler.
  apply inert_bind; [apply inert_member|]. intros minDiv.
  apply inert_bind; [apply inert_member|]. intros maxDiv.
  apply inert_bind; [apply inert_member|]. intros events.
  apply inert_bind; [by apply inert_update|]. intros _.
  apply inert_bind; [by apply inert_update|]. intros _.
  apply inert_bind; [by apply inert_update|]. intros _.
  apply inert_bind; [apply inert_Object_keys|]. intros keys.
  apply inert_for_each. intros eventId. unfold _onEventsHandler_each.
  apply inert_bind; [apply inert_uuid|]. intros reqId.
  apply inert_bind; [by apply inert_update|]. intros _.
  apply inert__send.
Qed.

Lemma inert__onMessage msg : inert (_onMessage JSON_parse uuid_v4 msg).
Proof.
  unfold _onMessage. apply inert_bind; [apply inert_emit|]. intros _.
  destruct (JSON_parse msg) as [data|]; [|apply inert_throw].
  apply inert_bind; [apply inert_member|]. intros events.
  destruct (typeof_object events); [apply inert__onEventsHandler|].
  apply inert_bind; [apply inert_member|]. intros d.
  destruct (typeof_object d); [apply inert__onDataHandler|].
  apply inert_bind; [apply inert_member|]. intros m.
  destruct (strict_eq_string m "Lose"); [apply inert_stop|].
  destruct (strict_eq_string m "Win"); [apply inert_stop|apply inert_ret].
Qed.

Lemma inert_listener ev : inert (listener JSON_parse uuid_v4 ev).
Proof.
  destruct ev; [apply inert__onOpen|apply inert__onMessage|apply inert__send].
Qed.

End Inert.

(** X15. The [win] option is stored and never read: two clients constructed
    from options that differ in [win] alone, started and sent the same
    notifications, whose messages are typed as the protocol has them, meet no
    value of another kind, produce the same effects and end alike, the
    clients differing at most in [_win]. *)
Theorem win_option_is_never_read
    (JSON_parse : string -> option json) (uuid_v4 : nat -> string)
    (options : ClientOptions) (w : option Z) (evs : list notification) :
  forallb (typed_notification JSON_parse) evs = true ->
  let other := {| url := url options; pullIntervalMs := pullIntervalMs options;
                  win := w |} in
  let session o :=
    run JSON_parse uuid_v4
      (Running (after (start (constructor (Some o))))) (Open :: evs) in
  (session options).1 <> Unknown
  /\ (session other).1 <> Unknown
  /\ (session other).2 = (session options).2
  /\ match (session options).1 with
     | Running c => exists v, (session other).1 = Running (set_win v c)
     | p => (session other).1 = p
     end.
Proof.
  intros Ht other session.
  assert (Hrun : forall evs c v,
    run JSON_parse uuid_v4 (Running (set_win v c)) evs
    = (match (run JSON_parse uuid_v4 (Running c) evs).1 with
       | Running c' => Running (set_win v c')
       | p => p
       end, (run JSON_parse uuid_v4 (Running c) evs).2)).
  { clear. intros evs. induction evs as [|ev evs IH]; intros c v; [reflexivity|].
    rewrite !run_cons. unfold deliver.
    rewrite (inert_listener JSON_parse uuid_v4 ev c v).
    destruct (listener JSON_parse uuid_v4 ev c) as [[[[]| | |] c1] t1];
      unfold relabel, outcome, after, trace; cbn [fst snd].
    - by rewrite IH.
    - by rewrite !run_not_running.
    - by rewrite !run_not_running.
    - by rewrite !run_not_running. }
  assert (Hcov : forall o, (session o).1 <> Unknown).
  { intros o. unfold session.
    apply (covered_run JSON_parse uuid_v4 (Open :: evs)); [reflexivity|exact Ht]. }
  split; [apply Hcov|]. split; [apply Hcov|].
  set (v := or_Z w (win DEFAULT_OPTIONS)).
  assert (E : after (start (constructor (Some other)))
              = set_win v (after (start (constructor (Some options))))) by reflexivity.
  unfold session. rewrite E, Hrun. cbn [fst snd]. split; [reflexivity|].
  destruct (run JSON_parse uuid_v4 _ (Open :: evs)).1; try reflexivity.
  by exists v.
Qed.

(** ** Examples *)

Lemma session_request_ids_are_fresh_witness :
  let evs := [Message Sample.text_events; Tick] in
  let session := run Sample.JSON_parse Sample.uuid_v4 (Running Sample.client) evs in
  typed_client Sample.client = true
  /\ forallb (typed_notification Sample.JSON_parse) evs = true
  /\ _reqId <$> sent session.2 = ["req-1"; "req-2"; "req-3"]
  /\ session.1 <> Unknown
  /\ NoDup (_reqId <$> sent session.2)
  /\ forall f, f ∈ sent session.2 -> _events Sample.client !! _reqId f = None.
Proof.
  intros evs session.
  split; [reflexivity|]. split; [vm_compute; reflexivity|].
  split; [vm_compute; reflexivity|].
  destruct (session_request_ids_are_fresh Sample.JSON_parse Sample.uuid_v4
              Sample.client evs Sample_uuid_v4_inj eq_refl eq_refl)
    as (H0 & H1 & _ & H3).
  split; [exact H0|]. split; [exact H1|exact (H3 Sample_client_tracked_drawn)].
Defined.

Lemma session_frames_are_logged_first_witness :
  let f := {| payload := Commands.getEvents; _reqId := "req-1" |} in
  typed_client Sample.client = true
  /\ forallb (typed_notification Sample.JSON_parse) [Tick] = true
  /\ (run Sample.JSON_parse Sample.uuid_v4 (Running Sample.client) [Tick]).2
     = [Log (Outgoing f)] ++ WsSend f :: []
  /\ exists t0, [Log (Outgoing f)] = t0 ++ [Log (Outgoing f)].
Proof.
  intros f.
  assert (H : (run Sample.JSON_parse Sample.uuid_v4 (Running Sample.client) [Tick]).2
              = [Log (Outgoing f)] ++ WsSend f :: []) by (vm_compute; reflexivity).
  split; [reflexivity|]. split; [reflexivity|]. split; [exact H|].
  exact (proj2 (session_frames_are_logged_first Sample.JSON_parse Sample.uuid_v4
                  Sample.client [Tick] eq_refl eq_refl) _ f [] H).
Defined.


Lemma session_tracked_requests_were_sent_witness :
  let evs := [Open; Message Sample.text_events] in
  let session := run Sample.JSON_parse Sample.uuid_v4 (Running Stray.started) evs in
  _events Stray.started = ∅
  /\ typed_client Stray.started = true
  /\ forallb (typed_notification Sample.JSON_parse) evs = true
  /\ exists c, session.1 = Running c
     /\ _events c !! "req-2" = Some "b"
     /\ {| payload := GetData "b"; _reqId := "req-2" |} ∈ sent session.2.
Proof.
  intros evs session.
  split; [reflexivity|]. split; [reflexivity|]. split; [vm_compute; reflexivity|].
  pose proof (session_tracked_requests_were_sent Sample.JSON_parse Sample.uuid_v4
                Stray.started evs eq_refl eq_refl eq_refl) as H.
  fold session in H.
  destruct session as [[c| | |] t] eqn:E; try (vm_compute in E; discriminate E).
  exists c. split; [reflexivity|].
  assert (He : _events c !! "req-2" = Some "b")
    by (vm_compute in E; injection E as <- _; vm_compute; reflexivity).
  split; [exact He|exact (H "req-2" "b" He)].
Defined.

Lemma win_option_is_never_read_witness :
  let evs := [Message Sample.text_events; Message Sample.text_lose] in
  let session w :=
    run Sample.JSON_parse Sample.uuid_v4
      (Running (after (start (constructor
         (Some {| url := None; pullIntervalMs := None; win := w |})))))
      (Open :: evs) in
  forallb (typed_notification Sample.JSON_parse) evs = true
  /\ (session (Some 7)).2 = (session None).2
  /\ (session None).1 = Exited 1.
Proof.
  intros evs session.
  split; [vm_compute; reflexivity|].
  split; [|vm_compute; reflexivity].
  exact (proj1 (proj2 (proj2 (win_option_is_never_read Sample.JSON_parse
                  Sample.uuid_v4 {| url := None; pullIntervalMs := None; win := None |}
                  (Some 7) evs eq_refl)))).
Defined.

Lemma before_start_sending_and_stopping_throw_witness :
  _ws (constructor None) = None
  /\ stop 0 (constructor None)
     = (Throw TypeError, constructor None, [ClearInterval None])
  /\ (deliver Sample.JSON_parse Sample.uuid_v4 (Running (constructor None)) Open).1
     = Uncaught TypeError.
Proof.
  split; [reflexivity|].
  destruct (before_start_sending_and_stopping_throw Sample.JSON_parse Sample.uuid_v4
              (constructor None) Commands.getEvents None 0 eq_refl)
    as (_ & _ & H3 & H4 & _).
  split; [exact H3|exact H4].
Defined.

Lemma unrecognised_message_is_ignored_witness :
  Stray.JSON_parse Stray.text_draw = Some (JObject [("message", JString "Draw")])
  /\ deliver Stray.JSON_parse Sample.uuid_v4 (Running Sample.client)
       (Message Stray.text_draw)
     = (Running Sample.client, [Log (Incoming Stray.text_draw)]).
Proof.
  split; [reflexivity|].
  refine (proj2 (unrecognised_message_is_ignored Stray.JSON_parse Sample.uuid_v4
                   Sample.client Stray.text_draw
                   (JObject [("message", JString "Draw")])
                   eq_refl _ eq_refl eq_refl eq_refl eq_refl)).
  discriminate.
Defined.

Lemma null_payload_throws_witness :
  Stray.JSON_parse Stray.text_null = Some JNull
  /\ deliver Stray.JSON_parse Sample.uuid_v4 (Running Sample.client)
       (Message Stray.text_null)
     = (Uncaught TypeError, [Log (Incoming Stray.text_null)]).
Proof.
  split; [reflexivity|].
  exact (proj2 (null_payload_throws Stray.JSON_parse Sample.uuid_v4 Sample.client
                  Stray.text_null JNull eq_refl (or_introl eq_refl))).
Defined.

Lemma missing_series_throws_unless_the_other_is_empty_witness :
  field Stray.half_data "data"
  = Some (JObject [("set1", JArray (JNumber <$> Sample.numbers [1; 2]))])
  /\ _onDataHandler Sample.uuid_v4 Stray.half_data Sample.client
     = (Throw TypeError, Sample.client, []).
Proof.
  split; [reflexivity|].
  exact (missing_series_throws_unless_the_other_is_empty Sample.uuid_v4 Sample.client
           Stray.half_data _ "req-0" (Sample.numbers [1; 2])
           eq_refl eq_refl (or_introl (conj eq_refl eq_refl))).
Defined.

Lemma unordered_bounds_confirm_nothing_witness :
  connected Stray.started
  /\ bounds Stray.started Number.zero Number.zero
  /\ Number.lt Number.zero Number.zero = false
  /\ _onDataHandler Sample.uuid_v4 (Sample.data_message "req-0" [10; 20] [5; 18])
       Stray.started
     = (Normal tt, Stray.started, []).
Proof.
  assert (Hc : connected Stray.started) by (by eexists).
  assert (Hb : bounds Stray.started Number.zero Number.zero) by (by split).
  assert (Hd : is_Data (Sample.data_message "req-0" [10; 20] [5; 18]) "req-0"
                 (Sample.numbers [10; 20]) (Sample.numbers [5; 18]))
    by (eexists; repeat split; reflexivity).
  split; [exact Hc|]. split; [exact Hb|]. split; [reflexivity|].
  exact (unordered_bounds_confirm_nothing Sample.uuid_v4 Stray.started _ "req-0" _ _
           Number.zero Number.zero Hc Hb Hd eq_refl).
Defined.

Lemma data_response_is_confirmed_again_when_repeated_witness :
  let data := Sample.data_message "req-0" [10; 20] [5; 18] in
  let first := _onDataHandler Sample.uuid_v4 data Sample.client in
  let second := _onDataHandler Sample.uuid_v4 data (after first) in
  connected Sample.client
  /\ bounds Sample.client (Number.of_Z 1) (Number.of_Z 2)
  /\ payload <$> sent (trace first)
     = [Confirm (Stored "ev1") "set1" 1 (Number.of_decimal false 111 (-2))]
  /\ payload <$> sent (trace second) = payload <$> sent (trace first).
Proof.
  intros data first second.
  assert (Hc : connected Sample.client) by (by eexists).
  assert (Hb : bounds Sample.client (Number.of_Z 1) (Number.of_Z 2)) by (by split).
  assert (Hd : is_Data data "req-0" (Sample.numbers [10; 20]) (Sample.numbers [5; 18]))
    by (eexists; repeat split; reflexivity).
  split; [exact Hc|]. split; [exact Hb|]. split; [vm_compute; reflexivity|].
  destruct (data_response_is_confirmed_again_when_repeated Sample.uuid_v4
              Sample.client data "req-0" _ _ _ _ Sample_uuid_v4_inj Hc Hb Hd)
    as (_ & _ & _ & _ & H & _).
  exact H.
Defined.

Lemma confirmed_ratio_is_finite_and_in_range_witness :
  let f := {| payload := Confirm (Stored "ev1") "set1" 1 (Number.of_decimal false 111 (-2));
              _reqId := "req-1" |} in
  let t := trace (_processSet Sample.uuid_v4
                    (series (Sample.numbers [10; 20])) (series (Sample.numbers [5; 18]))
                    {| set := "set1"; eventId := Stored "ev1" |} Sample.client) in
  connected Sample.client
  /\ bounds Sample.client (Number.of_Z 1) (Number.of_Z 2)
  /\ f ∈ sent t
  /\ exists i d, payload f = Confirm (Stored "ev1") "set1" i d
                 /\ (i < 2)%nat /\ d <> S754_nan.
Proof.
  intros f t.
  assert (Hc : connected Sample.client) by (by eexists).
  assert (Hb : bounds Sample.client (Number.of_Z 1) (Number.of_Z 2)) by (by split).
  assert (E : sent t = [f]) by (vm_compute; reflexivity).
  assert (Hf : f ∈ sent t) by (rewrite E; apply list_elem_of_here).
  split; [exact Hc|]. split; [exact Hb|]. split; [exact Hf|].
  destruct (confirmed_ratio_is_finite_and_in_range Sample.uuid_v4 Sample.client
              (Sample.numbers [10; 20]) (Sample.numbers [5; 18])
              {| set := "set1"; eventId := Stored "ev1" |}
              (Number.of_Z 1) (Number.of_Z 2) f Hc Hb Hf)
    as (i & d & H1 & H2 & _ & _ & _ & _ & H3 & _).
  exists i, d. split; [exact H1|]. split; [exact H2|exact H3].
Defined.

Lemma events_array_is_read_by_index_witness :
  connected Sample.client
  /\ field Stray.array_events "events" = Some (JArray [JObject []; JObject []])
  /\ payload <$> sent (trace (_onEventsHandler Sample.uuid_v4 Stray.array_events
                                Sample.client))
     = [GetData "0"; GetData "1"].
Proof.
  assert (Hc : connected Sample.client) by (by eexists).
  split; [exact Hc|]. split; [reflexivity|].
  exact (proj2 (events_array_is_read_by_index Sample.uuid_v4 Sample.client
                  Stray.array_events [JObject []; JObject []] Hc eq_refl)).
Defined.
